(** * yt: the grid index (yt/geometry/grid_geometry_handler.py)

    A shallow embedding of [GridIndex], the index class for patch and block
    AMR datasets: backing-file grouping, level statistics, edge locking, the
    memoized grid tree, point location and the three chunking strategies.

    Python objects are records, NumPy arrays are lists (rows of an (N,3)
    array are triples), dictionaries are [gmap]s, [float64] values are the
    kernel's binary64 floats.  Methods that mutate [self], raise or yield run
    in the monad [M]: a state of the index, an exception or a value, and the
    chunks yielded on the way (a generator is read as drained by its
    consumer). *)

From Stdlib Require Import ZArith Floats Lia.
From Stdlib Require OrderedTypeEx.
From stdpp Require Import gmap strings list fin_maps sorting.

Open Scope Z_scope.

(* ===================================================================== *)
(** ** Python and NumPy primitives *)
(* ===================================================================== *)

Module Py.

(** The exceptions the module raises, by its own [raise] statements or
    through the interpreter. *)
Inductive exn : Type :=
| AssertionError (msg : string)
| RuntimeError (msg : string)
| NotImplementedError
| AttributeError (attr : string)
| UnboundLocalError (name : string)
| IndexError
| ValueError.

(** [range(start, stop, step)]: CPython's length formula; a zero step is a
    [ValueError]. *)
Definition range (start stop step : Z) : exn + list Z :=
  if decide (step = 0) then inl ValueError
  else if decide (0 < step)
       then inr ((λ k, start + k * step) <$> seqZ 0 ((stop - start + step - 1) `div` step))
       else inr ((λ k, start + k * step) <$> seqZ 0 ((start - stop - step - 1) `div` (- step))).

(** A slice bound, as [PySlice_AdjustIndices] clamps it for step 1. *)
Definition clamp (len i : Z) : nat :=
  Z.to_nat (Z.min len (Z.max 0 (if decide (i < 0) then i + len else i))).

(** [l[i:j]]. *)
Definition slice {A} (l : list A) (i j : Z) : list A :=
  let n := Z.of_nat (length l) in
  take (clamp n j - clamp n i) (drop (clamp n i) l).

(** [a or b] on an optional integer: [None] and [0] are falsy. *)
Definition or_int (a : option Z) (b : Z) : Z :=
  match a with
  | Some v => if decide (v = 0) then b else v
  | None => b
  end.

(** Position of index [i] in a NumPy axis of length [n]: negative indices
    count from the end, anything else out of range is an [IndexError]. *)
Definition np_index (n : nat) (i : Z) : exn + nat :=
  if decide (0 ≤ i < Z.of_nat n) then inr (Z.to_nat i)
  else if decide (- Z.of_nat n ≤ i < 0) then inr (Z.to_nat (i + Z.of_nat n))
  else inl IndexError.

(** Two's complement wrap-around of NumPy's [int64]. *)
Definition wrap_int64 (z : Z) : Z := (z + 2 ^ 63) `mod` 2 ^ 64 - 2 ^ 63.

(** [list.sort()] and [sorted] on integers. *)
Definition sorted_Z (l : list Z) : list Z := merge_sort Z.le l.

(** [sorted(l, key=key)] with integer keys: stable, as Python's sort is. *)
Fixpoint insert_by_key {A} (key : A → Z) (x : A) (l : list A) : list A :=
  match l with
  | [] => [x]
  | y :: l' => if decide (key x ≤ key y) then x :: l else y :: insert_by_key key x l'
  end.

Definition sorted_by_key {A} (key : A → Z) (l : list A) : list A :=
  foldr (insert_by_key key) [] l.

End Py.

Export Py(exn(..)).

(* ===================================================================== *)
(** ** State, exceptions and yields *)
(* ===================================================================== *)

Section Monad.
Context {St Y : Type}.

(** One run of a method body from a state: what it yielded, how it ended
    (an exception or a return value) and the state it left. *)
Record run (A : Type) := Run {
  yields : list Y;
  outcome : exn + A;
  final : St;
}.
Global Arguments Run {A} _ _ _.
Global Arguments yields {A} _.
Global Arguments outcome {A} _.
Global Arguments final {A} _.

Definition M (A : Type) : Type := St → run A.

Definition ret {A} (a : A) : M A := λ s, Run [] (inr a) s.

Definition bind {A B} (m : M A) (k : A → M B) : M B := λ s,
  let r := m s in
  match outcome r with
  | inl e => Run (yields r) (inl e) (final r)
  | inr a => let r' := k a (final r) in
             Run (yields r ++ yields r') (outcome r') (final r')
  end.

Definition raise {A} (e : exn) : M A := λ s, Run [] (inl e) s.
Definition yield (y : Y) : M unit := λ s, Run [y] (inr tt) s.
Definition get : M St := λ s, Run [] (inr s) s.
Definition modify (f : St → St) : M unit := λ s, Run [] (inr tt) (f s).

(** An interpreter-level result ([IndexError] on a bad index, ...). *)
Definition lift {A} (r : exn + A) : M A :=
  match r with inl e => raise e | inr a => ret a end.

(** [for x in l: body(x)]. *)
Fixpoint for_each {A} (l : list A) (body : A → M unit) : M unit :=
  match l with
  | [] => ret tt
  | x :: l' => bind (body x) (λ _, for_each l' body)
  end.

(** A [for] loop that carries a local variable from one pass to the next. *)
Fixpoint for_fold {A B} (l : list A) (acc : B) (body : B → A → M B) : M B :=
  match l with
  | [] => ret acc
  | x :: l' => bind (body acc x) (λ acc', for_fold l' acc' body)
  end.
End Monad.

Global Arguments run : clear implicits.
Global Arguments M : clear implicits.

Declare Scope py_scope.
Delimit Scope py_scope with py.
Notation "x <- m ;; k" := (bind m (λ x, k))
  (at level 100, m at next level, right associativity) : py_scope.
Notation "m ;; k" := (bind m (λ _, k))
  (at level 100, right associativity) : py_scope.
Open Scope py_scope.

(* ===================================================================== *)
(** ** Data model *)
(* ===================================================================== *)

(** A row of an (N,3) [float64] array, and of an (N,3) integer array. *)
Definition F3 : Type := float * float * float.
Definition Z3 : Type := Z * Z * Z.

(** Elementwise NumPy arithmetic on rows; an integer operand is converted
    to [float64] first. *)
Definition of_int (z : Z) : float :=
  if decide (0 ≤ z) then PrimFloat.of_uint63 (Uint63.of_Z z)
  else PrimFloat.opp (PrimFloat.of_uint63 (Uint63.of_Z (- z))).

Definition f3_add (a b : F3) : F3 :=
  let '(a0, a1, a2) := a in let '(b0, b1, b2) := b in
  (a0 + b0, a1 + b1, a2 + b2)%float.

Definition f3_mul_int (a : F3) (k : Z3) : F3 :=
  let '(a0, a1, a2) := a in let '(k0, k1, k2) := k in
  (a0 * of_int k0, a1 * of_int k1, a2 * of_int k2)%float.

Definition int_mul_f3 (k : Z3) (a : F3) : F3 :=
  let '(k0, k1, k2) := k in let '(a0, a1, a2) := a in
  (of_int k0 * a0, of_int k1 * a1, of_int k2 * a2)%float.

(** A grid patch.  [Parent] and [Children] refer to grids by their position
    in the index's [grids] array. *)
Module Grid.
Record t := mk {
  id : Z;
  _id_offset : Z;
  filename : string;
  Level : Z;
  ActiveDimensions : Z3;
  dds : F3;
  LeftEdge : F3;
  RightEdge : F3;
  Parent : option nat;
  Children : list nat;
}.

Definition set_edges (g : t) (le re : F3) : t :=
  mk (id g) (_id_offset g) (filename g) (Level g) (ActiveDimensions g)
     (dds g) le re (Parent g) (Children g).
End Grid.

(** What [dataset._file_class(dataset, io, fn, fi, grids_)] keeps: the
    file's name, its sequential index and the grid ids stored in it. *)
Module DataFile.
Record t := mk {
  filename : string;
  file_id : Z;
  grid_id_values : list Z;
}.
End DataFile.

(** What [GridTree(num_grids, left_edge, right_edge, dimensions, parent_ind,
    level, num_children)] is built from. *)
Module GridTree.
Record t := mk {
  num_grids : Z;
  left_edge : list F3;
  right_edge : list F3;
  dimensions : list Z3;
  parent_ind : list Z;
  level : list Z;
  num_children : list Z;
}.
End GridTree.

(** A geometric predicate, [dobj.selector]. *)
Definition Predicate : Type := F3 → bool.

(** The object [grid_tree.selector(mask)] returns: the tree it came from,
    the optional [uint8] grid mask, and what [count] memoizes. *)
Module Indexer.
Record t := mk {
  tree : GridTree.t;
  mask : option (list Z);
  cell_count_by_grid : gmap Z Z;
  grid_order : list Z;
}.
End Indexer.

(** One row of the [level_stats] record array. *)
Module LevelStat.
Record t := mk {
  numgrids : Z;
  numcells : Z;
  level : Z;
}.
End LevelStat.

(** What a chunk is made of: grids or backing files. *)
Inductive ChunkObj : Type :=
| GridObj (g : Grid.t)
| FileObj (f : DataFile.t).

(** [YTDataChunk(dobj, chunk_type, objs, data_size, cache, indexer)]. *)
Module DataChunk.
Record t := mk {
  chunk_type : string;
  objs : list ChunkObj;
  data_size : Z;
  cache : bool;
  _indexer : option Indexer.t;
}.
End DataChunk.

(** The data object a chunking call works for.  [_current_chunk] is [None]
    until a base chunk is identified. *)
Module DataObj.
Record t := mk {
  selector : Predicate;
  size : Z;
  _chunk_info : list ChunkObj;
  _current_chunk : option DataChunk.t;
}.
End DataObj.

(** The two [ytcfg] integers the module reads. *)
Module Config.
Record t := mk {
  __global_parallel_size : Z;
  chunk_size : Z;
}.
End Config.

(** The state of a [GridIndex]: [self], the grids it owns and the dataset
    attributes it reads.  [_grid_chunksize] is [None] where no class or
    instance defines that attribute. *)
Module Index.
Record t := mk {
  grids : list Grid.t;
  num_grids : Z;
  grid_left_edge : list F3;
  grid_right_edge : list F3;
  grid_levels : list Z;
  grid_dimensions : list Z3;
  max_level : Z;
  level_stats : list LevelStat.t;
  _grid_tree : option GridTree.t;
  data_files : list DataFile.t;
  _preload_implemented : bool;
  _grid_chunksize : option Z;
  ds_grid_chunk_size : option Z;
  ds_domain_left_edge : F3;
}.

Definition set_data_files (v : list DataFile.t) (s : t) : t :=
  mk (grids s) (num_grids s) (grid_left_edge s) (grid_right_edge s)
     (grid_levels s) (grid_dimensions s) (max_level s) (level_stats s)
     (_grid_tree s) v (_preload_implemented s) (_grid_chunksize s)
     (ds_grid_chunk_size s) (ds_domain_left_edge s).

Definition set_level_stats (v : list LevelStat.t) (s : t) : t :=
  mk (grids s) (num_grids s) (grid_left_edge s) (grid_right_edge s)
     (grid_levels s) (grid_dimensions s) (max_level s) v
     (_grid_tree s) (data_files s) (_preload_implemented s) (_grid_chunksize s)
     (ds_grid_chunk_size s) (ds_domain_left_edge s).

Definition set_grid_tree (v : option GridTree.t) (s : t) : t :=
  mk (grids s) (num_grids s) (grid_left_edge s) (grid_right_edge s)
     (grid_levels s) (grid_dimensions s) (max_level s) (level_stats s)
     v (data_files s) (_preload_implemented s) (_grid_chunksize s)
     (ds_grid_chunk_size s) (ds_domain_left_edge s).

Definition set_grids (v : list Grid.t) (s : t) : t :=
  mk v (num_grids s) (grid_left_edge s) (grid_right_edge s)
     (grid_levels s) (grid_dimensions s) (max_level s) (level_stats s)
     (_grid_tree s) (data_files s) (_preload_implemented s) (_grid_chunksize s)
     (ds_grid_chunk_size s) (ds_domain_left_edge s).

Definition set_grid_left_edge (v : list F3) (s : t) : t :=
  mk (grids s) (num_grids s) v (grid_right_edge s)
     (grid_levels s) (grid_dimensions s) (max_level s) (level_stats s)
     (_grid_tree s) (data_files s) (_preload_implemented s) (_grid_chunksize s)
     (ds_grid_chunk_size s) (ds_domain_left_edge s).

Definition set_grid_right_edge (v : list F3) (s : t) : t :=
  mk (grids s) (num_grids s) (grid_left_edge s) v
     (grid_levels s) (grid_dimensions s) (max_level s) (level_stats s)
     (_grid_tree s) (data_files s) (_preload_implemented s) (_grid_chunksize s)
     (ds_grid_chunk_size s) (ds_domain_left_edge s).
End Index.

(** Methods of the index run over its state and yield data chunks. *)
Definition Meth (A : Type) : Type := M Index.t DataChunk.t A.

(** [self.dataset._grid_chunk_size or (2 << 32)]. *)
Definition GRID_CHUNKSIZE (s : Index.t) : Z :=
  Py.or_int (Index.ds_grid_chunk_size s) (Z.shiftl 2 32).

(* ===================================================================== *)
(** ** Backing-file grouping: [_setup_filenames] *)
(* ===================================================================== *)

(** [(l[pos:pos + size] for pos in range(0, len(l), size))]: the list cut
    into runs of [size], as both the file grouping and the io chunking do. *)
Definition runs {A} (l : list A) (size : Z) : exn + list (list A) :=
  match Py.range 0 (Z.of_nat (length l)) size with
  | inl e => inl e
  | inr starts => inr ((λ pos, Py.slice l pos (pos + size)) <$> starts)
  end.

(** [g.id - g._id_offset]. *)
Definition file_local_id (g : Grid.t) : Z := Grid.id g - Grid._id_offset g.

(** One pass of the first loop: open the file's bucket if it is new, then
    append the grid's id to it. *)
Definition add_grid (grids_by_file : gmap string (list Z)) (g : Grid.t)
  : gmap string (list Z) :=
  let fn := Grid.filename g in
  let grids_by_file :=
    match grids_by_file !! fn with
    | None => <[fn := []]> grids_by_file
    | Some _ => grids_by_file
    end in
  <[fn := default [] (grids_by_file !! fn) ++ [file_local_id g]]> grids_by_file.

(** The order [sorted] puts the items of [grids_by_file] in: the keys of a
    dictionary are distinct, so the filenames alone decide. *)
Definition item_le (a b : string * list Z) : Prop := String.leb a.1 b.1 = true.

Global Instance item_le_dec a b : Decision (item_le a b).
Proof. unfold item_le. apply _. Defined.

(** The innermost statements: one more data file, numbered [fi]. *)
Definition append_data_file (fn : string) (fi : Z) (grids_ : list Z) : Meth Z :=
  let df := DataFile.mk fn fi grids_ in
  modify (λ s, Index.set_data_files (Index.data_files s ++ [df]) s) ;;
  ret (fi + 1).

(** The body of the loop over the sorted items: the records of one file. *)
Definition file_records (G : Z) (fi : Z) (item : string * list Z) : Meth Z :=
  let '(fn, grids) := item in
  grids_runs <- lift (runs grids G) ;;
  for_fold grids_runs fi (append_data_file fn).

Definition _setup_filenames : Meth unit :=
  self <- get ;;
  let grids_by_file := foldl add_grid ∅ (Index.grids self) in
  let grids_by_file := Py.sorted_Z <$> grids_by_file in
  modify (Index.set_data_files []) ;;
  let G := GRID_CHUNKSIZE self in
  for_fold (merge_sort item_le (map_to_list grids_by_file)) 0 (file_records G) ;;
  ret tt.

(* ===================================================================== *)
(** ** The methods of [GridIndex] *)
(* ===================================================================== *)

(** Row [i] of a NumPy array, and the rows picked by an index array. *)
Definition np_get {A} (l : list A) (i : Z) : exn + A :=
  match Py.np_index (length l) i with
  | inl e => inl e
  | inr n => match l !! n with Some a => inr a | None => inl IndexError end
  end.

Fixpoint np_take {A} (l : list A) (ind : list Z) : exn + list A :=
  match ind with
  | [] => inr []
  | i :: ind' =>
      match np_get l i with
      | inl e => inl e
      | inr a => match np_take l ind' with
                 | inl e => inl e
                 | inr r => inr (a :: r)
                 end
      end
  end.

(** [a[np.asarray(ind)]] with a list [ind] of integers: [np.asarray] makes
    a [float64] array of the empty list, and an array of floats cannot
    index. *)
Definition np_take_list {A} (l : list A) (ind : list Z) : exn + list A :=
  match ind with
  | [] => inl IndexError
  | _ :: _ => np_take l ind
  end.

(** [a[i] = v] on a NumPy array. *)
Definition np_set {A} (l : list A) (i : Z) (v : A) : exn + list A :=
  match Py.np_index (length l) i with
  | inl e => inl e
  | inr n => inr (<[n := v]> l)
  end.

(** [a[li, :]] with a boolean mask [li]: the shapes must agree. *)
Definition np_bool_index {A} (l : list A) (li : list bool) : exn + list A :=
  if decide (length l = length li)
  then inr (fst <$> filter (λ p, p.2 = true) (zip l li))
  else inl IndexError.

(** [np.zeros(n)] and the like: a negative length is a [ValueError]. *)
Definition np_full {A} (n : Z) (v : A) : exn + list A :=
  if decide (n < 0) then inl ValueError else inr (replicate (Z.to_nat n) v).

(** Assignment of a list to one column of the [level_stats] record array:
    the lengths must agree. *)
Definition set_column (f : LevelStat.t → Z → LevelStat.t)
    (a : list LevelStat.t) (vals : list Z) : exn + list LevelStat.t :=
  if decide (length a = length vals) then inr (zip_with f a vals) else inl ValueError.

Definition with_numgrids (r : LevelStat.t) (v : Z) : LevelStat.t :=
  LevelStat.mk v (LevelStat.numcells r) (LevelStat.level r).
Definition with_numcells (r : LevelStat.t) (v : Z) : LevelStat.t :=
  LevelStat.mk (LevelStat.numgrids r) v (LevelStat.level r).
Definition with_level (r : LevelStat.t) (v : Z) : LevelStat.t :=
  LevelStat.mk (LevelStat.numgrids r) (LevelStat.numcells r) v.

(** [a.prod(axis=1)] and [a.sum()] on an [int32] array: NumPy accumulates
    in [int64]. *)
Definition prod_axis1 (row : Z3) : Z :=
  let '(d0, d1, d2) := row in
  Py.wrap_int64 (Py.wrap_int64 (Py.wrap_int64 (1 * d0) * d1) * d2).

Definition np_sum (l : list Z) : Z :=
  foldl (λ acc v, Py.wrap_int64 (acc + v)) 0 l.

(** [np.sum(a == level)]. *)
Definition count_equal (a : list Z) (level : Z) : Z :=
  Z.of_nat (length (filter (λ v, v = level) a)).

(** The ceiling of a quotient of integers, in exact arithmetic. *)
Definition ceil_div (a b : Z) : Z := - ((- a) `div` b).

(** The objects a chunking call iterates over:
    [getattr(dobj._current_chunk, "objs", dobj._chunk_info)]. *)
Definition chunk_objs (dobj : DataObj.t) : list ChunkObj :=
  match DataObj._current_chunk dobj with
  | Some c => DataChunk.objs c
  | None => DataObj._chunk_info dobj
  end.

Definition obj_level (o : ChunkObj) : exn + Z :=
  match o with
  | GridObj g => inr (Grid.Level g)
  | FileObj _ => inl (AttributeError "Level")
  end.

Definition obj_grid_id_values (o : ChunkObj) : exn + list Z :=
  match o with
  | FileObj f => inr (DataFile.grid_id_values f)
  | GridObj _ => inl (AttributeError "grid_id_values")
  end.

(** [sorted(gobjs, key=lambda g: sign * g.Level)]: the key is read off every
    object, so one without a [Level] fails the call. *)
Fixpoint levels_of (l : list ChunkObj) : exn + list Z :=
  match l with
  | [] => inr []
  | o :: l' =>
      match obj_level o with
      | inl e => inl e
      | inr v => match levels_of l' with
                 | inl e => inl e
                 | inr vs => inr (v :: vs)
                 end
      end
  end.

Definition sorted_by_level (sign : Z) (l : list ChunkObj) : exn + list ChunkObj :=
  match levels_of l with
  | inl e => inl e
  | inr _ =>
      inr (Py.sorted_by_key
             (λ o, match o with GridObj g => sign * Grid.Level g | FileObj _ => 0 end) l)
  end.

(** [this_loop = np.zeros(ngrids, "uint8")] with the entries of the batch
    set to one. *)
Fixpoint set_ones (this_loop : list Z) (g_indices : list Z) : exn + list Z :=
  match g_indices with
  | [] => inr this_loop
  | g_id :: rest =>
      match np_set this_loop g_id 1 with
      | inl e => inl e
      | inr this_loop' => set_ones this_loop' rest
      end
  end.

Definition batch_mask (ngrids : nat) (g_indices : list Z) : exn + list Z :=
  set_ones (replicate ngrids 0) g_indices.


Section GridIndex.

(** Collaborators that live outside this module. *)

(** [yt.utilities.definitions.MAXLEVEL]. *)
Variable MAXLEVEL : Z.
(** [g.get_global_startindex()]: the grid's integer start index. *)
Variable get_global_startindex : Grid.t → Z3.
(** [MatchPointsToGrids(tree, n, x, y, z).find_points_in_tree()]. *)
Variable find_points_in_tree :
  GridTree.t → Z → list float → list float → list float → list Z.
(** [indexer.count(selector)]: the cell count, and what the call
    memoizes in the indexer, [cell_count_by_grid] and [grid_order]. *)
Variable indexer_count : Indexer.t → Predicate → Z * (gmap Z Z * list Z).
(** [self._split_fields(fields)]. *)
Variable _split_fields : list string → list string * list string.
(** [og.retrieve_ghost_zones(ngz, [], smoothed=True)]. *)
Variable retrieve_ghost_zones : Grid.t → Z → Grid.t.
(** The configuration, [ytcfg]. *)
Variable ytcfg : Config.t.

(** *** Level statistics *)

(** One pass of the loop of [_initialize_level_stats]. *)
Definition level_stats_pass (level : Z) : Meth unit :=
  self <- get ;;
  r <- lift (np_get (Index.level_stats self) level) ;;
  a <- lift (np_set (Index.level_stats self) level
               (with_numgrids r (count_equal (Index.grid_levels self) level))) ;;
  modify (Index.set_level_stats a) ;;
  let li := (λ v, bool_decide (v = level)) <$> Index.grid_levels self in
  rows <- lift (np_bool_index (Index.grid_dimensions self) li) ;;
  self <- get ;;
  r <- lift (np_get (Index.level_stats self) level) ;;
  a <- lift (np_set (Index.level_stats self) level
               (with_numcells r (np_sum (prod_axis1 <$> rows)))) ;;
  modify (Index.set_level_stats a).

Definition _initialize_level_stats : Meth unit :=
  blank <- lift (np_full MAXLEVEL (LevelStat.mk 0 0 0)) ;;
  modify (Index.set_level_stats blank) ;;
  all_levels <- lift (Py.range 0 MAXLEVEL 1) ;;
  self <- get ;;
  a <- lift (set_column with_level (Index.level_stats self) all_levels) ;;
  a <- lift (set_column with_numgrids a ((λ _, 0) <$> all_levels)) ;;
  a <- lift (set_column with_numcells a ((λ _, 0) <$> all_levels)) ;;
  modify (Index.set_level_stats a) ;;
  levels <- lift (Py.range 0 (Index.max_level self + 1) 1) ;;
  for_each levels level_stats_pass.

(** *** Edge locking *)

(** One pass of the loop of [lock_grids_to_parents], for the grid at
    position [i]. *)
Definition lock_grid (i : Z) : Meth unit :=
  self <- get ;;
  g <- lift (np_get (Index.grids self) i) ;;
  let si := get_global_startindex g in
  let LeftEdge := f3_add (Index.ds_domain_left_edge self) (f3_mul_int (Grid.dds g) si) in
  let RightEdge := f3_add LeftEdge (int_mul_f3 (Grid.ActiveDimensions g) (Grid.dds g)) in
  gs <- lift (np_set (Index.grids self) i (Grid.set_edges g LeftEdge RightEdge)) ;;
  modify (Index.set_grids gs) ;;
  le <- lift (np_set (Index.grid_left_edge self) i LeftEdge) ;;
  modify (Index.set_grid_left_edge le) ;;
  re <- lift (np_set (Index.grid_right_edge self) i RightEdge) ;;
  modify (Index.set_grid_right_edge re).

Definition lock_grids_to_parents : Meth unit :=
  self <- get ;;
  for_each (seqZ 0 (Z.of_nat (length (Index.grids self)))) lock_grid.

(** *** The memoized grid tree *)

Definition _get_grid_tree : Meth GridTree.t :=
  self <- get ;;
  match Index._grid_tree self with
  | Some tree => ret tree
  | None =>
      let n := Index.num_grids self in
      left_edge <- lift (np_full n ((0, 0, 0)%float : F3)) ;;
      right_edge <- lift (np_full n ((0, 0, 0)%float : F3)) ;;
      level <- lift (np_full n 0) ;;
      parent_ind <- lift (np_full n 0) ;;
      num_children <- lift (np_full n 0) ;;
      dimensions <- lift (np_full n ((0, 0, 0) : Z3)) ;;
      arrays <- for_fold (seqZ 0 (Z.of_nat (length (Index.grids self))))
        (GridTree.mk n left_edge right_edge dimensions parent_ind level num_children)
        (λ a i,
           grid <- lift (np_get (Index.grids self) i) ;;
           left_edge <- lift (np_set (GridTree.left_edge a) i (Grid.LeftEdge grid)) ;;
           right_edge <- lift (np_set (GridTree.right_edge a) i (Grid.RightEdge grid)) ;;
           level <- lift (np_set (GridTree.level a) i (Grid.Level grid)) ;;
           p <- match Grid.Parent grid with
                | None => ret (-1)
                | Some j =>
                    match Index.grids self !! j with
                    | Some parent => ret (file_local_id parent)
                    | None => raise IndexError
                    end
                end ;;
           parent_ind <- lift (np_set (GridTree.parent_ind a) i p) ;;
           num_children <- lift (np_set (GridTree.num_children a) i
                                   (Z.of_nat (length (Grid.Children grid)))) ;;
           dimensions <- lift (np_set (GridTree.dimensions a) i (Grid.ActiveDimensions grid)) ;;
           ret (GridTree.mk n left_edge right_edge dimensions parent_ind level num_children)) ;;
      modify (Index.set_grid_tree (Some arrays)) ;;
      ret arrays
  end.

(** *** Point location *)

Definition _find_points (x y z : list float) : Meth (list Grid.t * list Z) :=
  (* ensure_numpy_array leaves a sequence of coordinates as it is *)
  if negb (bool_decide (length x = length y) && bool_decide (length y = length z))
  then raise (AssertionError "Arrays of indices must be of the same size")
  else
    grid_tree <- _get_grid_tree ;;
    let ind := find_points_in_tree grid_tree (Z.of_nat (length x)) x y z in
    self <- get ;;
    found <- lift (np_take (Index.grids self) ind) ;;
    ret (found, ind).

(** *** Chunking *)

(** [_count_selection(dobj, grids, indexer)]: with an indexer, its count
    (returned here with the indexer as the count leaves it); without one
    the method raises, and the per-grid sum below the [raise] is dead
    code. *)
Definition _count_selection (dobj : DataObj.t) (grids : option (list ChunkObj))
    (indexer : option Indexer.t) : Meth (Z * Indexer.t) :=
  match indexer with
  | Some ix =>
      let r := indexer_count ix (DataObj.selector dobj) in
      ret (r.1, Indexer.mk (Indexer.tree ix) (Indexer.mask ix) r.2.1 r.2.2)
  | None => raise NotImplementedError
  end.

Definition _chunk_all (dobj : DataObj.t) (cache : bool) (indexer : option Indexer.t)
  : Meth unit :=
  let fobjs := chunk_objs dobj in
  let indexer :=
    match indexer with
    | Some ix => Some ix
    | None => match DataObj._current_chunk dobj with
              | Some c => DataChunk._indexer c
              | None => None
              end
    end in
  yield (DataChunk.mk "all" fobjs (DataObj.size dobj) cache indexer).

Definition _chunk_spatial (dobj : DataObj.t) (ngz : Z) (sort : option string)
    (preload_fields : option (list string)) : Meth unit :=
  let gobjs := chunk_objs dobj in
  giter <- (match sort with
            | Some srt =>
                if bool_decide (srt = "+level") || bool_decide (srt = "level")
                then r <- lift (sorted_by_level 1 gobjs) ;; ret (Some r)
                else if bool_decide (srt = "-level")
                then r <- lift (sorted_by_level (-1) gobjs) ;; ret (Some r)
                else ret None
            | None => ret (Some gobjs)
            end) ;;
  let preload_fields := default [] preload_fields in
  let preload_fields := (_split_fields preload_fields).1 in
  self <- get ;;
  (* a ChunkDataCache hands out the grids it was given *)
  giter <- (if Index._preload_implemented self
               && bool_decide (0 < Z.of_nat (length preload_fields))
               && bool_decide (ngz = 0)
            then match giter with
                 | Some l => ret (Some l)
                 | None => raise (UnboundLocalError "giter")
                 end
            else ret giter) ;;
  match giter with
  | None => raise (UnboundLocalError "giter")
  | Some giter =>
      for_each giter (λ og,
        g <- (if bool_decide (0 < ngz)
              then match og with
                   | GridObj og' => ret (GridObj (retrieve_ghost_zones og' ngz))
                   | FileObj _ => raise (AttributeError "retrieve_ghost_zones")
                   end
              else ret og) ;;
        r <- _count_selection dobj (Some [og]) None ;;
        let size := r.1 in
        if bool_decide (size = 0) then ret tt
        else yield (DataChunk.mk "spatial" [g] size false None))
  end.

(** [np.ceil(x)] of a [float64], as the integer it is; [None] for an
    infinity or a NaN, which [np.ceil] hands back. *)
Definition np_ceil (x : float) : option Z :=
  match Prim2SF x with
  | S754_zero _ => Some 0
  | S754_finite s m e =>
      let v := if s then Z.neg m else Z.pos m in
      Some (if decide (0 ≤ e) then v * 2 ^ e else - ((- v) `div` 2 ^ (- e)))
  | S754_infinity _ | S754_nan => None
  end.

(** [.astype("int")] on the result of [np.ceil]: the integer itself where
    [int64] holds it.  The cast of any other value is undefined in C; it
    is given here the value the conversion instruction of x86-64 leaves. *)
Definition astype_int (c : option Z) : Z :=
  match c with
  | Some z => if decide (- 2 ^ 63 ≤ z < 2 ^ 63) then z else - 2 ^ 63
  | None => - 2 ^ 63
  end.

(** The batch size of the ["auto"] mode for [chunk_ngrids > 0]:
    [nproc = np.float(...)],
    [chunking_factor = np.ceil(GRID_CHUNKSIZE*nproc/chunk_ngrids).astype("int")],
    [size = max(GRID_CHUNKSIZE//chunking_factor, 1)].  The product and the
    quotient are those of [float64]; the integers are converted by
    [of_int], which is Python's conversion for integers below [2 ^ 63] in
    absolute value.  NumPy's integer floor division by zero gives zero, as
    [Z.div] does. *)
Definition auto_size (G nproc chunk_ngrids : Z) : Z :=
  let nproc := of_int nproc in
  let chunking_factor :=
    astype_int (np_ceil (of_int G * nproc / of_int chunk_ngrids)%float) in
  Z.max (G `div` chunking_factor) 1.


(** The sizing decision of [_chunk_io]: the batch size for a mode, given
    the number of grids in the selection. *)
Definition io_chunk_size (self : Index.t) (chunk_sizing : string) (chunk_ngrids : Z)
  : exn + Z :=
  let G := GRID_CHUNKSIZE self in
  if bool_decide (chunk_sizing = "auto") then
    if bool_decide (0 < chunk_ngrids)
    then inr (auto_size G (Config.__global_parallel_size ytcfg) chunk_ngrids)
    else match Index._grid_chunksize self with
         | Some v => inr v
         | None => inl (AttributeError "_grid_chunksize")
         end
  else if bool_decide (chunk_sizing = "config_file") then
    inr (Config.chunk_size ytcfg)
  else if bool_decide (chunk_sizing = "just_one") then inr 1
  else if bool_decide (chunk_sizing = "old") then inr G
  else inl (RuntimeError
              (chunk_sizing ++ " is an invalid value for the 'chunk_sizing' argument.")).

(** The body of the inner loop of [_chunk_io]: the chunk of one batch
    [g_indices] of the file [f]. *)
Definition io_batch (dobj : DataObj.t) (cache : bool) (f : ChunkObj)
    (g_indices : list Z) : Meth unit :=
  self <- get ;;
  this_loop <- lift (batch_mask (length (Index.grids self)) g_indices) ;;
  tree <- _get_grid_tree ;;
  let indexer2 := Indexer.mk tree (Some this_loop) ∅ [] in
  r <- _count_selection dobj None (Some indexer2) ;;
  let chunk_size := r.1 in
  let indexer2 := r.2 in
  self <- get ;;
  grids <- lift (np_take_list (Index.grids self) (Indexer.grid_order indexer2)) ;;
  (* the preload of [4.0 * size] grids around the yield is the io
     handler's business *)
  yield (DataChunk.mk "io" [f] chunk_size cache (Some indexer2)).

(** The body of the outer loop: the batches of one file. *)
Definition io_file (dobj : DataObj.t) (cache : bool) (size : Z) (f : ChunkObj)
  : Meth unit :=
  gs <- lift (obj_grid_id_values f) ;;
  batches <- lift (runs gs size) ;;
  for_each batches (io_batch dobj cache f).

Definition _chunk_io (dobj : DataObj.t) (cache local_only : bool)
    (preload_fields : option (list string)) (chunk_sizing : string) : Meth unit :=
  let preload_fields := default [] preload_fields in
  let preload_fields := (_split_fields preload_fields).1 in
  let fobjs := chunk_objs dobj in
  indexer <- match DataObj._current_chunk dobj with
             | Some c =>
                 match DataChunk._indexer c with
                 | Some ix => ret ix
                 | None => raise (AttributeError "cell_count_by_grid")
                 end
             | None => raise (AttributeError "_indexer")
             end ;;
  self <- get ;;
  gobjs <- lift (np_take (Index.grids self)
                   (map_to_list (Indexer.cell_count_by_grid indexer)).*1) ;;
  let gobjs := Py.sorted_by_key Grid.id gobjs in
  size <- lift (io_chunk_size self chunk_sizing (Z.of_nat (length gobjs))) ;;
  for_each fobjs (io_file dobj cache size).

End GridIndex.

(* ===================================================================== *)
(** ** Grids by level: [select_grids], [get_levels] *)
(* ===================================================================== *)

(** [self.grids[self.grid_levels.flat == level]]. *)
Definition select_grids {Y} (level : Z) : M Index.t Y (list Grid.t) :=
  self <- get ;;
  lift (np_bool_index (Index.grids self)
          ((λ v, bool_decide (v = level)) <$> Index.grid_levels self)).

(** The generator [get_levels]: it yields arrays of grids. *)
Definition get_levels : M Index.t (list Grid.t) unit :=
  self <- get ;;
  levels <- lift (Py.range 0 (Index.max_level self + 1) 1) ;;
  for_each levels (λ level, group <- select_grids level ;; yield group).

(* ===================================================================== *)
(** ** Small hierarchies to run the methods on *)
(* ===================================================================== *)

Module Examples.
Definition zero3 : F3 := (0, 0, 0)%float.
Definition one3 : F3 := (1, 1, 1)%float.

Definition grid (id off : Z) (fn : string) (lvl : Z) (dims : Z3) : Grid.t :=
  Grid.mk id off fn lvl dims one3 zero3 one3 None [].

Definition index (gs : list Grid.t) (cs : option Z) : Index.t :=
  Index.mk gs (Z.of_nat (length gs)) (Grid.LeftEdge <$> gs) (Grid.RightEdge <$> gs)
           (Grid.Level <$> gs) (Grid.ActiveDimensions <$> gs) 1 []
           None [] false None cs zero3.

(** Three level-0 grids of 8x8x8 cells and two level-1 grids of 4x4x4
    cells, in two files, ids offset by one. *)
Definition five_grids : list Grid.t :=
  [ grid 5 1 "b.h5" 1 (4, 4, 4); grid 1 1 "b.h5" 0 (8, 8, 8);
    grid 3 1 "a.h5" 0 (8, 8, 8); grid 2 1 "b.h5" 0 (8, 8, 8);
    grid 4 1 "a.h5" 1 (4, 4, 4) ].

(** A selector that counts every cell of the grids its mask lets
    through, and records them. *)
Definition cells_of (dims : list Z3) (i : nat) : Z :=
  match dims !! i with Some (a, b, c) => a * b * c | None => 0 end.

Definition count_all (ix : Indexer.t) (_ : Predicate) : Z * (gmap Z Z * list Z) :=
  let dims := GridTree.dimensions (Indexer.tree ix) in
  let picked :=
    match Indexer.mask ix with
    | Some m => filter (λ i, m !! i = Some 1) (seq 0 (length dims))
    | None => seq 0 (length dims)
    end in
  (foldr Z.add 0 (cells_of dims <$> picked),
   (list_to_map ((λ i, (Z.of_nat i, cells_of dims i)) <$> picked),
    Z.of_nat <$> picked)).

Definition everywhere : Predicate := λ _, true.

(** Two grids of 2x2x2 cells of width 0.5 in a domain that starts at the
    origin, whose stored edges have drifted off the cell lattice. *)
Definition half3 : F3 := (0.5, 0.5, 0.5)%float.

Definition drifted_grids : list Grid.t :=
  [ Grid.mk 0 0 "a.h5" 0 (2, 2, 2) half3
      (0.125, 0, 0)%float (1.125, 1, 1)%float None [];
    Grid.mk 1 0 "a.h5" 0 (2, 2, 2) half3
      (1.125, 0, 0)%float (2.125, 1, 1)%float None [] ].

Definition drifted_index : Index.t := index drifted_grids None.

(** Start indices for them: grid [i] starts [2 * i] cells along x. *)
Definition start_index (g : Grid.t) : Z3 := (2 * Grid.id g, 0, 0).

(** The five grids grouped into file records of at most two grids, and a
    data object whose base chunk selects all of them. *)
Definition split (fields : list string) : list string * list string := (fields, []).

Definition files_index : Index.t :=
  final (_setup_filenames (index five_grids (Some 2))).

Definition no_tree : GridTree.t := GridTree.mk 0 [] [] [] [] [] [].

Definition selection : Indexer.t :=
  Indexer.mk no_tree None
    (list_to_map [(0, 64); (1, 512); (2, 512); (3, 512); (4, 64)]) [0; 1; 2; 3; 4].

Definition base_chunk (ix : Indexer.t) : DataChunk.t :=
  DataChunk.mk "all" (FileObj <$> Index.data_files files_index) 1664 false (Some ix).

Definition dobj : DataObj.t :=
  DataObj.mk everywhere 1664 (FileObj <$> Index.data_files files_index)
    (Some (base_chunk selection)).

(** The same data object with nothing selected. *)
Definition empty_selection : Indexer.t := Indexer.mk no_tree None ∅ [].

Definition empty_dobj : DataObj.t :=
  DataObj.mk everywhere 0 [] (Some (base_chunk empty_selection)).

(** A data object over the grids themselves. *)
Definition grid_dobj : DataObj.t :=
  DataObj.mk everywhere 1664 (GridObj <$> five_grids) None.

Definition cfg : Config.t := Config.mk 2 3.

(** Eight grids, four to a file, file records of at most four grids, and a
    data object whose base chunk selects all eight. *)
Definition eight_grids : list Grid.t :=
  [ grid 0 0 "a.h5" 0 (8, 8, 8); grid 1 0 "a.h5" 0 (8, 8, 8);
    grid 2 0 "a.h5" 0 (8, 8, 8); grid 3 0 "a.h5" 0 (8, 8, 8);
    grid 4 0 "b.h5" 0 (8, 8, 8); grid 5 0 "b.h5" 0 (8, 8, 8);
    grid 6 0 "b.h5" 0 (8, 8, 8); grid 7 0 "b.h5" 0 (8, 8, 8) ].

Definition wide_index : Index.t :=
  final (_setup_filenames (index eight_grids (Some 4))).

Definition wide_selection : Indexer.t :=
  Indexer.mk no_tree None
    (list_to_map ((λ i, (i, 512)) <$> [0; 1; 2; 3; 4; 5; 6; 7])) [0; 1; 2; 3; 4; 5; 6; 7].

Definition wide_dobj : DataObj.t :=
  DataObj.mk everywhere 4096 (FileObj <$> Index.data_files wide_index)
    (Some (DataChunk.mk "all" (FileObj <$> Index.data_files wide_index) 4096 false
             (Some wide_selection))).
End Examples.


(* ===================================================================== *)
(** ** Vocabulary of the statements *)
(* ===================================================================== *)

(** The four sizing modes [_chunk_io] knows. *)
Definition sizing_modes : list string := ["auto"; "config_file"; "just_one"; "old"].

(** The cell counts a run yielded, summed. *)
Definition yielded_cells {A} (r : run Index.t DataChunk.t A) : Z :=
  foldr Z.add 0 (DataChunk.data_size <$> yields r).

(** The edges one pass of the loop gives a grid. *)
Definition relock (get_global_startindex : Grid.t → Z3) (dle : F3) (g : Grid.t) : Grid.t :=
  let LeftEdge := f3_add dle (f3_mul_int (Grid.dds g) (get_global_startindex g)) in
  Grid.set_edges g LeftEdge
    (f3_add LeftEdge (int_mul_f3 (Grid.ActiveDimensions g) (Grid.dds g))).

(** The index once the first [k] grids are relocked. *)
Definition locked_upto (get_global_startindex : Grid.t → Z3) (k : nat) (s : Index.t) : Index.t :=
  let new := relock get_global_startindex (Index.ds_domain_left_edge s) <$> Index.grids s in
  Index.mk (take k new ++ drop k (Index.grids s)) (Index.num_grids s)
    (take k (Grid.LeftEdge <$> new) ++ drop k (Index.grid_left_edge s))
    (take k (Grid.RightEdge <$> new) ++ drop k (Index.grid_right_edge s))
    (Index.grid_levels s) (Index.grid_dimensions s) (Index.max_level s)
    (Index.level_stats s) (Index._grid_tree s) (Index.data_files s)
    (Index._preload_implemented s) (Index._grid_chunksize s)
    (Index.ds_grid_chunk_size s) (Index.ds_domain_left_edge s).

Definition locked (get_global_startindex : Grid.t → Z3) (s : Index.t) : Index.t :=
  locked_upto get_global_startindex (length (Index.grids s)) s.

(** The rows every grid needs are there. *)
Definition edge_rows_ok (s : Index.t) : Prop :=
  (length (Index.grids s) ≤ length (Index.grid_left_edge s))%nat ∧
  (length (Index.grids s) ≤ length (Index.grid_right_edge s))%nat.

(** The cells of a grid of the given dimensions. *)
Definition cells (d : Z3) : Z := d.1.1 * d.1.2 * d.2.

(** The dimensions of the grids at one level, the number of those grids and
    the number of their cells. *)
Definition dims_at_level (s : Index.t) (lvl : Z) : list Z3 :=
  omap (λ p : Z3 * Z, if decide (p.2 = lvl) then Some p.1 else None)
       (zip (Index.grid_dimensions s) (Index.grid_levels s)).

Definition level_grids (s : Index.t) (lvl : Z) : Z :=
  Z.of_nat (length (filter (λ l, l = lvl) (Index.grid_levels s))).

Definition level_cells (s : Index.t) (lvl : Z) : Z :=
  foldr Z.add 0 (cells <$> dims_at_level s lvl).

(** The record array once the levels below [k] are counted. *)
Definition stats_row (s : Index.t) (k i : Z) : LevelStat.t :=
  if decide (i < k)
  then LevelStat.mk (level_grids s i) (Py.wrap_int64 (level_cells s i)) i
  else LevelStat.mk 0 0 i.

Definition stats_upto (MAXLEVEL : Z) (s : Index.t) (k : Z) : list LevelStat.t :=
  stats_row s k <$> seqZ 0 MAXLEVEL.

Definition counted_upto (MAXLEVEL : Z) (k : Z) (s : Index.t) : Index.t :=
  Index.set_level_stats (stats_upto MAXLEVEL s k) s.

(** The runs for a positive size, by position. *)
Definition run_at {A} (l : list A) (sz k : nat) : list A := take sz (drop (k * sz) l).

(** The number of grids a mask lets through. *)
Definition mask_count (m : list Z) : nat := length (filter (λ v, v = 1) m).

(** A computation that yields nothing and leaves the state alone. *)
Definition quiet {St Y A} (m : M St Y A) (s : St) : Prop :=
  yields (m s) = [] ∧ final (m s) = s.

(** The yields of a run follow a plan: they are related, one to one and in
    order, to a first part of the plan, and to all of it when the run
    returns. *)
Definition follows {St Y A B} (R : B → Y → Prop) (plan : list B) (r : run St Y A) : Prop :=
  ∃ done_, done_ `prefix_of` plan ∧ Forall2 R done_ (yields r) ∧
           ((∃ a, outcome r = inr a) → done_ = plan).

(** Chunking touches the index in one place only: a tree access may
    memoize the tree. *)
Definition tree_frame (s s' : Index.t) : Prop := ∃ t, s' = Index.set_grid_tree t s.

(** The batches [_chunk_io] plans for its files: each file's grid ids cut
    into runs of the batch size. *)
Definition planned_file (size : Z) (f : ChunkObj) : list (ChunkObj * list Z) :=
  match obj_grid_id_values f with
  | inr gs => match runs gs size with
              | inr batches => (λ b, (f, b)) <$> batches
              | inl _ => []
              end
  | inl _ => []
  end.

Definition planned (fobjs : list ChunkObj) (size : Z) : list (ChunkObj * list Z) :=
  fobjs ≫= planned_file size.

(** The mask of the indexer a chunk carries. *)
Definition chunk_mask (dc : DataChunk.t) : option (list Z) :=
  DataChunk._indexer dc ≫= Indexer.mask.

(** The io chunk of one batch of one file, over [n] grids. *)
Definition io_chunk (n : nat) (fb : ChunkObj * list Z) (dc : DataChunk.t) : Prop :=
  DataChunk.chunk_type dc = "io" ∧ DataChunk.objs dc = [fb.1] ∧
  ∃ m, batch_mask n fb.2 = inr m ∧ chunk_mask dc = Some m.

(** What [_chunk_io] did before its loop, when it got that far. *)
Definition io_setup (ytcfg : Config.t) (dobj : DataObj.t) (chunk_sizing : string) (s : Index.t) (sz : Z) : Prop :=
  ∃ c ix gobjs,
    DataObj._current_chunk dobj = Some c ∧ DataChunk._indexer c = Some ix ∧
    np_take (Index.grids s) (map_to_list (Indexer.cell_count_by_grid ix)).*1 = inr gobjs ∧
    io_chunk_size ytcfg s chunk_sizing (Z.of_nat (size (Indexer.cell_count_by_grid ix)))
    = inr sz.

(** The batch size of the ["auto"] mode as C1 words it, from the number of
    grids in the backing file. *)
Definition auto_size_per_file (G nproc : Z) (f : DataFile.t) : Z :=
  Z.max (G `div` ceil_div (G * nproc) (Z.of_nat (length (DataFile.grid_id_values f)))) 1.

(** The file-local ids of the grids that declare a filename, in the order
    of the grid array. *)
Definition ids_in_file (grids : list Grid.t) (fn : string) : list Z :=
  file_local_id <$> filter (λ g, Grid.filename g = fn) grids.

(** The data files of a list of (filename, run) pairs, numbered from [fi]. *)
Fixpoint number_files (fi : Z) (l : list (string * list Z)) : list DataFile.t :=
  match l with
  | [] => []
  | (fn, r) :: l' => DataFile.mk fn fi r :: number_files (fi + 1) l'
  end.

(** The (filename, run) pairs of one item. *)
Definition file_runs (G : Z) (item : string * list Z) : list (string * list Z) :=
  match runs item.2 G with
  | inr rs => (λ r, (item.1, r)) <$> rs
  | inl _ => []
  end.

(** The sorted items of the dictionary of buckets. *)
Definition sorted_items (grids : list Grid.t) : list (string * list Z) :=
  merge_sort item_le (map_to_list (Py.sorted_Z <$> foldl add_grid ∅ grids)).

(** The grids whose entry of [grid_levels] is [lvl], in array order. *)
Definition grids_at_level (s : Index.t) (lvl : Z) : list Grid.t :=
  omap (λ p : Grid.t * Z, if decide (p.2 = lvl) then Some p.1 else None)
       (zip (Index.grids s) (Index.grid_levels s)).

(** Every entry of [grid_levels] is a level from 0 to [max_level]. *)
Definition levels_in_range (s : Index.t) : Prop :=
  Forall (λ l, 0 ≤ l ≤ Index.max_level s) (Index.grid_levels s).

(** The sum of a list of integers. *)
Definition total (l : list Z) : Z := foldr Z.add 0 l.

(** [parent_ind[i]] for a grid: the parent's file-local id, -1 for a root
    grid. *)
Definition parent_index (grids : list Grid.t) (g : Grid.t) : Z :=
  match Grid.Parent g with
  | None => -1
  | Some j => from_option file_local_id (-1) (grids !! j)
  end.

(** Every parent reference points into the grid array. *)
Definition parents_ok (grids : list Grid.t) : Prop :=
  ∀ i g j, grids !! i = Some g → Grid.Parent g = Some j → (j < length grids)%nat.

(** An array of [n] blank rows with the first [k] written from [new]. *)
Definition written {A} (n : Z) (blank : A) (k : nat) (new : list A) : list A :=
  take k new ++ drop k (replicate (Z.to_nat n) blank).

(** The arrays of the tree once the first [k] grids are copied in. *)
Definition tree_upto (s : Index.t) (k : nat) : GridTree.t :=
  let gs := Index.grids s in
  let n := Index.num_grids s in
  GridTree.mk n
    (written n ((0, 0, 0)%float : F3) k (Grid.LeftEdge <$> gs))
    (written n ((0, 0, 0)%float : F3) k (Grid.RightEdge <$> gs))
    (written n ((0, 0, 0) : Z3) k (Grid.ActiveDimensions <$> gs))
    (written n 0 k (parent_index gs <$> gs))
    (written n 0 k (Grid.Level <$> gs))
    (written n 0 k ((λ g, Z.of_nat (length (Grid.Children g))) <$> gs)).

(** [rows] in an array of [n] rows, the rest blank. *)
Definition padded {A} (n : Z) (blank : A) (rows : list A) : list A :=
  rows ++ replicate (Z.to_nat n - length rows) blank.

(** The tree [_get_grid_tree] builds: one row per grid, from the grid
    objects. *)
Definition built_tree (s : Index.t) : GridTree.t :=
  let gs := Index.grids s in
  let n := Index.num_grids s in
  GridTree.mk n
    (padded n ((0, 0, 0)%float : F3) (Grid.LeftEdge <$> gs))
    (padded n ((0, 0, 0)%float : F3) (Grid.RightEdge <$> gs))
    (padded n ((0, 0, 0) : Z3) (Grid.ActiveDimensions <$> gs))
    (padded n 0 (parent_index gs <$> gs))
    (padded n 0 (Grid.Level <$> gs))
    (padded n 0 ((λ g, Z.of_nat (length (Grid.Children g))) <$> gs)).

(** The body of the loop of [_get_grid_tree], by name: the pass that copies
    grid [i] into the arrays [a]. *)
Definition tree_pass (self : Index.t) (a : GridTree.t) (i : Z) : Meth GridTree.t :=
  grid <- lift (np_get (Index.grids self) i) ;;
  left_edge <- lift (np_set (GridTree.left_edge a) i (Grid.LeftEdge grid)) ;;
  right_edge <- lift (np_set (GridTree.right_edge a) i (Grid.RightEdge grid)) ;;
  level <- lift (np_set (GridTree.level a) i (Grid.Level grid)) ;;
  p <- match Grid.Parent grid with
       | None => ret (-1)
       | Some j =>
           match Index.grids self !! j with
           | Some parent => ret (file_local_id parent)
           | None => raise IndexError
           end
       end ;;
  parent_ind <- lift (np_set (GridTree.parent_ind a) i p) ;;
  num_children <- lift (np_set (GridTree.num_children a) i
                          (Z.of_nat (length (Grid.Children grid)))) ;;
  dimensions <- lift (np_set (GridTree.dimensions a) i (Grid.ActiveDimensions grid)) ;;
  ret (GridTree.mk (Index.num_grids self) left_edge right_edge dimensions
         parent_ind level num_children).

(** A root grid with one child, and an index over the two. *)
Definition nested_grids : list Grid.t :=
  [ Grid.mk 1 1 "a.h5" 0 (8, 8, 8) (0.125, 0.125, 0.125)%float
      (0, 0, 0)%float (1, 1, 1)%float None [1%nat];
    Grid.mk 2 1 "a.h5" 1 (4, 4, 4) (0.0625, 0.0625, 0.0625)%float
      (0.25, 0.25, 0.25)%float (0.5, 0.5, 0.5)%float (Some 0%nat) [] ].


(** What a tree access may do to the index: nothing, or memoize a tree
    where there was none. *)
Definition memo_step (s s' : Index.t) : Prop :=
  s' = s ∨ (Index._grid_tree s = None ∧ ∃ t, s' = Index.set_grid_tree (Some t) s).

(** An io chunk as [_chunk_io] makes it, seen from the index [s] the call
    leaves: its size is the count of the data object's selector by a fresh
    indexer over the memoized tree, restricted by a mask, and the chunk
    carries that indexer as the count left it. *)
Definition io_chunk_counted (indexer_count : Indexer.t → Predicate → Z * (gmap Z Z * list Z))
    (dobj : DataObj.t) (cache : bool) (s : Index.t) (dc : DataChunk.t) : Prop :=
  DataChunk.chunk_type dc = "io" ∧ DataChunk.cache dc = cache ∧
  ∃ tree m,
    Index._grid_tree s = Some tree ∧
    length m = length (Index.grids s) ∧
    let r := indexer_count (Indexer.mk tree (Some m) ∅ []) (DataObj.selector dobj) in
    DataChunk.data_size dc = r.1 ∧
    DataChunk._indexer dc = Some (Indexer.mk tree (Some m) r.2.1 r.2.2).

(** A file object whose grid ids all index an array of [n] grids. *)
Definition file_in_range (n : nat) (f : ChunkObj) : Prop :=
  ∃ df, f = FileObj df ∧
        Forall (λ g, - Z.of_nat n ≤ g < Z.of_nat n) (DataFile.grid_id_values df).

(** The index of the five grids in their file records, with its grid tree
    memoized, and a configuration whose [chunk_size] is zero. *)
Definition treed_index : Index.t := final (_get_grid_tree Examples.files_index).

Definition treed_tree : GridTree.t :=
  default Examples.no_tree (Index._grid_tree treed_index).

Definition zero_cfg : Config.t := Config.mk 2 0.

(** The values of [sort] that [_chunk_spatial] knows, besides [None]. *)
Definition level_sorts : list string := ["+level"; "level"; "-level"].

(** Where [auto_size] is the code's computation: integers that [of_int]
    converts as Python does, and a quotient whose ceiling [int64] holds,
    so that the cast is defined. *)
Definition auto_size_defined (G nproc chunk_ngrids : Z) : Prop :=
  Z.abs G < 2 ^ 63 ∧ Z.abs nproc < 2 ^ 63 ∧ 0 < chunk_ngrids < 2 ^ 63 ∧
  ∃ c, np_ceil (of_int G * of_int nproc / of_int chunk_ngrids)%float = Some c ∧
       - 2 ^ 63 ≤ c < 2 ^ 63.

(** The planned batches can be counted and looked up: the fresh indexer of
    each batch's mask orders at least one grid, and every grid it orders
    is in the array of [n] grids. *)
Definition orders_ok (indexer_count : Indexer.t → Predicate → Z * (gmap Z Z * list Z))
    (dobj : DataObj.t) (n : nat) (tree : GridTree.t)
    (plan : list (ChunkObj * list Z)) : Prop :=
  ∀ fb m, fb ∈ plan → batch_mask n fb.2 = inr m →
    let order := (indexer_count (Indexer.mk tree (Some m) ∅ []) (DataObj.selector dobj)).2.2 in
    order ≠ [] ∧ Forall (λ i, - Z.of_nat n ≤ i < Z.of_nat n) order.

(** In mode ["auto"] with a selection that holds a grid, the sizing is one
    [auto_size] is the code's computation on. *)
Definition sizing_defined (ytcfg : Config.t) (dobj : DataObj.t) (chunk_sizing : string)
    (s : Index.t) : Prop :=
  chunk_sizing = "auto" →
  ∀ c ix, DataObj._current_chunk dobj = Some c → DataChunk._indexer c = Some ix →
          (0 < size (Indexer.cell_count_by_grid ix))%nat →
          auto_size_defined (GRID_CHUNKSIZE s) (Config.__global_parallel_size ytcfg)
            (Z.of_nat (size (Indexer.cell_count_by_grid ix))).

(** The tree of the eight grids. *)
Definition wide_tree : GridTree.t :=
  default Examples.no_tree (Index._grid_tree (final (_get_grid_tree Examples.wide_index))).

(* ===================================================================== *)
(** ** Laws of the monad *)
(* ===================================================================== *)

Section MonadLaws.
Context {St Y : Type}.
Implicit Types s : St.

Lemma run_eta {A} (r : run St Y A) : Run (yields r) (outcome r) (final r) = r.
Proof. by destruct r. Qed.

Lemma bind_ret {A B} (a : A) (k : A → M St Y B) s : bind (ret a) k s = k a s.
Proof. unfold bind; simpl. apply run_eta. Qed.

Lemma bind_raise {A B} e (k : A → M St Y B) s :
  bind (raise e) k s = Run [] (inl e) s.
Proof. reflexivity. Qed.

Lemma bind_get {B} (k : St → M St Y B) s : bind get k s = k s s.
Proof. unfold bind; simpl. apply run_eta. Qed.

Lemma bind_modify {B} f (k : unit → M St Y B) s : bind (modify f) k s = k tt (f s).
Proof. unfold bind; simpl. apply run_eta. Qed.

Lemma bind_lift_inr {A B} (a : A) (k : A → M St Y B) s :
  bind (lift (inr a)) k s = k a s.
Proof. apply bind_ret. Qed.

Lemma bind_lift_inl {A B} e (k : A → M St Y B) s :
  bind (lift (inl e)) k s = Run [] (inl e) s.
Proof. reflexivity. Qed.

Lemma bind_assoc {A B C} (m : M St Y A) (k : A → M St Y B) (h : B → M St Y C) s :
  bind (bind m k) h s = bind m (λ a, bind (k a) h) s.
Proof.
  unfold bind; simpl. destruct (outcome (m s)); simpl; [done|].
  destruct (outcome (k a (final (m s)))); simpl; [done|].
  by rewrite app_assoc.
Qed.
End MonadLaws.

Ltac raised := split; [done | split; [done | split; [by eexists |]]].

(* ===================================================================== *)
(** ** Chunk sizing: unknown modes and the empty selection *)
(* ===================================================================== *)

Section Sizing.
Variable indexer_count : Indexer.t → Predicate → Z * (gmap Z Z * list Z).
Variable _split_fields : list string → list string * list string.
Variable ytcfg : Config.t.

(** C6: with a [chunk_sizing] that is none of the four modes, [_chunk_io]
    ends in an exception before it yields any chunk and leaves the index
    as it was; where the selection's indexer can be read (the current
    chunk has one, and its grid ids index the grid array) the exception is
    the [RuntimeError] that names the bad value. *)
Theorem chunk_io_invalid_sizing dobj cache local_only preload_fields chunk_sizing s :
  chunk_sizing ∉ sizing_modes →
  let r := _chunk_io indexer_count _split_fields ytcfg dobj cache local_only preload_fields chunk_sizing s in
  yields r = [] ∧ final r = s ∧ (∃ e, outcome r = inl e) ∧
  ∀ c ix,
    DataObj._current_chunk dobj = Some c →
    DataChunk._indexer c = Some ix →
    (∃ gobjs, np_take (Index.grids s) (map_to_list (Indexer.cell_count_by_grid ix)).*1
              = inr gobjs) →
    outcome r =
      inl (RuntimeError
             (chunk_sizing ++ " is an invalid value for the 'chunk_sizing' argument.")).
Proof.
  intros Hmode. unfold sizing_modes in Hmode.
  assert (chunk_sizing ≠ "auto" ∧ chunk_sizing ≠ "config_file" ∧
          chunk_sizing ≠ "just_one" ∧ chunk_sizing ≠ "old") as (H1 & H2 & H3 & H4).
  { repeat split; intros ->; apply Hmode; set_solver. }
  unfold _chunk_io. simpl.
  destruct (DataObj._current_chunk dobj) as [c|] eqn:Hc; cycle 1.
  { rewrite bind_raise. simpl. raised. intros; simplify_eq. }
  destruct (DataChunk._indexer c) as [ix|] eqn:Hix; cycle 1.
  { rewrite bind_raise. simpl. raised. intros; simplify_eq. }
  rewrite bind_ret, bind_get.
  destruct (np_take (Index.grids s) _) as [e|gobjs] eqn:Hg.
  { rewrite bind_lift_inl. simpl. raised.
    intros c' ix' ? ? [? Hr]. simplify_eq. congruence. }
  rewrite bind_lift_inr. unfold io_chunk_size.
  rewrite (bool_decide_eq_false_2 _ H1), (bool_decide_eq_false_2 _ H2),
    (bool_decide_eq_false_2 _ H3), (bool_decide_eq_false_2 _ H4).
  rewrite bind_lift_inl. simpl. by raised.
Qed.

(** C10: in mode ["auto"] with no grid in the selection, the size is read
    from [self._grid_chunksize]; where that attribute is defined nowhere
    the call raises an [AttributeError] before it yields any chunk, and
    no batch of size one is formed. *)
Theorem chunk_io_auto_empty_selection dobj cache local_only preload_fields c ix s :
  DataObj._current_chunk dobj = Some c →
  DataChunk._indexer c = Some ix →
  Indexer.cell_count_by_grid ix = ∅ →
  Index._grid_chunksize s = None →
  _chunk_io indexer_count _split_fields ytcfg dobj cache local_only preload_fields "auto" s
  = Run [] (inl (AttributeError "_grid_chunksize")) s.
Proof.
  intros Hc Hix Hempty Hattr. unfold _chunk_io. simpl.
  rewrite Hc, Hix. rewrite bind_ret, bind_get.
  rewrite Hempty, map_to_list_empty. simpl. rewrite bind_ret.
  unfold io_chunk_size. simpl. by rewrite Hattr.
Qed.
End Sizing.

(* ===================================================================== *)
(** ** Point location: the length check *)
(* ===================================================================== *)

Section PointLocation.
Variable find_points_in_tree :
  GridTree.t → Z → list float → list float → list float → list Z.

(** C7: when the three coordinate sequences are not all of one length,
    [_find_points] raises its [AssertionError] at once: whatever the tree
    search would compute, nothing is returned, and the index is left as it
    was (no grid tree is built or read). *)
Theorem find_points_length_mismatch (x y z : list float) s :
  ¬ (length x = length y ∧ length y = length z) →
  _find_points find_points_in_tree x y z s
  = Run [] (inl (AssertionError "Arrays of indices must be of the same size")) s.
Proof.
  intros Hlen. unfold _find_points.
  destruct (bool_decide (length x = length y)) eqn:Hxy;
    destruct (bool_decide (length y = length z)) eqn:Hyz; simpl; try done.
  apply bool_decide_eq_true in Hxy, Hyz. by destruct Hlen.
Qed.
End PointLocation.

(* ===================================================================== *)
(** ** The "all" and "spatial" strategies *)
(* ===================================================================== *)

Section AllAndSpatial.
Variable indexer_count : Indexer.t → Predicate → Z * (gmap Z Z * list Z).
Variable _split_fields : list string → list string * list string.
Variable retrieve_ghost_zones : Grid.t → Z → Grid.t.

Lemma chunk_all_run dobj cache indexer s :
  ∃ ix, _chunk_all dobj cache indexer s
        = Run [DataChunk.mk "all" (chunk_objs dobj) (DataObj.size dobj) cache ix]
              (inr tt) s.
Proof. unfold _chunk_all, yield. eauto. Qed.

(** C2, as the code has it: the "all" strategy yields one chunk with the
    selection's cell count, while the "spatial" strategy, given at least
    one object to iterate over, asks [_count_selection] for a count
    without an indexer and so ends in [NotImplementedError] before it
    yields a chunk. *)
Theorem chunk_spatial_not_implemented dobj og rest ngz preload_fields cache indexer s :
  chunk_objs dobj = og :: rest →
  (ngz ≤ 0 ∨ ∃ g, og = GridObj g) →
  yielded_cells (_chunk_all dobj cache indexer s) = DataObj.size dobj ∧
  _chunk_spatial indexer_count _split_fields retrieve_ghost_zones
    dobj ngz None preload_fields s
  = Run [] (inl NotImplementedError) s.
Proof.
  intros Hobjs Hngz. split.
  { destruct (chunk_all_run dobj cache indexer s) as [ix ->].
    unfold yielded_cells. simpl. lia. }
  unfold _chunk_spatial. rewrite Hobjs.
  rewrite bind_ret, bind_get.
  destruct (_ && _); rewrite bind_ret; simpl.
  all: destruct Hngz as [Hngz | [g ->]].
  all: try rewrite (bool_decide_eq_false_2 (0 < ngz)) by lia.
  all: try destruct (bool_decide (0 < ngz)).
  all: reflexivity.
Qed.
End AllAndSpatial.

(* ===================================================================== *)
(** ** NumPy indexing with in-range positions *)
(* ===================================================================== *)

Lemma np_index_nat (n k : nat) : (k < n)%nat → Py.np_index n (Z.of_nat k) = inr k.
Proof.
  intros Hk. unfold Py.np_index.
  rewrite decide_True by lia. by rewrite Nat2Z.id.
Qed.

Lemma np_get_nat {A} (l : list A) (k : nat) (a : A) :
  l !! k = Some a → np_get l (Z.of_nat k) = inr a.
Proof.
  intros Hk. unfold np_get.
  rewrite np_index_nat by (by eapply lookup_lt_Some). by rewrite Hk.
Qed.

Lemma np_set_nat {A} (l : list A) (k : nat) (v : A) :
  (k < length l)%nat → np_set l (Z.of_nat k) v = inr (<[k := v]> l).
Proof. intros Hk. unfold np_set. by rewrite np_index_nat. Qed.

Lemma seqZ_nat_cons (k m : nat) :
  seqZ (Z.of_nat k) (Z.of_nat (S m)) = Z.of_nat k :: seqZ (Z.of_nat (S k)) (Z.of_nat m).
Proof.
  rewrite seqZ_cons by lia. f_equal. f_equal; lia.
Qed.

(** Writing position [k] of an array whose first [k] rows are already the
    new ones. *)
Lemma insert_take_drop_step {A} (old new : list A) (k : nat) (y : A) :
  (k < length old)%nat → new !! k = Some y →
  <[k := y]> (take k new ++ drop k old) = take (S k) new ++ drop (S k) old.
Proof.
  intros Hk Hy.
  assert (length (take k new) = k) as Hlen.
  { rewrite length_take. apply lookup_lt_Some in Hy. lia. }
  destruct (lookup_lt_is_Some_2 old k Hk) as [z Hz].
  rewrite (drop_S old z k Hz).
  rewrite (take_S_r new k y Hy).
  replace k with (length (take k new) + 0)%nat at 1 by lia.
  rewrite insert_app_r. simpl. by rewrite <- app_assoc.
Qed.

(* ===================================================================== *)
(** ** Edge locking and the memoized tree *)
(* ===================================================================== *)

Section Locking.
Variable get_global_startindex : Grid.t → Z3.

Lemma locked_upto_0 s : locked_upto get_global_startindex 0 s = s.
Proof. unfold locked_upto. simpl. rewrite !drop_0. by destruct s. Qed.

Lemma lock_grid_step s (k : nat) :
  edge_rows_ok s →
  (k < length (Index.grids s))%nat →
  lock_grid get_global_startindex (Z.of_nat k) (locked_upto get_global_startindex k s)
  = Run [] (inr tt) (locked_upto get_global_startindex (S k) s).
Proof.
  intros [Hle Hre] Hk.
  destruct (lookup_lt_is_Some_2 (Index.grids s) k Hk) as [g Hg].
  set (new := relock get_global_startindex (Index.ds_domain_left_edge s) <$> Index.grids s).
  assert (new !! k = Some (relock get_global_startindex (Index.ds_domain_left_edge s) g)) as Hnew.
  { unfold new. by rewrite list_lookup_fmap, Hg. }
  assert (length new = length (Index.grids s)) as Hlen by apply length_fmap.
  assert (length (take k new) = k) as Htk by (rewrite length_take; lia).
  unfold lock_grid. rewrite bind_get.
  rewrite (np_get_nat _ k g); cycle 1.
  { simpl. fold new. rewrite lookup_app_r by lia.
    rewrite Htk, Nat.sub_diag, lookup_drop. by rewrite Nat.add_0_r. }
  rewrite bind_lift_inr.
  rewrite np_set_nat; cycle 1.
  { simpl. fold new. rewrite length_app, length_take, length_drop. lia. }
  rewrite bind_lift_inr, bind_modify.
  rewrite np_set_nat; cycle 1.
  { simpl. rewrite length_app, length_take, length_drop, !length_fmap. lia. }
  rewrite bind_lift_inr, bind_modify.
  rewrite np_set_nat; cycle 1.
  { simpl. rewrite length_app, length_take, length_drop, !length_fmap. lia. }
  rewrite bind_lift_inr. unfold modify. simpl.
  unfold Index.set_grid_right_edge, Index.set_grid_left_edge, Index.set_grids,
    locked_upto. simpl. fold new. f_equal. f_equal.
  - by apply insert_take_drop_step.
  - apply insert_take_drop_step; [lia|]. by rewrite list_lookup_fmap, Hnew.
  - apply insert_take_drop_step; [lia|]. by rewrite list_lookup_fmap, Hnew.
Qed.

Lemma lock_loop s (m k : nat) :
  edge_rows_ok s →
  (k + m = length (Index.grids s))%nat →
  for_each (seqZ (Z.of_nat k) (Z.of_nat m)) (lock_grid get_global_startindex)
    (locked_upto get_global_startindex k s)
  = Run [] (inr tt) (locked get_global_startindex s).
Proof.
  intros Hok. revert k. induction m as [|m IH]; intros k Hk.
  { simpl. unfold locked. by replace k with (length (Index.grids s)) by lia. }
  rewrite seqZ_nat_cons. simpl. unfold bind.
  rewrite lock_grid_step by (done || lia). simpl.
  rewrite (IH (S k)) by lia. done.
Qed.

(** With a row for every grid, [lock_grids_to_parents] returns and leaves
    every grid, and its rows of the two edge arrays, relocked. *)
Lemma lock_grids_to_parents_run s :
  edge_rows_ok s →
  lock_grids_to_parents get_global_startindex s = Run [] (inr tt) (locked get_global_startindex s).
Proof.
  intros Hok. unfold lock_grids_to_parents. rewrite bind_get.
  rewrite <- (locked_upto_0 s) at 2.
  by apply (lock_loop s (length (Index.grids s)) 0).
Qed.
End Locking.

Section Relocking.
Variable get_global_startindex : Grid.t → Z3.

Lemma locked_grids s :
  Index.grids (locked get_global_startindex s)
  = relock get_global_startindex (Index.ds_domain_left_edge s) <$> Index.grids s.
Proof.
  unfold locked, locked_upto. simpl.
  rewrite drop_all, app_nil_r. apply take_ge. by rewrite length_fmap.
Qed.




Lemma get_grid_tree_memoized s tree :
  Index._grid_tree s = Some tree →
  _get_grid_tree s = Run [] (inr tree) s.
Proof. intros Ht. unfold _get_grid_tree. rewrite bind_get. by rewrite Ht. Qed.

(** C4, as the code has it: [lock_grids_to_parents] writes the locked edges
    into the grids and into their rows of the two edge arrays, and leaves
    the memoized grid tree in place, so the next tree access returns that
    same tree, built before the edges were locked. *)
Theorem lock_keeps_memoized_tree s tree :
  Index._grid_tree s = Some tree →
  edge_rows_ok s →
  let r := lock_grids_to_parents get_global_startindex s in
  let new := relock get_global_startindex (Index.ds_domain_left_edge s) <$> Index.grids s in
  outcome r = inr tt ∧
  Index.grids (final r) = new ∧
  take (length new) (Index.grid_left_edge (final r)) = Grid.LeftEdge <$> new ∧
  take (length new) (Index.grid_right_edge (final r)) = Grid.RightEdge <$> new ∧
  _get_grid_tree (final r) = Run [] (inr tree) (final r).
Proof.
  intros Ht Hok. cbv zeta.
  rewrite (lock_grids_to_parents_run _ s Hok). cbn [final outcome].
  split; [done|]. split; [apply locked_grids|].
  rewrite !length_fmap.
  split; [|split].
  - unfold locked, locked_upto; simpl.
    rewrite take_app_length' by (rewrite length_take, !length_fmap; lia).
    apply take_ge. by rewrite !length_fmap.
  - unfold locked, locked_upto; simpl.
    rewrite take_app_length' by (rewrite length_take, !length_fmap; lia).
    apply take_ge. by rewrite !length_fmap.
  - apply get_grid_tree_memoized. done.
Qed.
End Relocking.



(** C4 as stated does not hold: on the drifted grids, with their tree
    built, locking moves the left edges onto the cell lattice, and the next
    tree access still returns the tree that holds the drifted ones. *)
Lemma relock_returns_stale_tree :
  let s1 := final (_get_grid_tree Examples.drifted_index) in
  let r := lock_grids_to_parents Examples.start_index s1 in
  let s2 := final r in
  outcome r = inr tt ∧
  Index.grid_left_edge s2 = [(0, 0, 0); (1, 0, 0)]%float ∧
  (GridTree.left_edge <$> Index._grid_tree s1) = Some ([(0.125, 0, 0); (1.125, 0, 0)]%float) ∧
  outcome (_get_grid_tree s2) = outcome (_get_grid_tree s1) ∧
  ∃ tree, outcome (_get_grid_tree s2) = inr tree ∧
          GridTree.left_edge tree = [(0.125, 0, 0); (1.125, 0, 0)]%float ∧
          GridTree.left_edge tree ≠ Index.grid_left_edge s2.
Proof.
  cbv zeta. split_and!; try (vm_compute; reflexivity).
  eexists. split; [vm_compute; reflexivity|]. split; [reflexivity|].
  intros H. apply (f_equal (λ l, match l with
                                 | (a, _, _) :: _ => PrimFloat.eqb a 0
                                 | [] => false
                                 end)) in H.
  vm_compute in H. discriminate.
Qed.

(* ===================================================================== *)
(** ** Level statistics *)
(* ===================================================================== *)

Lemma range_step1 (n : Z) : Py.range 0 n 1 = inr (seqZ 0 n).
Proof.
  unfold Py.range. rewrite decide_False by lia. rewrite decide_True by lia.
  f_equal. replace ((n - 0 + 1 - 1) `div` 1) with n by (rewrite Z.div_1_r; lia).
  rewrite <- (list_fmap_id (seqZ 0 n)) at 2.
  apply list_fmap_ext. intros; simpl; lia.
Qed.

Section Wrap.
Lemma wrap_mod z : Py.wrap_int64 z `mod` 2 ^ 64 = z `mod` 2 ^ 64.
Proof.
  unfold Py.wrap_int64. rewrite Zminus_mod_idemp_l. f_equal. lia.
Qed.

Lemma wrap_congr a b : a `mod` 2 ^ 64 = b `mod` 2 ^ 64 → Py.wrap_int64 a = Py.wrap_int64 b.
Proof.
  intros H. unfold Py.wrap_int64.
  rewrite <- (Zplus_mod_idemp_l a), <- (Zplus_mod_idemp_l b), H. done.
Qed.

Lemma wrap_in_range z : - 2 ^ 63 ≤ z < 2 ^ 63 → Py.wrap_int64 z = z.
Proof. intros H. unfold Py.wrap_int64. rewrite Z.mod_small; lia. Qed.

Lemma wrap_mul_l a b : Py.wrap_int64 (Py.wrap_int64 a * b) = Py.wrap_int64 (a * b).
Proof.
  apply wrap_congr. rewrite <- Zmult_mod_idemp_l, wrap_mod.
  by rewrite Zmult_mod_idemp_l.
Qed.

Lemma wrap_add_l a b : Py.wrap_int64 (Py.wrap_int64 a + b) = Py.wrap_int64 (a + b).
Proof.
  apply wrap_congr. rewrite <- Zplus_mod_idemp_l, wrap_mod.
  by rewrite Zplus_mod_idemp_l.
Qed.

Lemma wrap_add_r a b : Py.wrap_int64 (a + Py.wrap_int64 b) = Py.wrap_int64 (a + b).
Proof. rewrite Z.add_comm, wrap_add_l. f_equal. lia. Qed.
End Wrap.

Global Arguments Py.wrap_int64 : simpl never.

Lemma prod_axis1_cells d : prod_axis1 d = Py.wrap_int64 (cells d).
Proof.
  destruct d as [[a b] c]. unfold prod_axis1, cells. cbn [fst snd].
  rewrite wrap_mul_l, <- Z.mul_assoc, wrap_mul_l. f_equal. lia.
Qed.

Lemma np_sum_wrapped (l : list Z) :
  np_sum (Py.wrap_int64 <$> l) = Py.wrap_int64 (foldr Z.add 0 l).
Proof.
  unfold np_sum.
  assert (∀ a, foldl (λ acc v, Py.wrap_int64 (acc + v)) (Py.wrap_int64 a) (Py.wrap_int64 <$> l)
               = Py.wrap_int64 (a + foldr Z.add 0 l)) as H.
  { induction l as [|x l IH]; intros a; simpl.
    - f_equal. lia.
    - rewrite wrap_add_l, wrap_add_r, IH. f_equal. lia. }
  specialize (H 0). by rewrite wrap_in_range in H by lia.
Qed.

Lemma bool_index_level (dims : list Z3) (levels : list Z) (lvl : Z) :
  fst <$> filter (λ p : Z3 * bool, p.2 = true)
            (zip dims ((λ v, bool_decide (v = lvl)) <$> levels))
  = omap (λ p : Z3 * Z, if decide (p.2 = lvl) then Some p.1 else None) (zip dims levels).
Proof.
  revert levels. induction dims as [|d dims IH]; intros [|l levels]; simpl; try done.
  rewrite filter_cons. simpl. destruct (decide (l = lvl)) as [->|Hne].
  - rewrite bool_decide_eq_true_2 by done. rewrite decide_True by done.
    simpl. by rewrite IH.
  - rewrite bool_decide_eq_false_2 by done. rewrite decide_False by done. apply IH.
Qed.

Section LevelStats.
Variable MAXLEVEL : Z.

Lemma stats_upto_lookup s k (i : nat) :
  Z.of_nat i < MAXLEVEL →
  stats_upto MAXLEVEL s k !! i = Some (stats_row s k (Z.of_nat i)).
Proof.
  intros Hi. unfold stats_upto. rewrite list_lookup_fmap.
  rewrite lookup_seqZ_lt by lia. simpl. f_equal.
Qed.

Lemma stats_upto_length s k : length (stats_upto MAXLEVEL s k) = Z.to_nat MAXLEVEL.
Proof. unfold stats_upto. by rewrite length_fmap, length_seqZ. Qed.

Lemma stats_upto_insert s (k : nat) :
  Z.of_nat k < MAXLEVEL →
  <[k := LevelStat.mk (level_grids s (Z.of_nat k))
                      (Py.wrap_int64 (level_cells s (Z.of_nat k))) (Z.of_nat k)]>
    (stats_upto MAXLEVEL s (Z.of_nat k))
  = stats_upto MAXLEVEL s (Z.of_nat (S k)).
Proof.
  intros Hk. apply list_eq. intros j.
  destruct (decide (j = k)) as [->|Hne].
  - rewrite list_lookup_insert_eq by (rewrite stats_upto_length; lia).
    rewrite stats_upto_lookup by done. unfold stats_row.
    by rewrite decide_True by lia.
  - rewrite list_lookup_insert_ne by done.
    destruct (decide (Z.of_nat j < MAXLEVEL)) as [Hj|Hj].
    + rewrite !stats_upto_lookup by done. unfold stats_row.
      destruct (decide (Z.of_nat j < Z.of_nat k)).
      * by rewrite decide_True by lia.
      * by rewrite decide_False by lia.
    + rewrite !lookup_ge_None_2; [done | |]; rewrite stats_upto_length; lia.
Qed.

Lemma level_stats_pass_step s (k : nat) :
  Z.of_nat k < MAXLEVEL →
  length (Index.grid_dimensions s) = length (Index.grid_levels s) →
  level_stats_pass (Z.of_nat k) (counted_upto MAXLEVEL (Z.of_nat k) s)
  = Run [] (inr tt) (counted_upto MAXLEVEL (Z.of_nat (S k)) s).
Proof.
  intros Hk Hlen. unfold level_stats_pass. rewrite bind_get.
  assert (stats_row s (Z.of_nat k) (Z.of_nat k) = LevelStat.mk 0 0 (Z.of_nat k)) as Hrow.
  { unfold stats_row. by rewrite decide_False by lia. }
  cbn [counted_upto Index.set_level_stats Index.level_stats Index.grid_levels
         Index.grid_dimensions].
  rewrite (np_get_nat _ k _ (stats_upto_lookup s _ k Hk)), bind_lift_inr.
  rewrite np_set_nat by (rewrite stats_upto_length; lia).
  rewrite bind_lift_inr, bind_modify.
  unfold np_bool_index. rewrite decide_True by (by rewrite length_fmap).
  rewrite bind_lift_inr, bind_get.
  cbn [Index.set_level_stats Index.level_stats].
  rewrite (np_get_nat _ k (with_numgrids (stats_row s (Z.of_nat k) (Z.of_nat k))
                             (count_equal (Index.grid_levels s) (Z.of_nat k)))); cycle 1.
  { apply list_lookup_insert_eq. rewrite stats_upto_length. lia. }
  rewrite bind_lift_inr.
  rewrite np_set_nat by (rewrite length_insert, stats_upto_length; lia).
  rewrite bind_lift_inr. unfold modify, counted_upto.
  cbn [Index.set_level_stats Index.level_stats Index.grids Index.num_grids
         Index.grid_left_edge Index.grid_right_edge Index.grid_levels
         Index.grid_dimensions Index.max_level Index._grid_tree Index.data_files
         Index._preload_implemented Index._grid_chunksize Index.ds_grid_chunk_size
         Index.ds_domain_left_edge].
  rewrite list_insert_insert_eq, <- stats_upto_insert by done.
  rewrite Hrow. unfold with_numcells, with_numgrids. cbn [LevelStat.numgrids
    LevelStat.numcells LevelStat.level].
  rewrite bool_index_level.
  replace (np_sum (prod_axis1 <$> _))
    with (Py.wrap_int64 (level_cells s (Z.of_nat k))); [done|].
  unfold level_cells, dims_at_level.
  rewrite <- np_sum_wrapped, <- list_fmap_compose. f_equal.
  apply list_fmap_ext. intros i d _. simpl. by rewrite prod_axis1_cells.
Qed.

Lemma level_stats_loop s (m k : nat) :
  Z.of_nat (k + m) ≤ MAXLEVEL →
  length (Index.grid_dimensions s) = length (Index.grid_levels s) →
  for_each (seqZ (Z.of_nat k) (Z.of_nat m)) level_stats_pass (counted_upto MAXLEVEL (Z.of_nat k) s)
  = Run [] (inr tt) (counted_upto MAXLEVEL (Z.of_nat (k + m)) s).
Proof.
  intros Hmax Hlen. revert k Hmax. induction m as [|m IH]; intros k Hmax.
  { simpl. by rewrite Nat.add_0_r. }
  rewrite seqZ_nat_cons. simpl. unfold bind.
  rewrite level_stats_pass_step by (done || lia). simpl.
  rewrite (IH (S k)) by lia. simpl. do 3 f_equal. lia.
Qed.

Lemma blank_levels (l : list Z) :
  zip_with with_level (replicate (length l) (LevelStat.mk 0 0 0)) l
  = (λ i, LevelStat.mk 0 0 i) <$> l.
Proof. induction l as [|x l IH]; simpl; [done|]. by rewrite IH. Qed.

Lemma zero_column (f : LevelStat.t → Z → LevelStat.t) (l : list Z) :
  (∀ i, f (LevelStat.mk 0 0 i) 0 = LevelStat.mk 0 0 i) →
  zip_with f ((λ i, LevelStat.mk 0 0 i) <$> l) ((λ _, 0) <$> l)
  = (λ i, LevelStat.mk 0 0 i) <$> l.
Proof.
  intros Hf. induction l as [|x l IH]; [done|].
  cbn [fmap list_fmap zip_with]. f_equal; [apply Hf | apply IH].
Qed.

Lemma stats_upto_0 s : stats_upto MAXLEVEL s 0 = (λ i, LevelStat.mk 0 0 i) <$> seqZ 0 MAXLEVEL.
Proof.
  unfold stats_upto. apply list_fmap_ext. intros i x Hx.
  apply lookup_seqZ in Hx as [-> _]. unfold stats_row.
  by rewrite decide_False by lia.
Qed.

(** With [max_level] below [MAXLEVEL] and a level for every row of
    dimensions, the method returns and has counted every level up to
    [max_level]. *)
Lemma initialize_level_stats_run s :
  -1 ≤ Index.max_level s < MAXLEVEL →
  length (Index.grid_dimensions s) = length (Index.grid_levels s) →
  _initialize_level_stats MAXLEVEL s
  = Run [] (inr tt) (counted_upto MAXLEVEL (Index.max_level s + 1) s).
Proof.
  intros Hmax Hlen. unfold _initialize_level_stats.
  unfold np_full. rewrite decide_False by lia.
  rewrite bind_lift_inr, bind_modify, range_step1, bind_lift_inr, bind_get.
  cbn [Index.set_level_stats Index.level_stats Index.max_level].
  unfold set_column.
  rewrite decide_True by (by rewrite length_replicate, length_seqZ).
  rewrite bind_lift_inr.
  rewrite <- (length_seqZ 0 MAXLEVEL), blank_levels.
  rewrite decide_True by (by rewrite !length_fmap).
  rewrite bind_lift_inr, zero_column by done.
  rewrite decide_True by (by rewrite !length_fmap).
  rewrite bind_lift_inr, zero_column by done.
  rewrite bind_modify, range_step1, bind_lift_inr.
  rewrite <- (stats_upto_0 s).
  replace (Index.max_level s + 1) with (Z.of_nat (0 + Z.to_nat (Index.max_level s + 1))) by lia.
  rewrite <- (level_stats_loop s (Z.to_nat (Index.max_level s + 1)) 0) by (done || lia).
  f_equal.
Qed.

(** C8, the general part: after [_initialize_level_stats], the record of a
    level up to [max_level] holds the number of grids at that level and the
    sum, over those grids, of the product of their three dimensions (as
    long as that sum fits the [int64] it is kept in). *)
Theorem initialize_level_stats_cells s lvl :
  0 ≤ lvl ≤ Index.max_level s →
  Index.max_level s < MAXLEVEL →
  length (Index.grid_dimensions s) = length (Index.grid_levels s) →
  - 2 ^ 63 ≤ level_cells s lvl < 2 ^ 63 →
  let r := _initialize_level_stats MAXLEVEL s in
  outcome r = inr tt ∧
  Index.level_stats (final r) !! Z.to_nat lvl
  = Some (LevelStat.mk (level_grids s lvl) (level_cells s lvl) lvl).
Proof.
  intros Hlvl Hmax Hlen Hfit. cbv zeta.
  rewrite initialize_level_stats_run by (done || lia).
  split; [done|]. cbn [final counted_upto Index.set_level_stats Index.level_stats].
  rewrite stats_upto_lookup by lia. unfold stats_row.
  rewrite Z2Nat.id by lia. rewrite decide_True by lia.
  by rewrite wrap_in_range.
Qed.
End LevelStats.

(* ===================================================================== *)
(** ** The theorems at work on the small hierarchies *)
(* ===================================================================== *)

(** C6 on the five grids: the mode ["bogus"] ends the call in the
    [RuntimeError] with nothing yielded. *)
Lemma chunk_io_invalid_sizing_bogus :
  let r := _chunk_io Examples.count_all Examples.split Examples.cfg
             Examples.dobj true false None "bogus" Examples.files_index in
  yields r = [] ∧
  outcome r = inl (RuntimeError "bogus is an invalid value for the 'chunk_sizing' argument.").
Proof.
  assert ("bogus" ∉ sizing_modes) as Hmode.
  { unfold sizing_modes. rewrite !not_elem_of_cons. split_and!; try done. apply not_elem_of_nil. }
  destruct (chunk_io_invalid_sizing Examples.count_all Examples.split Examples.cfg
              Examples.dobj true false None "bogus" Examples.files_index Hmode)
    as (Hy & _ & _ & He).
  split; [exact Hy|].
  apply (He (Examples.base_chunk Examples.selection) Examples.selection);
    [reflexivity | reflexivity |].
  eexists. vm_compute. reflexivity.
Defined.

(** C10 on a data object with nothing selected. *)
Lemma chunk_io_auto_empty_selection_example :
  _chunk_io Examples.count_all Examples.split Examples.cfg
    Examples.empty_dobj true false None "auto" Examples.files_index
  = Run [] (inl (AttributeError "_grid_chunksize")) Examples.files_index.
Proof.
  apply (chunk_io_auto_empty_selection Examples.count_all Examples.split Examples.cfg
           Examples.empty_dobj true false None
           (Examples.base_chunk Examples.empty_selection) Examples.empty_selection);
    reflexivity.
Defined.

(** C7 on coordinate sequences of lengths 1, 0 and 1. *)
Lemma find_points_length_mismatch_example :
  _find_points (λ _ _ _ _ _, [0]) [0.5%float] [] [0.5%float] Examples.files_index
  = Run [] (inl (AssertionError "Arrays of indices must be of the same size"))
        Examples.files_index.
Proof.
  apply find_points_length_mismatch. simpl. intros [H _]. discriminate H.
Defined.

(** C2 on a data object over the five grids: 1664 cells under "all",
    [NotImplementedError] under "spatial". *)
Lemma chunk_spatial_not_implemented_example :
  yielded_cells (_chunk_all Examples.grid_dobj true None Examples.files_index) = 1664 ∧
  _chunk_spatial Examples.count_all Examples.split (λ g _, g)
    Examples.grid_dobj 0 None None Examples.files_index
  = Run [] (inl NotImplementedError) Examples.files_index.
Proof.
  eapply (chunk_spatial_not_implemented Examples.count_all Examples.split (λ g _, g)
            Examples.grid_dobj _ _ 0 None true None Examples.files_index).
  - reflexivity.
  - left. lia.
Defined.


(** C4, as the code has it, on the drifted grids: the tree returned after
    locking still holds the drifted edges. *)
Lemma lock_keeps_memoized_tree_example :
  let s1 := final (_get_grid_tree Examples.drifted_index) in
  let r := lock_grids_to_parents Examples.start_index s1 in
  outcome r = inr tt ∧
  Index._grid_tree s1 = Some (GridTree.mk 2 [(0.125, 0, 0); (1.125, 0, 0)]%float
                                [(1.125, 1, 1); (2.125, 1, 1)]%float
                                [(2, 2, 2); (2, 2, 2)] [-1; -1] [0; 0] [0; 0]) ∧
  outcome (_get_grid_tree (final r)) = inr (GridTree.mk 2 [(0.125, 0, 0); (1.125, 0, 0)]%float
                                [(1.125, 1, 1); (2.125, 1, 1)]%float
                                [(2, 2, 2); (2, 2, 2)] [-1; -1] [0; 0] [0; 0]).
Proof.
  cbv zeta.
  assert (Index._grid_tree (final (_get_grid_tree Examples.drifted_index))
          = Some (GridTree.mk 2 [(0.125, 0, 0); (1.125, 0, 0)]%float
                                [(1.125, 1, 1); (2.125, 1, 1)]%float
                                [(2, 2, 2); (2, 2, 2)] [-1; -1] [0; 0] [0; 0])) as Ht.
  { vm_compute. reflexivity. }
  destruct (lock_keeps_memoized_tree Examples.start_index _ _ Ht) as (Ho & _ & _ & _ & Hg).
  { split; vm_compute; lia. }
  split; [exact Ho|]. split; [exact Ht|]. by rewrite Hg.
Defined.

(** C8, the example: three level-0 grids of 8x8x8 cells and two level-1
    grids of 4x4x4 cells give level 0 = (3 grids, 1536 cells) and
    level 1 = (2 grids, 128 cells). *)
Lemma initialize_level_stats_example :
  let r := _initialize_level_stats 48 (Examples.index Examples.five_grids None) in
  outcome r = inr tt ∧
  Index.level_stats (final r) !! 0%nat = Some (LevelStat.mk 3 1536 0) ∧
  Index.level_stats (final r) !! 1%nat = Some (LevelStat.mk 2 128 1).
Proof.
  cbv zeta.
  destruct (initialize_level_stats_cells 48 (Examples.index Examples.five_grids None) 0)
    as [Ho H0]; [simpl; lia | simpl; lia | reflexivity | by vm_compute |].
  destruct (initialize_level_stats_cells 48 (Examples.index Examples.five_grids None) 1)
    as [_ H1]; [simpl; lia | simpl; lia | reflexivity | by vm_compute |].
  split; [exact Ho|]. split; [exact H0 | exact H1].
Defined.

(* ===================================================================== *)
(** ** Runs of a list *)
(* ===================================================================== *)

Lemma slice_run {A} (l : list A) (pos size : Z) :
  0 ≤ pos → 0 < size →
  Py.slice l pos (pos + size) = take (Z.to_nat size) (drop (Z.to_nat pos) l).
Proof.
  intros Hpos Hsize. unfold Py.slice, Py.clamp.
  rewrite !decide_False by lia.
  destruct (decide (length l ≤ Z.to_nat pos)%nat) as [Hge|Hlt].
  - rewrite !drop_ge by lia. by rewrite !take_nil.
  - replace (Z.to_nat (Z.min (Z.of_nat (length l)) (Z.max 0 pos))) with (Z.to_nat pos) by lia.
    destruct (decide (Z.to_nat pos + Z.to_nat size ≤ length l)%nat).
    + f_equal. lia.
    + rewrite !take_ge; [done | |]; rewrite length_drop; lia.
Qed.

Lemma runs_pos {A} (l : list A) (size : Z) :
  0 < size →
  runs l size
  = inr (run_at l (Z.to_nat size)
           <$> seq 0 (Z.to_nat ((Z.of_nat (length l) + size - 1) `div` size))).
Proof.
  intros Hsize. unfold runs, Py.range.
  rewrite decide_False by lia. rewrite decide_True by lia. f_equal.
  replace (Z.of_nat (length l) - 0 + size - 1) with (Z.of_nat (length l) + size - 1) by lia.
  unfold seqZ. rewrite <- !list_fmap_compose.
  apply list_fmap_ext. intros i k Hk. simpl.
  rewrite slice_run by lia. unfold run_at. do 2 f_equal. nia.
Qed.

Lemma runs_neg {A} (l : list A) (size : Z) : size < 0 → runs l size = inr [].
Proof.
  intros Hsize. unfold runs, Py.range.
  rewrite decide_False by lia. rewrite decide_False by lia.
  rewrite seqZ_nil; [done|].
  assert ((0 - Z.of_nat (length l) - size - 1) `div` (- size) < 1); [|lia].
  apply Z.div_lt_upper_bound; lia.
Qed.

Lemma run_at_concat {A} (l : list A) (sz n : nat) :
  concat (run_at l sz <$> seq 0 n) = take (n * sz) l.
Proof.
  induction n as [|n IH]; [done|].
  rewrite seq_S, fmap_app, concat_app, IH. simpl. rewrite app_nil_r.
  unfold run_at. rewrite take_take_drop. f_equal. lia.
Qed.

(** Cutting a list into runs of a positive size loses nothing and keeps the
    order; every run has between one and [size] elements, and all but the
    last have exactly [size]. *)
Lemma runs_spec {A} (l : list A) (size : Z) (bs : list (list A)) :
  0 < size → runs l size = inr bs →
  concat bs = l ∧
  Forall (λ b, 0 < Z.of_nat (length b) ≤ size) bs ∧
  ∀ i b, bs !! i = Some b → (S i < length bs)%nat → Z.of_nat (length b) = size.
Proof.
  intros Hsize Hruns. rewrite runs_pos in Hruns by done.
  injection Hruns as <-.
  set (len := Z.of_nat (length l)). set (n := (len + size - 1) `div` size).
  assert (0 ≤ n) as Hn0 by (apply Z.div_pos; lia).
  assert (size * n ≤ len + size - 1) as Hn1 by (apply Z.mul_div_le; lia).
  assert (len + size - 1 < size * n + size) as Hn2.
  { pose proof (Z.mod_pos_bound (len + size - 1) size Hsize).
    pose proof (Z.div_mod (len + size - 1) size ltac:(lia)). fold n in H0. lia. }
  split; [|split].
  - rewrite run_at_concat. apply take_ge. nia.
  - apply Forall_forall. intros b Hb.
    apply list_elem_of_fmap in Hb as (k & -> & Hk).
    apply elem_of_seq in Hk. unfold run_at.
    rewrite length_take, length_drop. fold len. nia.
  - intros i b Hb Hi. rewrite length_fmap, length_seq in Hi.
    rewrite list_lookup_fmap in Hb.
    destruct (seq 0 (Z.to_nat n) !! i) as [k|] eqn:Hk; [|done].
    apply lookup_seq in Hk as [-> _]. injection Hb as <-.
    unfold run_at. rewrite length_take, length_drop. fold len. nia.
Qed.

(* ===================================================================== *)
(** ** Grid masks *)
(* ===================================================================== *)

Lemma mask_count_zeros (n : nat) : mask_count (replicate n 0) = 0%nat.
Proof.
  unfold mask_count. induction n as [|n IH]; [done|].
  simpl. rewrite filter_cons. by rewrite decide_False by lia.
Qed.

Lemma mask_count_app (a b : list Z) : mask_count (a ++ b) = (mask_count a + mask_count b)%nat.
Proof. unfold mask_count. by rewrite filter_app, length_app. Qed.

Lemma mask_count_insert (m : list Z) (i : nat) :
  (i < length m)%nat →
  (mask_count (<[i := 1%Z]> m) ≤ S (mask_count m))%nat ∧
  (mask_count m = 0%nat → mask_count (<[i := 1%Z]> m) = 1%nat).
Proof.
  intros Hi. destruct (lookup_lt_is_Some_2 m i Hi) as [y Hy].
  rewrite insert_take_drop by done.
  assert (mask_count m = mask_count (take i m) + mask_count (y :: drop (S i) m))%nat as ->.
  { rewrite <- mask_count_app. by rewrite take_drop_middle. }
  rewrite mask_count_app.
  assert (∀ v l, mask_count (v :: l)
                 = ((if decide (v = 1%Z) then 1 else 0) + mask_count l)%nat) as Hcons.
  { intros v l. unfold mask_count. rewrite filter_cons. by destruct (decide (v = 1)). }
  rewrite !Hcons. rewrite decide_True by done.
  destruct (decide (y = 1)); lia.
Qed.

Lemma set_ones_spec (g_indices : list Z) (m m' : list Z) :
  set_ones m g_indices = inr m' →
  length m' = length m ∧ (mask_count m' ≤ mask_count m + length g_indices)%nat.
Proof.
  revert m. induction g_indices as [|g rest IH]; intros m Hset; simpl in Hset.
  - injection Hset as <-. split; [done|lia].
  - unfold np_set in Hset. destruct (Py.np_index (length m) g) as [e|i] eqn:Hi; [done|].
    apply IH in Hset as [Hlen Hcount]. rewrite length_insert in Hlen.
    split; [done|]. simpl.
    assert (i < length m)%nat as Hlt.
    { unfold Py.np_index in Hi. repeat case_decide; simplify_eq; lia. }
    pose proof (mask_count_insert m i Hlt) as [Hle _]. lia.
Qed.

(** A batch sets at most as many entries of the mask as it has grid ids,
    and a batch of one grid id sets exactly one. *)
Lemma batch_mask_count (n : nat) (g_indices : list Z) (m : list Z) :
  batch_mask n g_indices = inr m →
  length m = n ∧ (mask_count m ≤ length g_indices)%nat ∧
  (length g_indices = 1%nat → mask_count m = 1%nat).
Proof.
  intros Hm. unfold batch_mask in Hm.
  pose proof (set_ones_spec _ _ _ Hm) as [Hlen Hcount].
  rewrite length_replicate in Hlen. rewrite mask_count_zeros in Hcount.
  split; [done|]. split; [lia|].
  intros Hone. destruct g_indices as [|g [|??]]; try done. simpl in Hm.
  unfold np_set in Hm.
  destruct (Py.np_index (length (replicate n 0)) g) as [e|i] eqn:Hi; [done|].
  injection Hm as <-.
  rewrite length_replicate in Hi.
  assert (i < n)%nat as Hlt.
  { unfold Py.np_index in Hi. repeat case_decide; simplify_eq; lia. }
  apply mask_count_insert; [by rewrite length_replicate | apply mask_count_zeros].
Qed.

(* ===================================================================== *)
(** ** What a loop yields *)
(* ===================================================================== *)

Section Trace.
Context {St Y : Type}.

(** A computation that yields nothing. *)
Lemma bind_silent {A B} (m : M St Y A) (k : A → M St Y B) (s : St) :
  yields (m s) = [] →
  bind m k s = match outcome (m s) with
               | inl e => Run [] (inl e) (final (m s))
               | inr a => k a (final (m s))
               end.
Proof.
  intros Hy. unfold bind. rewrite Hy. destruct (outcome (m s)); [done|].
  simpl. apply run_eta.
Qed.

Lemma quiet_ret {A} (a : A) (s : St) : quiet (Y:=Y) (ret a) s.
Proof. done. Qed.

Lemma quiet_raise {A} e (s : St) : quiet (Y:=Y) (raise (A:=A) e) s.
Proof. done. Qed.

Lemma quiet_lift {A} (r : exn + A) (s : St) : quiet (Y:=Y) (lift r) s.
Proof. by destruct r. Qed.

Lemma quiet_bind {A B} (m : M St Y A) (k : A → M St Y B) s :
  quiet m s → (∀ a, quiet (k a) s) → quiet (bind m k) s.
Proof.
  intros [Hy Hf] Hk. unfold quiet. rewrite bind_silent by done. rewrite Hf.
  destruct (outcome (m s)); [done|]. apply Hk.
Qed.

Lemma quiet_for_fold {A B} (l : list A) (acc : B) (body : B → A → M St Y B) s :
  (∀ b x, quiet (body b x) s) → quiet (for_fold l acc body) s.
Proof.
  intros Hb. revert acc. induction l as [|x l IH]; intros acc; simpl.
  - apply quiet_ret.
  - apply quiet_bind; [apply Hb|]. intros b. apply IH.
Qed.

(** When every pass [x] of a loop follows its plan [h x] (and keeps the
    invariant [I]), the loop follows the plans put end to end. *)
Lemma for_each_follows {A B} (R : B → Y → Prop) (h : A → list B) (I : St → Prop)
    (body : A → M St Y unit) (l : list A) :
  (∀ x s, x ∈ l → I s → I (final (body x s)) ∧ follows R (h x) (body x s)) →
  ∀ s, I s → I (final (for_each l body s)) ∧ follows R (l ≫= h) (for_each l body s).
Proof.
  induction l as [|x l IH]; intros Hbody s Hs.
  { simpl. split; [done|]. exists []. by split_and!. }
  destruct (Hbody x s ltac:(left) Hs) as (Hfin & d1 & Hpre1 & Hrel1 & Hall1).
  simpl. unfold bind at 1 2. destruct (outcome (body x s)) as [e|[]] eqn:Hout.
  - simpl. split; [done|]. exists d1. split_and!; [|done|].
    + by apply prefix_app_r.
    + intros [a Ha]. discriminate Ha.
  - rewrite (Hall1 ltac:(by eexists)) in Hrel1.
    destruct (IH (λ y s' Hy, Hbody y s' ltac:(by right)) _ Hfin)
      as (Hfin2 & d2 & Hpre2 & Hrel2 & Hall2).
    simpl. split; [done|]. exists (h x ++ d2). split_and!.
    + by apply prefix_app.
    + by apply Forall2_app.
    + intros Hret. by rewrite (Hall2 Hret).
Qed.
End Trace.

(* ===================================================================== *)
(** ** The "io" strategy *)
(* ===================================================================== *)

Lemma tree_frame_refl s : tree_frame s s.
Proof. exists (Index._grid_tree s). by destruct s. Qed.

Lemma tree_frame_trans s1 s2 s3 : tree_frame s1 s2 → tree_frame s2 s3 → tree_frame s1 s3.
Proof. intros [t ->] [t' ->]. by exists t'. Qed.

Lemma tree_frame_grids s s' : tree_frame s s' → Index.grids s' = Index.grids s.
Proof. by intros [t ->]. Qed.

Lemma get_grid_tree_frame s :
  yields (_get_grid_tree s) = [] ∧ tree_frame s (final (_get_grid_tree s)).
Proof.
  unfold _get_grid_tree. rewrite bind_get.
  destruct (Index._grid_tree s) as [t|]; [split; [done | apply tree_frame_refl]|].
  unfold np_full. destruct (decide (Index.num_grids s < 0)).
  { rewrite bind_lift_inl. split; [done | apply tree_frame_refl]. }
  rewrite !bind_lift_inr.
  match goal with
  | |- context [bind (for_fold ?l ?a ?body) ?k s] =>
      assert (quiet (for_fold l a body) s) as [Hy Hf]
  end.
  { apply quiet_for_fold. intros a i.
    repeat (apply quiet_bind; [first [apply quiet_lift | by repeat case_match] | intros ?]).
    apply quiet_ret. }
  rewrite bind_silent by done. rewrite Hf.
  match goal with |- context [outcome ?r] => destruct (outcome r) as [e|arrays] end.
  { split; [done | apply tree_frame_refl]. }
  rewrite bind_modify. simpl. split; [done|]. by eexists.
Qed.

Section IoChunks.
Variable indexer_count : Indexer.t → Predicate → Z * (gmap Z Z * list Z).
Variable _split_fields : list string → list string * list string.
Variable ytcfg : Config.t.

Lemma io_batch_follows dobj cache f g_indices s :
  let r := io_batch indexer_count dobj cache f g_indices s in
  tree_frame s (final r) ∧
  follows (io_chunk (length (Index.grids s))) [(f, g_indices)] r.
Proof.
  cbv zeta. unfold io_batch. rewrite bind_get.
  destruct (batch_mask _ g_indices) as [e|m] eqn:Hm.
  { rewrite bind_lift_inl. split; [apply tree_frame_refl|].
    exists []. split_and!; [apply prefix_nil | constructor |].
    intros [a Ha]. discriminate Ha. }
  rewrite bind_lift_inr.
  destruct (get_grid_tree_frame s) as [Hy Hframe].
  rewrite bind_silent by done.
  destruct (outcome (_get_grid_tree s)) as [e|tree].
  { split; [done|]. exists []. split_and!; [apply prefix_nil | constructor |].
    intros [a Ha]. discriminate Ha. }
  unfold _count_selection. rewrite bind_ret, bind_get.
  match goal with |- context [lift ?r] => destruct r as [e|grids] end.
  { rewrite bind_lift_inl. split; [done|].
    exists []. split_and!; [apply prefix_nil | constructor |].
    intros [a Ha]. discriminate Ha. }
  rewrite bind_lift_inr. unfold yield. simpl. split; [done|].
  exists [(f, g_indices)]. split_and!; [done | | done].
  constructor; [|constructor]. split_and!; [done | done |].
  exists m. by split.
Qed.

Lemma io_file_follows dobj cache size f s0 s :
  tree_frame s0 s →
  let r := io_file indexer_count dobj cache size f s in
  tree_frame s0 (final r) ∧
  follows (io_chunk (length (Index.grids s0))) (planned_file size f) r.
Proof.
  intros Hs. cbv zeta. unfold io_file, planned_file.
  destruct (obj_grid_id_values f) as [e|gs].
  { rewrite bind_lift_inl. split; [done|].
    exists []. split_and!; [done | constructor |]. intros [a Ha]. discriminate Ha. }
  rewrite bind_lift_inr.
  destruct (runs gs size) as [e|batches].
  { rewrite bind_lift_inl. split; [done|].
    exists []. split_and!; [done | constructor |]. intros [a Ha]. discriminate Ha. }
  rewrite bind_lift_inr.
  replace ((λ b, (f, b)) <$> batches) with (batches ≫= (λ b, [(f, b)])); cycle 1.
  { induction batches as [|b bs IH]; [done|]. rewrite bind_cons, IH. done. }
  apply (for_each_follows _ _ (tree_frame s0)); [|done].
  intros b s' _ Hs'.
  destruct (io_batch_follows dobj cache f b s') as [Hframe Hfollows].
  split; [by eapply tree_frame_trans|].
  by rewrite <- (tree_frame_grids s0 s' Hs').
Qed.

Lemma np_take_length {A} (l : list A) ind r : np_take l ind = inr r → length r = length ind.
Proof.
  revert r. induction ind as [|i ind IH]; intros r Hr; simpl in Hr.
  - by injection Hr as <-.
  - destruct (np_get l i); [done|]. destruct (np_take l ind); [done|].
    injection Hr as <-. simpl. f_equal. by apply IH.
Qed.

Lemma sorted_by_key_length {A} (key : A → Z) (l : list A) :
  length (Py.sorted_by_key key l) = length l.
Proof.
  unfold Py.sorted_by_key. induction l as [|x l IH]; [done|]. simpl.
  rewrite <- IH. generalize (foldr (Py.insert_by_key key) [] l). intros k.
  induction k as [|y k IHk]; [done|]. simpl.
  destruct (decide (key x ≤ key y)); simpl; [done|]. by rewrite IHk.
Qed.

(** The run of [_chunk_io] once its setup gave a batch size: the chunks it
    yields are, in order, the io chunks of the planned batches: of all of
    them when the generator runs to its end, of a first part of them when a
    batch raises. *)
Lemma chunk_io_setup_follows dobj cache local_only preload_fields chunk_sizing s sz :
  io_setup ytcfg dobj chunk_sizing s sz →
  follows (io_chunk (length (Index.grids s))) (planned (chunk_objs dobj) sz)
    (_chunk_io indexer_count _split_fields ytcfg dobj cache local_only
       preload_fields chunk_sizing s).
Proof.
  intros (c & ix & gobjs & Hc & Hix & Hg & Hsize).
  unfold _chunk_io. cbn zeta. rewrite Hc, Hix.
  rewrite bind_ret, bind_get, Hg, bind_lift_inr.
  rewrite sorted_by_key_length, (np_take_length _ _ _ Hg), length_fmap.
  rewrite length_map_to_list, Hsize, bind_lift_inr.
  apply (for_each_follows _ _ (tree_frame s)); [|apply tree_frame_refl].
  intros f s' _ Hs'. by apply io_file_follows.
Qed.

(** Without that, it stops before the loop and yields nothing. *)
Lemma chunk_io_follows dobj cache local_only preload_fields chunk_sizing s :
  let r := _chunk_io indexer_count _split_fields ytcfg dobj cache local_only
             preload_fields chunk_sizing s in
  yields r = [] ∨
  ∃ sz, io_setup ytcfg dobj chunk_sizing s sz ∧
        follows (io_chunk (length (Index.grids s))) (planned (chunk_objs dobj) sz) r.
Proof.
  cbv zeta.
  destruct (DataObj._current_chunk dobj) as [c|] eqn:Hc; cycle 1.
  { left. unfold _chunk_io. by rewrite Hc. }
  destruct (DataChunk._indexer c) as [ix|] eqn:Hix; cycle 1.
  { left. unfold _chunk_io. by rewrite Hc, Hix. }
  destruct (np_take (Index.grids s) (map_to_list (Indexer.cell_count_by_grid ix)).*1)
    as [e|gobjs] eqn:Hg.
  { left. unfold _chunk_io. cbn zeta. rewrite Hc, Hix.
    by rewrite bind_ret, bind_get, Hg. }
  destruct (io_chunk_size ytcfg s chunk_sizing
              (Z.of_nat (size (Indexer.cell_count_by_grid ix)))) as [e|sz] eqn:Hsize.
  { left. unfold _chunk_io. cbn zeta. rewrite Hc, Hix.
    rewrite bind_ret, bind_get, Hg, bind_lift_inr.
    rewrite sorted_by_key_length, (np_take_length _ _ _ Hg), length_fmap.
    by rewrite length_map_to_list, Hsize. }
  right. exists sz.
  assert (io_setup ytcfg dobj chunk_sizing s sz) as Hsetup by (exists c, ix, gobjs; by split_and!).
  split; [done|]. by apply chunk_io_setup_follows.
Qed.

Lemma follows_yields {A B} (R : B → DataChunk.t → Prop) (plan : list B)
    (r : run Index.t DataChunk.t A) (dc : DataChunk.t) :
  follows R plan r → dc ∈ yields r → ∃ x, x ∈ plan ∧ R x dc.
Proof.
  intros (done_ & Hpre & Hrel & _) Hdc.
  apply list_elem_of_lookup in Hdc as [i Hi].
  destruct (Forall2_lookup_r _ _ _ _ _ Hrel Hi) as (x & Hx & HR).
  exists x. split; [|done].
  eapply elem_of_prefix; [|done]. by eapply list_elem_of_lookup_2.
Qed.

Lemma planned_elem (fobjs : list ChunkObj) (sz : Z) (f : ChunkObj) (b : list Z) :
  (f, b) ∈ planned fobjs sz →
  f ∈ fobjs ∧ ∃ gs batches,
    obj_grid_id_values f = inr gs ∧ runs gs sz = inr batches ∧ b ∈ batches.
Proof.
  unfold planned. rewrite list_elem_of_bind. intros (f' & Hb & Hf).
  unfold planned_file in Hb.
  destruct (obj_grid_id_values f') as [e|gs] eqn:Hgs; [by apply not_elem_of_nil in Hb|].
  destruct (runs gs sz) as [e|batches] eqn:Hruns; [by apply not_elem_of_nil in Hb|].
  apply list_elem_of_fmap in Hb as (b' & [= -> ->] & Hb').
  split; [done|]. by exists gs, batches.
Qed.

Lemma elem_of_concat_run {A} (x : A) (b : list A) (bs : list (list A)) :
  b ∈ bs → x ∈ b → x ∈ concat bs.
Proof.
  intros Hb Hx. induction bs as [|b' bs IH]; [by apply not_elem_of_nil in Hb|].
  simpl. apply elem_of_app. apply elem_of_cons in Hb as [<-|Hb]; [by left|].
  right. by apply IH.
Qed.

(** C5: in mode ["just_one"] every chunk [_chunk_io] yields is the chunk of
    a batch of exactly one grid id of its file, and its mask lets exactly
    one grid through; in mode ["old"] every chunk is the chunk of a batch of
    at most [GRID_CHUNKSIZE] grid ids of its file, and its mask lets at most
    that many grids through. *)
Theorem chunk_io_batch_sizes dobj cache local_only preload_fields s :
  let n := length (Index.grids s) in
  Forall (λ dc, ∃ f g_id m,
            DataChunk.objs dc = [f] ∧ f ∈ chunk_objs dobj ∧
            (∃ gs, obj_grid_id_values f = inr gs ∧ g_id ∈ gs) ∧
            batch_mask n [g_id] = inr m ∧ chunk_mask dc = Some m ∧
            mask_count m = 1%nat)
    (yields (_chunk_io indexer_count _split_fields ytcfg dobj cache local_only
               preload_fields "just_one" s)) ∧
  Forall (λ dc, ∃ f b m,
            DataChunk.objs dc = [f] ∧ f ∈ chunk_objs dobj ∧
            (∃ gs, obj_grid_id_values f = inr gs ∧ b ⊆ gs) ∧
            batch_mask n b = inr m ∧ chunk_mask dc = Some m ∧
            Z.of_nat (length b) ≤ GRID_CHUNKSIZE s ∧
            (mask_count m ≤ length b)%nat ∧
            Z.of_nat (mask_count m) ≤ GRID_CHUNKSIZE s)
    (yields (_chunk_io indexer_count _split_fields ytcfg dobj cache local_only
               preload_fields "old" s)).
Proof.
  cbv zeta. split; apply Forall_forall; intros dc Hdc.
  - destruct (chunk_io_follows dobj cache local_only preload_fields "just_one" s)
      as [Hnil | (sz & Hsetup & Hfollows)].
    { rewrite Hnil in Hdc. by apply not_elem_of_nil in Hdc. }
    destruct Hsetup as (c & ix & gobjs & _ & _ & _ & Hsize).
    unfold io_chunk_size in Hsize.
    rewrite !bool_decide_eq_false_2 in Hsize by done. simpl in Hsize.
    injection Hsize as <-.
    destruct (follows_yields _ _ _ _ Hfollows Hdc) as ([f b] & Hplan & _ & Hobjs & m & Hm & Hmask).
    apply planned_elem in Hplan as (Hf & gs & batches & Hgs & Hruns & Hb).
    destruct (runs_spec gs 1 batches ltac:(lia) Hruns) as (Hcat & Hlens & _).
    rewrite Forall_forall in Hlens. specialize (Hlens b Hb).
    destruct b as [|g_id [|??]]; simpl in Hlens; try lia.
    exists f, g_id, m. split_and!; try done.
    + exists gs. split; [done|]. rewrite <- Hcat.
      apply (elem_of_concat_run _ [g_id]); [done | left].
    + by apply (batch_mask_count _ _ _ Hm).
  - destruct (chunk_io_follows dobj cache local_only preload_fields "old" s)
      as [Hnil | (sz & Hsetup & Hfollows)].
    { rewrite Hnil in Hdc. by apply not_elem_of_nil in Hdc. }
    destruct Hsetup as (c & ix & gobjs & _ & _ & _ & Hsize).
    unfold io_chunk_size in Hsize.
    rewrite !bool_decide_eq_false_2 in Hsize by done. simpl in Hsize.
    injection Hsize as <-.
    destruct (follows_yields _ _ _ _ Hfollows Hdc) as ([f b] & Hplan & _ & Hobjs & m & Hm & Hmask).
    apply planned_elem in Hplan as (Hf & gs & batches & Hgs & Hruns & Hb).
    destruct (decide (0 < GRID_CHUNKSIZE s)) as [Hpos|Hneg]; cycle 1.
    { destruct (decide (GRID_CHUNKSIZE s = 0)) as [H0|H0].
      - unfold runs, Py.range in Hruns. by rewrite decide_True in Hruns.
      - rewrite runs_neg in Hruns by lia. injection Hruns as <-.
        by apply not_elem_of_nil in Hb. }
    destruct (runs_spec gs _ batches Hpos Hruns) as (Hcat & Hlens & _).
    rewrite Forall_forall in Hlens. specialize (Hlens b Hb).
    destruct (batch_mask_count _ _ _ Hm) as (_ & Hcount & _). simpl in Hcount.
    exists f, b, m. split_and!; try done; try lia.
    exists gs. split; [done|]. rewrite <- Hcat.
    intros g Hg. by apply (elem_of_concat_run _ b).
Qed.

End IoChunks.

(** C1 as stated does not hold: with a chunk size of 4, two workers and
    eight selected grids, four to a file, the formula over the grids in a
    file gives batches of 2, and the code, which divides by the eight
    selected grids, yields one chunk of 4 grids per file. *)
Lemma auto_size_is_not_per_file :
  let s := Examples.wide_index in
  let r := _chunk_io Examples.count_all Examples.split Examples.cfg
             Examples.wide_dobj true false None "auto" s in
  outcome r = inr tt ∧
  GRID_CHUNKSIZE s = 4 ∧ Config.__global_parallel_size Examples.cfg = 2 ∧
  (DataFile.grid_id_values <$> Index.data_files s) = [[0; 1; 2; 3]; [4; 5; 6; 7]] ∧
  (auto_size_per_file 4 2 <$> Index.data_files s) = [2; 2] ∧
  (chunk_mask <$> yields r)
  = [Some [1; 1; 1; 1; 0; 0; 0; 0]; Some [0; 0; 0; 0; 1; 1; 1; 1]] ∧
  ((λ dc, mask_count <$> chunk_mask dc) <$> yields r) = [Some 4%nat; Some 4%nat].
Proof. cbv zeta. split_and!; vm_compute; reflexivity. Qed.

(** C5 on the five grids in file records of two: five chunks of one grid
    in mode ["just_one"], chunks of at most two grids in mode ["old"]. *)
Lemma chunk_io_batch_sizes_example :
  let s := Examples.files_index in
  let io mode := _chunk_io Examples.count_all Examples.split Examples.cfg
                   Examples.dobj true false None mode s in
  GRID_CHUNKSIZE s = 2 ∧
  (chunk_mask <$> yields (io "just_one"))
  = [Some [0; 0; 1; 0; 0]; Some [0; 0; 0; 1; 0]; Some [1; 0; 0; 0; 0];
     Some [0; 1; 0; 0; 0]; Some [0; 0; 0; 0; 1]] ∧
  (chunk_mask <$> yields (io "old"))
  = [Some [0; 0; 1; 1; 0]; Some [1; 1; 0; 0; 0]; Some [0; 0; 0; 0; 1]] ∧
  Forall (λ dc, ∃ m, chunk_mask dc = Some m ∧ mask_count m = 1%nat)
    (yields (io "just_one")) ∧
  Forall (λ dc, ∃ m, chunk_mask dc = Some m ∧ Z.of_nat (mask_count m) ≤ 2)
    (yields (io "old")).
Proof.
  cbv zeta.
  destruct (chunk_io_batch_sizes Examples.count_all Examples.split Examples.cfg
              Examples.dobj true false None Examples.files_index) as [Hone Hold].
  split; [reflexivity|]. split; [vm_compute; reflexivity|].
  split; [vm_compute; reflexivity|]. split.
  - eapply Forall_impl; [exact Hone|].
    intros dc (f & g_id & m & _ & _ & _ & _ & Hm & Hc). by exists m.
  - eapply Forall_impl; [exact Hold|].
    intros dc (f & b & m & _ & _ & _ & _ & Hm & _ & _ & Hc). by exists m.
Defined.

(* ===================================================================== *)
(** ** Backing-file grouping *)
(* ===================================================================== *)

Lemma add_grid_insert (m : gmap string (list Z)) (g : Grid.t) :
  add_grid m g
  = <[Grid.filename g := default [] (m !! Grid.filename g) ++ [file_local_id g]]> m.
Proof.
  unfold add_grid. destruct (m !! Grid.filename g) eqn:H; simpl.
  - by rewrite H.
  - rewrite lookup_insert_eq. simpl. by rewrite insert_insert_eq.
Qed.

(** After the first loop a file's bucket holds the ids of its grids. *)
Lemma buckets_lookup (grids : list Grid.t) (fn : string) :
  foldl add_grid ∅ grids !! fn
  = if decide (ids_in_file grids fn = []) then None else Some (ids_in_file grids fn).
Proof.
  induction grids as [|g grids IH] using rev_ind; [done|].
  rewrite foldl_snoc, add_grid_insert. unfold ids_in_file in *.
  rewrite filter_app, fmap_app, filter_cons, filter_nil.
  destruct (decide (Grid.filename g = fn)) as [<-|Hne].
  - rewrite lookup_insert_eq, IH. simpl.
    rewrite (decide_False (P := _ ++ _ = [])) by (by intros []%app_eq_nil).
    by destruct (decide _) as [->|].
  - rewrite lookup_insert_ne by done. rewrite IH. simpl. by rewrite app_nil_r.
Qed.

Lemma number_files_app fi l k :
  number_files fi (l ++ k) = number_files fi l ++ number_files (fi + Z.of_nat (length l)) k.
Proof.
  revert fi. induction l as [|[fn r] l IH]; intros fi; simpl.
  - f_equal. lia.
  - rewrite IH. do 3 f_equal. lia.
Qed.

Lemma append_loop fn (rs : list (list Z)) fi s :
  for_fold rs fi (append_data_file fn) s
  = Run [] (inr (fi + Z.of_nat (length rs)))
      (Index.set_data_files
         (Index.data_files s ++ number_files fi ((λ r, (fn, r)) <$> rs)) s).
Proof.
  revert fi s. induction rs as [|r rs IH]; intros fi s.
  - simpl. unfold ret. f_equal; [f_equal; lia|]. rewrite app_nil_r. by destruct s.
  - simpl. unfold bind, append_data_file at 1 2 3. simpl.
    rewrite IH. simpl. f_equal; [f_equal; lia|].
    by rewrite <- app_assoc.
Qed.

Lemma runs_defined {A} (l : list A) (size : Z) : size ≠ 0 → ∃ rs, runs l size = inr rs.
Proof. intros Hsz. unfold runs, Py.range. repeat case_decide; try done; eauto. Qed.

Lemma records_loop G (items : list (string * list Z)) fi s :
  G ≠ 0 →
  for_fold items fi (file_records G) s
  = Run [] (inr (fi + Z.of_nat (length (items ≫= file_runs G))))
      (Index.set_data_files
         (Index.data_files s ++ number_files fi (items ≫= file_runs G)) s).
Proof.
  intros HG. revert fi s. induction items as [|[fn ids] items IH]; intros fi s.
  - simpl. unfold ret. f_equal; [f_equal; lia|]. rewrite app_nil_r. by destruct s.
  - destruct (runs_defined ids G HG) as [rs Hrs].
    assert (file_runs G (fn, ids) = (λ r, (fn, r)) <$> rs) as Hfr.
    { unfold file_runs. simpl. by rewrite Hrs. }
    assert (∀ s', file_records G fi (fn, ids) s'
                  = Run [] (inr (fi + Z.of_nat (length rs)))
                      (Index.set_data_files
                         (Index.data_files s' ++ number_files fi ((λ r, (fn, r)) <$> rs)) s'))
      as Hstep.
    { intros s'. unfold file_records. rewrite Hrs, bind_lift_inr. apply append_loop. }
    rewrite bind_cons, Hfr. cbn [for_fold]. unfold bind. rewrite Hstep.
    cbn [outcome yields final]. rewrite IH. cbn [outcome yields final].
    rewrite number_files_app, length_app, length_fmap.
    f_equal; [f_equal; lia|]. simpl. by rewrite <- app_assoc.
Qed.

Lemma GRID_CHUNKSIZE_nonzero s : GRID_CHUNKSIZE s ≠ 0.
Proof.
  unfold GRID_CHUNKSIZE, Py.or_int.
  destruct (Index.ds_grid_chunk_size s) as [v|]; [case_decide|]; done.
Qed.

Lemma setup_filenames_run s :
  _setup_filenames s
  = Run [] (inr tt)
      (Index.set_data_files
         (number_files 0 (sorted_items (Index.grids s) ≫= file_runs (GRID_CHUNKSIZE s))) s).
Proof.
  unfold _setup_filenames. rewrite bind_get, bind_modify.
  unfold bind. rewrite records_loop by apply GRID_CHUNKSIZE_nonzero. done.
Qed.

Lemma number_files_ids fi (l : list (string * list Z)) :
  DataFile.file_id <$> number_files fi l = seqZ fi (Z.of_nat (length l)).
Proof.
  revert fi. induction l as [|[fn r] l IH]; intros fi; [done|].
  cbn [number_files fmap list_fmap length]. rewrite seqZ_cons by lia.
  cbn [DataFile.file_id]. f_equal. rewrite IH. f_equal; lia.
Qed.

Lemma number_files_length fi l : length (number_files fi l) = length l.
Proof. by rewrite <- (length_fmap DataFile.file_id), number_files_ids, length_seqZ, Nat2Z.id. Qed.

Lemma number_files_elem fi l df :
  df ∈ number_files fi l → (DataFile.filename df, DataFile.grid_id_values df) ∈ l.
Proof.
  revert fi. induction l as [|[fn r] l IH]; intros fi Hdf; simpl in Hdf.
  - by apply not_elem_of_nil in Hdf.
  - apply elem_of_cons in Hdf as [->|Hdf]; [left|right; by eapply IH].
Qed.

Lemma number_files_filter fi (l : list (string * list Z)) (fn : string) :
  DataFile.grid_id_values <$> filter (λ df, DataFile.filename df = fn) (number_files fi l)
  = snd <$> filter (λ p, p.1 = fn) l.
Proof.
  revert fi. induction l as [|[fn' r] l IH]; intros fi; [done|].
  cbn [number_files]. rewrite !filter_cons. cbn [DataFile.filename fst].
  destruct (decide (fn' = fn)); cbn [fmap list_fmap]; by rewrite IH.
Qed.

Lemma file_runs_filter_eq G fn ids :
  filter (λ p : string * list Z, p.1 = fn) (file_runs G (fn, ids)) = file_runs G (fn, ids).
Proof.
  unfold file_runs. simpl. destruct (runs ids G) as [e|rs]; [done|].
  induction rs as [|r rs IH]; [done|].
  cbn [fmap list_fmap]. rewrite filter_cons. simpl. rewrite decide_True by done.
  f_equal. apply IH.
Qed.

Lemma file_runs_filter_ne G fn fn' ids :
  fn' ≠ fn → filter (λ p : string * list Z, p.1 = fn) (file_runs G (fn', ids)) = [].
Proof.
  intros Hne. unfold file_runs. simpl. destruct (runs ids G) as [e|rs]; [done|].
  induction rs as [|r rs IH]; [done|].
  cbn [fmap list_fmap]. rewrite filter_cons. simpl. by rewrite decide_False by done.
Qed.

Lemma records_filter_absent G (items : list (string * list Z)) fn :
  fn ∉ items.*1 → filter (λ p : string * list Z, p.1 = fn) (items ≫= file_runs G) = [].
Proof.
  induction items as [|[fn' ids] items IH]; intros Hfn; [done|].
  rewrite bind_cons, filter_app. cbn [fmap list_fmap fst] in Hfn.
  apply not_elem_of_cons in Hfn as [Hne Hfn].
  rewrite file_runs_filter_ne by done. by rewrite IH.
Qed.

(** The records of a filename are the runs of its one item. *)
Lemma records_filter_present G (items : list (string * list Z)) fn ids :
  NoDup items.*1 → (fn, ids) ∈ items →
  filter (λ p : string * list Z, p.1 = fn) (items ≫= file_runs G) = file_runs G (fn, ids).
Proof.
  induction items as [|[fn' ids'] items IH]; intros Hnd Hin.
  { by apply not_elem_of_nil in Hin. }
  cbn [fmap list_fmap fst] in Hnd. apply NoDup_cons in Hnd as [Hfresh Hnd].
  rewrite bind_cons, filter_app.
  apply elem_of_cons in Hin as [[= <- <-]|Hin].
  - rewrite file_runs_filter_eq, records_filter_absent by done. by rewrite app_nil_r.
  - assert (fn' ≠ fn) as Hne.
    { intros ->. apply Hfresh. apply list_elem_of_fmap. by exists (fn, ids). }
    rewrite file_runs_filter_ne by done. by rewrite IH.
Qed.

Lemma sorted_items_elem grids fn ids :
  (fn, ids) ∈ sorted_items grids ↔
  ids_in_file grids fn ≠ [] ∧ ids = Py.sorted_Z (ids_in_file grids fn).
Proof.
  unfold sorted_items. rewrite merge_sort_Permutation, elem_of_map_to_list.
  rewrite lookup_fmap, buckets_lookup.
  destruct (decide (ids_in_file grids fn = [])) as [He|Hne]; simpl.
  - split; [done | by intros [? _]].
  - split; [by intros [= <-] | by intros [_ ->]].
Qed.

Lemma sorted_items_NoDup grids : NoDup (sorted_items grids).*1.
Proof.
  unfold sorted_items. rewrite merge_sort_Permutation. apply NoDup_fst_map_to_list.
Qed.

Lemma sorted_Z_sorted l : StronglySorted Z.le (Py.sorted_Z l).
Proof. apply StronglySorted_merge_sort; apply _. Qed.

Lemma run_at_sorted (l : list Z) sz k :
  StronglySorted Z.le l → StronglySorted Z.le (run_at l sz k).
Proof.
  intros Hl. unfold run_at.
  rewrite <- (take_drop (k * sz) l) in Hl. apply StronglySorted_app_1_r in Hl.
  rewrite <- (take_drop sz (drop (k * sz) l)) in Hl. by apply StronglySorted_app_1_l in Hl.
Qed.

(** C9: [_setup_filenames] returns with the data files numbered 0, 1, 2,
    ... in the order it made them; every data file holds a run, sorted
    ascending and of between one and [GRID_CHUNKSIZE] ids, of the ids of the
    grids that declare its filename; and for every filename the data files
    of that name, in order, put together are the sorted list of the ids of
    its grids. *)
Theorem setup_filenames_groups s :
  let r := _setup_filenames s in
  let files := Index.data_files (final r) in
  let G := GRID_CHUNKSIZE s in
  outcome r = inr tt ∧
  DataFile.file_id <$> files = seqZ 0 (Z.of_nat (length files)) ∧
  Forall (λ df,
            Sorted Z.le (DataFile.grid_id_values df) ∧
            0 < Z.of_nat (length (DataFile.grid_id_values df)) ≤ G ∧
            DataFile.grid_id_values df ⊆ ids_in_file (Index.grids s) (DataFile.filename df))
    files ∧
  (0 < G → ∀ fn, ∃ bucket,
      Sorted Z.le bucket ∧ bucket ≡ₚ ids_in_file (Index.grids s) fn ∧
      concat (DataFile.grid_id_values
                <$> filter (λ df, DataFile.filename df = fn) files) = bucket).
Proof.
  cbv zeta. rewrite setup_filenames_run. cbn [outcome final].
  set (G := GRID_CHUNKSIZE s). set (items := sorted_items (Index.grids s)).
  change (Index.data_files (Index.set_data_files ?v s)) with v.
  split; [done|]. split; [|split].
  - by rewrite number_files_ids, number_files_length.
  - apply Forall_forall. intros df Hdf.
    apply number_files_elem in Hdf.
    apply list_elem_of_bind in Hdf as ([fn ids] & Hrun & Hitem).
    apply sorted_items_elem in Hitem as [Hne ->].
    unfold file_runs in Hrun. simpl in Hrun.
    destruct (runs _ G) as [e|rs] eqn:Hruns; [by apply not_elem_of_nil in Hrun|].
    apply list_elem_of_fmap in Hrun as (b & [= Hfn Hb] & Hin).
    rewrite Hfn, Hb. clear df Hfn Hb.
    destruct (decide (0 < G)) as [Hpos|Hneg]; cycle 1.
    { rewrite runs_neg in Hruns by (pose proof (GRID_CHUNKSIZE_nonzero s); lia).
      injection Hruns as <-. by apply not_elem_of_nil in Hin. }
    destruct (runs_spec _ _ _ Hpos Hruns) as (Hcat & Hlens & _).
    rewrite Forall_forall in Hlens. split_and!; [|by apply Hlens..|].
    + rewrite runs_pos in Hruns by done. injection Hruns as <-.
      apply list_elem_of_fmap in Hin as (k & -> & _).
      apply StronglySorted_Sorted, run_at_sorted, sorted_Z_sorted.
    + intros g Hg.
      assert (g ∈ Py.sorted_Z (ids_in_file (Index.grids s) fn)) as Hs.
      { rewrite <- Hcat. by apply (elem_of_concat_run _ b). }
      unfold Py.sorted_Z in Hs. by rewrite merge_sort_Permutation in Hs.
  - intros Hpos fn. exists (Py.sorted_Z (ids_in_file (Index.grids s) fn)).
    split; [apply StronglySorted_Sorted, sorted_Z_sorted|].
    split; [apply merge_sort_Permutation|].
    rewrite number_files_filter.
    destruct (decide (ids_in_file (Index.grids s) fn = [])) as [He|Hne].
    + rewrite records_filter_absent; [by rewrite He|].
      intros Hin. apply list_elem_of_fmap in Hin as ([fn' ids] & -> & Hin).
      by apply sorted_items_elem in Hin as [? _].
    + rewrite (records_filter_present _ _ _ (Py.sorted_Z (ids_in_file (Index.grids s) fn)));
        [|apply sorted_items_NoDup|by apply sorted_items_elem].
      unfold file_runs. simpl.
      destruct (runs_defined (Py.sorted_Z (ids_in_file (Index.grids s) fn)) G
                  ltac:(lia)) as [rs Hrs].
      rewrite Hrs. rewrite <- list_fmap_compose.
      replace (snd ∘ _ <$> rs) with rs; [by apply (runs_spec _ G)|].
      rewrite <- (list_fmap_id rs) at 1. by apply list_fmap_ext.
Qed.

(** C9 on the five grids with at most two grids per file record. *)
Lemma setup_filenames_groups_example :
  let r := _setup_filenames (Examples.index Examples.five_grids (Some 2)) in
  outcome r = inr tt ∧
  Index.data_files (final r)
  = [DataFile.mk "a.h5" 0 [2; 3]; DataFile.mk "b.h5" 1 [0; 1]; DataFile.mk "b.h5" 2 [4]] ∧
  DataFile.file_id <$> Index.data_files (final r) = [0; 1; 2].
Proof.
  cbv zeta.
  destruct (setup_filenames_groups (Examples.index Examples.five_grids (Some 2)))
    as (Ho & Hids & _).
  split; [exact Ho|]. split; [vm_compute; reflexivity|].
  rewrite Hids. vm_compute. reflexivity.
Defined.

(* ===================================================================== *)
(** ** Grids by level *)
(* ===================================================================== *)

Lemma bool_index_pick {A} (l : list A) (levels : list Z) (lvl : Z) :
  fst <$> filter (λ p : A * bool, p.2 = true)
            (zip l ((λ v, bool_decide (v = lvl)) <$> levels))
  = omap (λ p : A * Z, if decide (p.2 = lvl) then Some p.1 else None) (zip l levels).
Proof.
  revert levels. induction l as [|d l IH]; intros [|v levels]; simpl; try done.
  rewrite filter_cons. simpl. destruct (decide (v = lvl)) as [->|Hne].
  - rewrite bool_decide_eq_true_2 by done. rewrite decide_True by done.
    simpl. by rewrite IH.
  - rewrite bool_decide_eq_false_2 by done. rewrite decide_False by done. apply IH.
Qed.

Lemma select_grids_run {Y} (s : Index.t) (lvl : Z) :
  length (Index.grids s) = length (Index.grid_levels s) →
  select_grids (Y:=Y) lvl s = Run [] (inr (grids_at_level s lvl)) s.
Proof.
  intros Hlen. unfold select_grids. rewrite bind_get. unfold np_bool_index.
  rewrite decide_True by (by rewrite length_fmap). by rewrite bool_index_pick.
Qed.

Lemma grids_at_level_elem (s : Index.t) (lvl : Z) (g : Grid.t) :
  g ∈ grids_at_level s lvl ↔
  ∃ i, Index.grids s !! i = Some g ∧ Index.grid_levels s !! i = Some lvl.
Proof.
  unfold grids_at_level. rewrite list_elem_of_omap. split.
  - intros ([g' l] & Hin & Hsome). simpl in Hsome.
    destruct (decide (l = lvl)) as [->|]; [|done]. injection Hsome as ->.
    apply list_elem_of_lookup in Hin as [i Hi].
    apply lookup_zip_with_Some in Hi as (x & y & [= -> ->] & Hx & Hy). eauto.
  - intros (i & Hg & Hl). exists (g, lvl). split.
    + apply list_elem_of_lookup. exists i. apply lookup_zip_with_Some. eauto.
    + simpl. by rewrite decide_True.
Qed.

Lemma grids_at_level_sublist (s : Index.t) (lvl : Z) :
  grids_at_level s lvl `sublist_of` Index.grids s.
Proof.
  unfold grids_at_level. generalize (Index.grid_levels s).
  induction (Index.grids s) as [|g gs IH]; intros [|l ls]; simpl;
    try (by apply sublist_nil_l).
  destruct (decide (l = lvl)); simpl.
  - by apply sublist_skip.
  - by apply sublist_cons.
Qed.

Lemma total_app (a b : list Z) : total (a ++ b) = total a + total b.
Proof. unfold total. induction a as [|x a IH]; simpl; [done|]. rewrite IH. lia. Qed.

Lemma total_perm (a b : list Z) : a ≡ₚ b → total a = total b.
Proof.
  unfold total. induction 1 as [|x a b _ IH|x y a|a b c _ IH1 _ IH2]; simpl; lia.
Qed.

Lemma total_concat (ls : list (list Z)) : total (concat ls) = total (total <$> ls).
Proof.
  induction ls as [|l ls IH]; [done|]. simpl. rewrite total_app, IH. done.
Qed.

Lemma total_zeros {A} (l : list A) : total ((λ _, 0) <$> l) = 0.
Proof.
  induction l as [|x l IH]; [done|]. rewrite fmap_cons. unfold total in *.
  cbn [foldr]. rewrite IH. lia.
Qed.

Lemma total_ones {A} (l : list A) : total ((λ _, 1) <$> l) = Z.of_nat (length l).
Proof.
  induction l as [|x l IH]; [done|]. rewrite fmap_cons. unfold total in *.
  cbn [foldr length]. rewrite IH. lia.
Qed.

(** The group of the pairs whose key is [k]. *)
Lemma pick_cons {A} (k : Z) (x : A) (l : Z) (ps : list (A * Z)) :
  omap (λ p : A * Z, if decide (p.2 = k) then Some p.1 else None) ((x, l) :: ps)
  = (if decide (l = k) then [x] else [])
    ++ omap (λ p : A * Z, if decide (p.2 = k) then Some p.1 else None) ps.
Proof. simpl. by destruct (decide (l = k)). Qed.

Lemma concat_insert_absent {A} (x : A) (l : Z) (f : Z → list A) (ks : list Z) :
  l ∉ ks →
  concat ((λ k, (if decide (l = k) then [x] else []) ++ f k) <$> ks) = concat (f <$> ks).
Proof.
  induction ks as [|k ks IH]; intros Hl; [done|].
  apply not_elem_of_cons in Hl as [Hne Hl]. rewrite !fmap_cons. cbn [concat].
  rewrite decide_False by done. cbn [app]. by rewrite IH.
Qed.

Lemma concat_insert_present {A} (x : A) (l : Z) (f : Z → list A) (ks : list Z) :
  NoDup ks → l ∈ ks →
  concat ((λ k, (if decide (l = k) then [x] else []) ++ f k) <$> ks) ≡ₚ x :: concat (f <$> ks).
Proof.
  induction ks as [|k ks IH]; intros Hnd Hl; [by apply not_elem_of_nil in Hl|].
  apply NoDup_cons in Hnd as [Hfresh Hnd]. rewrite !fmap_cons. cbn [concat].
  destruct (decide (l = k)) as [->|Hne].
  - cbn [app]. by rewrite concat_insert_absent.
  - apply elem_of_cons in Hl as [?|Hl]; [done|]. cbn [app].
    rewrite IH by done. by rewrite Permutation_middle.
Qed.

(** Grouping by key over a range that holds every key loses nothing and
    repeats nothing. *)
Lemma groups_permutation {A} (ps : list (A * Z)) (n : Z) :
  Forall (λ p, 0 ≤ p.2 < n) ps →
  concat ((λ k, omap (λ p : A * Z, if decide (p.2 = k) then Some p.1 else None) ps)
            <$> seqZ 0 n) ≡ₚ ps.*1.
Proof.
  induction ps as [|[x l] ps IH]; intros Hin.
  - simpl. induction (seqZ 0 n) as [|k ks IHk]; [done|]. simpl. apply IHk.
  - apply Forall_cons in Hin as [Hl Hin]. simpl in Hl.
    erewrite list_fmap_ext; [|intros i k _; apply pick_cons].
    rewrite concat_insert_present; [|apply NoDup_seqZ|by apply elem_of_seqZ].
    simpl. by rewrite IH.
Qed.

Lemma pick_self (levels : list Z) (k : Z) :
  omap (λ p : Z * Z, if decide (p.2 = k) then Some p.1 else None) (zip levels levels)
  = filter (λ l, l = k) levels.
Proof.
  induction levels as [|l levels IH]; [done|].
  change (zip (l :: levels) (l :: levels)) with ((l, l) :: zip levels levels).
  rewrite pick_cons, IH, filter_cons. by destruct (decide (l = k)).
Qed.

Lemma zip_in_range {A} (l : list A) (levels : list Z) (P : Z → Prop) :
  Forall P levels → Forall (λ p : A * Z, P p.2) (zip l levels).
Proof.
  intros H. revert l. induction H as [|v levels Hv _ IH]; intros [|x l]; simpl;
    try constructor; done.
Qed.

Lemma length_concat_total {A} (ls : list (list A)) :
  Z.of_nat (length (concat ls)) = total ((λ l, Z.of_nat (length l)) <$> ls).
Proof.
  induction ls as [|l ls IH]; [done|]. rewrite fmap_cons. unfold total in *.
  cbn [concat foldr]. rewrite length_app, Nat2Z.inj_add, IH. done.
Qed.

(** Counting the grids level by level counts every grid once. *)
Lemma level_grids_total (s : Index.t) :
  levels_in_range s →
  total (level_grids s <$> seqZ 0 (Index.max_level s + 1))
  = Z.of_nat (length (Index.grid_levels s)).
Proof.
  intros Hin.
  pose proof (groups_permutation (zip (Index.grid_levels s) (Index.grid_levels s))
                (Index.max_level s + 1)) as Hperm.
  rewrite fst_zip in Hperm by done.
  rewrite <- (Permutation_length (Hperm ltac:(
    apply (zip_in_range _ _ (λ v, 0 ≤ v < Index.max_level s + 1));
    eapply Forall_impl; [exact Hin|]; simpl; lia))).
  rewrite length_concat_total, <- list_fmap_compose.
  f_equal. apply list_fmap_ext. intros i k _. simpl.
  by rewrite pick_self.
Qed.

Lemma bind_ext {St Y A B} (m : M St Y A) (k k' : A → M St Y B) (s : St) :
  (∀ a s', k a s' = k' a s') → bind m k s = bind m k' s.
Proof. intros Hk. unfold bind. destruct (outcome (m s)); [done|]. by rewrite Hk. Qed.

Lemma bind_returned {St Y A B} (m : M St Y A) (k : A → M St Y B) (s s' : St) ys a :
  m s = Run ys (inr a) s' →
  bind m k s = Run (ys ++ yields (k a s')) (outcome (k a s')) (final (k a s')).
Proof. intros Hm. unfold bind. by rewrite Hm. Qed.

Lemma bind_failed {St Y A B} (m : M St Y A) (k : A → M St Y B) (s s' : St) ys e :
  m s = Run ys (inl e) s' → bind m k s = Run ys (inl e) s'.
Proof. intros Hm. unfold bind. by rewrite Hm. Qed.

Lemma for_each_app {St Y A} (l1 l2 : list A) (body : A → M St Y unit) (s : St) :
  for_each (l1 ++ l2) body s = bind (for_each l1 body) (λ _, for_each l2 body) s.
Proof.
  revert s. induction l1 as [|x l1 IH]; intros s.
  - simpl. by rewrite bind_ret.
  - simpl. rewrite bind_assoc. apply bind_ext. intros _ s'. apply IH.
Qed.

(** A loop whose passes each yield one value and leave the state alone. *)
Lemma for_each_yield_map {St Y A} (h : A → Y) (body : A → M St Y unit) (l : list A) (s : St) :
  (∀ x, x ∈ l → body x s = Run [h x] (inr tt) s) →
  for_each l body s = Run (h <$> l) (inr tt) s.
Proof.
  induction l as [|x l IH]; intros Hbody; [done|].
  simpl. unfold bind. rewrite Hbody by left. simpl.
  rewrite IH; [done|]. intros y Hy. apply Hbody. by right.
Qed.

Lemma get_levels_run (s : Index.t) :
  length (Index.grids s) = length (Index.grid_levels s) →
  get_levels s = Run (grids_at_level s <$> seqZ 0 (Index.max_level s + 1)) (inr tt) s.
Proof.
  intros Hlen. unfold get_levels. rewrite bind_get, range_step1, bind_lift_inr.
  apply for_each_yield_map. intros lvl _.
  unfold bind. by rewrite select_grids_run.
Qed.

Lemma pick_length {A} (l : list A) (levels : list Z) (lvl : Z) :
  length l = length levels →
  length (omap (λ p : A * Z, if decide (p.2 = lvl) then Some p.1 else None) (zip l levels))
  = length (filter (λ v, v = lvl) levels).
Proof.
  revert levels. induction l as [|x l IH]; intros [|v levels] Hlen; try done.
  change (zip (x :: l) (v :: levels)) with ((x, v) :: zip l levels).
  rewrite pick_cons, filter_cons, length_app, IH by (simpl in Hlen; lia).
  by destruct (decide (v = lvl)).
Qed.

(** [select_grids]: where the grid array and the level array agree in
    length the call returns, leaves the index as it is, and hands back the
    grids whose entry of [grid_levels] is exactly the level asked for, in
    array order. *)
Theorem select_grids_exact_level (s : Index.t) (lvl : Z) :
  length (Index.grids s) = length (Index.grid_levels s) →
  ∃ gs, select_grids (Y:=DataChunk.t) lvl s = Run [] (inr gs) s ∧
        gs `sublist_of` Index.grids s ∧
        Z.of_nat (length gs) = level_grids s lvl ∧
        ∀ g, g ∈ gs ↔
             ∃ i, Index.grids s !! i = Some g ∧ Index.grid_levels s !! i = Some lvl.
Proof.
  intros Hlen. exists (grids_at_level s lvl). split; [by apply select_grids_run|].
  split; [apply grids_at_level_sublist|]. split.
  - unfold grids_at_level, level_grids. by rewrite pick_length.
  - apply grids_at_level_elem.
Qed.

Lemma select_grids_exact_level_example :
  ∃ gs, select_grids (Y:=DataChunk.t) 1 (Examples.index Examples.five_grids None)
        = Run [] (inr gs) (Examples.index Examples.five_grids None) ∧
        gs `sublist_of` Examples.five_grids ∧
        Z.of_nat (length gs) = 2.
Proof.
  destruct (select_grids_exact_level (Examples.index Examples.five_grids None) 1)
    as (gs & Hrun & Hsub & Hn & _); [reflexivity|].
  exists gs. split; [exact Hrun|]. split; [exact Hsub|]. exact Hn.
Defined.

(** [get_levels]: the generator ends normally, leaves the index alone and
    yields one group for each level from 0 to [max_level], in that order,
    the group of a level being its grids in array order; when every entry
    of [grid_levels] is such a level, the groups together hold every grid
    exactly once. *)
Theorem get_levels_partition (s : Index.t) :
  length (Index.grids s) = length (Index.grid_levels s) →
  let r := get_levels s in
  outcome r = inr tt ∧ final r = s ∧
  yields r = grids_at_level s <$> seqZ 0 (Index.max_level s + 1) ∧
  (levels_in_range s → concat (yields r) ≡ₚ Index.grids s).
Proof.
  intros Hlen. cbv zeta. rewrite get_levels_run by done. cbn [outcome final yields].
  repeat split. intros Hin. unfold grids_at_level.
  rewrite (groups_permutation (zip (Index.grids s) (Index.grid_levels s))).
  - rewrite fst_zip; [done | lia].
  - apply (zip_in_range _ _ (λ v, 0 ≤ v < Index.max_level s + 1)).
    eapply Forall_impl; [exact Hin|]. simpl. lia.
Qed.

Lemma get_levels_partition_example :
  let r := get_levels (Examples.index Examples.five_grids None) in
  outcome r = inr tt ∧
  length (yields r) = 2%nat ∧
  concat (yields r) ≡ₚ Examples.five_grids.
Proof.
  destruct (get_levels_partition (Examples.index Examples.five_grids None))
    as (Hout & _ & Hy & Hperm); [reflexivity|].
  split; [exact Hout|]. split; [by rewrite Hy|].
  apply Hperm. unfold levels_in_range. vm_compute.
  repeat constructor; discriminate.
Defined.
Lemma stats_upto_split (MAXLEVEL : Z) (s : Index.t) (k : Z) :
  0 ≤ k ≤ MAXLEVEL →
  stats_upto MAXLEVEL s k
  = ((λ i, LevelStat.mk (level_grids s i) (Py.wrap_int64 (level_cells s i)) i) <$> seqZ 0 k)
    ++ ((λ i, LevelStat.mk 0 0 i) <$> seqZ k (MAXLEVEL - k)).
Proof.
  intros Hk. unfold stats_upto.
  replace MAXLEVEL with (k + (MAXLEVEL - k)) at 1 by lia.
  rewrite seqZ_app, fmap_app by lia. f_equal.
  - apply list_fmap_ext. intros i x Hx. apply lookup_seqZ in Hx as [-> Hi].
    unfold stats_row. by rewrite decide_True by lia.
  - apply list_fmap_ext. intros i x Hx. apply lookup_seqZ in Hx as [-> Hi].
    unfold stats_row. by rewrite decide_False by lia.
Qed.

Lemma total_fmap_concat {A} (f : A → Z) (ls : list (list A)) :
  total (f <$> concat ls) = total ((λ l, total (f <$> l)) <$> ls).
Proof.
  induction ls as [|l ls IH]; [done|].
  cbn [concat]. rewrite fmap_app, total_app, IH, fmap_cons. done.
Qed.

(** Adding the cells up level by level adds up the cells of every grid. *)
Lemma level_cells_total (s : Index.t) :
  length (Index.grid_dimensions s) = length (Index.grid_levels s) →
  levels_in_range s →
  total (level_cells s <$> seqZ 0 (Index.max_level s + 1))
  = total (cells <$> Index.grid_dimensions s).
Proof.
  intros Hlen Hin.
  pose proof (groups_permutation (zip (Index.grid_dimensions s) (Index.grid_levels s))
                (Index.max_level s + 1)) as Hperm.
  rewrite fst_zip in Hperm by lia.
  rewrite <- (total_perm _ _ (fmap_Permutation cells _ _ (Hperm ltac:(
    apply (zip_in_range _ _ (λ v, 0 ≤ v < Index.max_level s + 1));
    eapply Forall_impl; [exact Hin|]; simpl; lia)))).
  rewrite total_fmap_concat, <- list_fmap_compose. done.
Qed.

(** The method up to its loop: a blank record array of [MAXLEVEL] rows. *)
Lemma initialize_level_stats_loop (MAXLEVEL : Z) (s : Index.t) :
  0 ≤ MAXLEVEL →
  _initialize_level_stats MAXLEVEL s
  = for_each (seqZ 0 (Index.max_level s + 1)) level_stats_pass (counted_upto MAXLEVEL 0 s).
Proof.
  intros Hmax. unfold _initialize_level_stats.
  unfold np_full. rewrite decide_False by lia.
  rewrite bind_lift_inr, bind_modify, range_step1, bind_lift_inr, bind_get.
  cbn [Index.set_level_stats Index.level_stats Index.max_level].
  unfold set_column.
  rewrite decide_True by (by rewrite length_replicate, length_seqZ).
  rewrite bind_lift_inr.
  rewrite <- (length_seqZ 0 MAXLEVEL), blank_levels.
  rewrite decide_True by (by rewrite !length_fmap).
  rewrite bind_lift_inr, zero_column by done.
  rewrite decide_True by (by rewrite !length_fmap).
  rewrite bind_lift_inr, zero_column by done.
  rewrite bind_modify, range_step1, bind_lift_inr.
  by rewrite <- (stats_upto_0 MAXLEVEL s).
Qed.

(** The record array is short: the pass for level [MAXLEVEL] has no row. *)
Lemma level_stats_pass_no_row (MAXLEVEL : Z) (s : Index.t) :
  0 ≤ MAXLEVEL →
  level_stats_pass MAXLEVEL (counted_upto MAXLEVEL MAXLEVEL s)
  = Run [] (inl IndexError) (counted_upto MAXLEVEL MAXLEVEL s).
Proof.
  intros Hmax. unfold level_stats_pass. rewrite bind_get.
  cbn [counted_upto Index.set_level_stats Index.level_stats].
  unfold np_get, Py.np_index. rewrite stats_upto_length.
  rewrite decide_False by lia. rewrite decide_False by lia.
  by rewrite bind_lift_inl.
Qed.

(** [_initialize_level_stats] and [select_grids] agree: after the
    statistics are taken, the [numgrids] entry of a level up to
    [max_level] is the number of grids [select_grids] returns for it. *)
Theorem level_stats_count_selected_grids (MAXLEVEL : Z) (s : Index.t) (lvl : Z) :
  0 ≤ lvl ≤ Index.max_level s →
  Index.max_level s < MAXLEVEL →
  length (Index.grid_dimensions s) = length (Index.grid_levels s) →
  length (Index.grids s) = length (Index.grid_levels s) →
  let s' := final (_initialize_level_stats MAXLEVEL s) in
  ∃ row gs,
    Index.level_stats s' !! Z.to_nat lvl = Some row ∧
    outcome (select_grids (Y:=DataChunk.t) lvl s') = inr gs ∧
    LevelStat.numgrids row = Z.of_nat (length gs).
Proof.
  intros Hlvl Hmax Hdims Hgrids. cbv zeta.
  rewrite initialize_level_stats_run by (done || lia). cbn [final].
  exists (stats_row s (Index.max_level s + 1) lvl), (grids_at_level s lvl).
  split; [|split].
  - cbn [counted_upto Index.set_level_stats Index.level_stats].
    rewrite stats_upto_lookup by lia. by rewrite Z2Nat.id by lia.
  - by rewrite select_grids_run.
  - unfold stats_row. rewrite decide_True by lia. cbn [LevelStat.numgrids].
    unfold grids_at_level, level_grids. by rewrite pick_length.
Qed.

Lemma level_stats_count_selected_grids_example :
  let s' := final (_initialize_level_stats 48 (Examples.index Examples.five_grids None)) in
  ∃ row gs,
    Index.level_stats s' !! Z.to_nat 0 = Some row ∧
    outcome (select_grids (Y:=DataChunk.t) 0 s') = inr gs ∧
    LevelStat.numgrids row = Z.of_nat (length gs).
Proof.
  apply (level_stats_count_selected_grids 48 (Examples.index Examples.five_grids None) 0);
    vm_compute; (reflexivity || (split; discriminate)).
Defined.

(** [_initialize_level_stats] loses no grid and no cell: when every entry
    of [grid_levels] is a level from 0 to [max_level], the [numgrids]
    column adds up to the number of grids and, as long as each level's
    cells fit the [int64] they are kept in, the [numcells] column adds up
    to the cells of all grids. *)
Theorem level_stats_totals (MAXLEVEL : Z) (s : Index.t) :
  -1 ≤ Index.max_level s < MAXLEVEL →
  length (Index.grid_dimensions s) = length (Index.grid_levels s) →
  levels_in_range s →
  let r := _initialize_level_stats MAXLEVEL s in
  outcome r = inr tt ∧
  total (LevelStat.numgrids <$> Index.level_stats (final r))
  = Z.of_nat (length (Index.grid_levels s)) ∧
  ((∀ lvl, 0 ≤ lvl ≤ Index.max_level s → - 2 ^ 63 ≤ level_cells s lvl < 2 ^ 63) →
   total (LevelStat.numcells <$> Index.level_stats (final r))
   = total (cells <$> Index.grid_dimensions s)).
Proof.
  intros Hmax Hlen Hin. cbv zeta.
  rewrite initialize_level_stats_run by done. split; [done|].
  cbn [final counted_upto Index.set_level_stats Index.level_stats].
  rewrite stats_upto_split by lia. rewrite !fmap_app, !total_app, <- !list_fmap_compose.
  split.
  - rewrite <- level_grids_total by done.
    change (LevelStat.numgrids ∘ _ <$> seqZ (Index.max_level s + 1) _)
      with ((λ _ : Z, 0) <$> seqZ (Index.max_level s + 1) (MAXLEVEL - (Index.max_level s + 1))).
    rewrite total_zeros. rewrite Z.add_0_r. done.
  - intros Hfit. rewrite <- level_cells_total by done.
    change (LevelStat.numcells ∘ _ <$> seqZ (Index.max_level s + 1) _)
      with ((λ _ : Z, 0) <$> seqZ (Index.max_level s + 1) (MAXLEVEL - (Index.max_level s + 1))).
    rewrite total_zeros, Z.add_0_r. f_equal.
    apply list_fmap_ext. intros i x Hx. apply lookup_seqZ in Hx as [-> Hi].
    simpl. apply wrap_in_range, Hfit. lia.
Qed.

Lemma level_stats_totals_example :
  let r := _initialize_level_stats 48 (Examples.index Examples.five_grids None) in
  outcome r = inr tt ∧
  total (LevelStat.numgrids <$> Index.level_stats (final r)) = 5 ∧
  total (LevelStat.numcells <$> Index.level_stats (final r)) = 1664.
Proof.
  destruct (level_stats_totals 48 (Examples.index Examples.five_grids None))
    as (Hout & Hgrids & Hcells).
  - vm_compute. split; (reflexivity || discriminate).
  - reflexivity.
  - unfold levels_in_range. vm_compute. repeat constructor; discriminate.
  - split; [exact Hout|]. split; [exact Hgrids|].
    rewrite Hcells; [reflexivity|].
    intros lvl Hlvl. change (Index.max_level _) with 1 in Hlvl.
    assert (lvl = 0 ∨ lvl = 1) as [->| ->] by lia; vm_compute; split; (reflexivity || discriminate).
Defined.

(** What [_initialize_level_stats] leaves: it changes [level_stats] and
    nothing else; the array has [MAXLEVEL] rows, row [i] carries level
    [i], and the rows above [max_level] count no grid and no cell. *)
Theorem initialize_level_stats_shape (MAXLEVEL : Z) (s : Index.t) :
  -1 ≤ Index.max_level s < MAXLEVEL →
  length (Index.grid_dimensions s) = length (Index.grid_levels s) →
  let s' := final (_initialize_level_stats MAXLEVEL s) in
  s' = Index.set_level_stats (Index.level_stats s') s ∧
  length (Index.level_stats s') = Z.to_nat MAXLEVEL ∧
  LevelStat.level <$> Index.level_stats s' = seqZ 0 MAXLEVEL ∧
  ∀ i, Index.max_level s < i < MAXLEVEL →
       Index.level_stats s' !! Z.to_nat i = Some (LevelStat.mk 0 0 i).
Proof.
  intros Hmax Hlen. cbv zeta. rewrite initialize_level_stats_run by done.
  cbn [final counted_upto Index.set_level_stats Index.level_stats].
  split; [done|]. split; [apply stats_upto_length|]. split.
  - unfold stats_upto. rewrite <- list_fmap_compose.
    rewrite <- (list_fmap_id (seqZ 0 MAXLEVEL)) at 2.
    apply list_fmap_ext. intros i x _. simpl. unfold stats_row.
    by destruct (decide _).
  - intros i Hi. rewrite stats_upto_lookup by lia. rewrite Z2Nat.id by lia.
    unfold stats_row. by rewrite decide_False by lia.
Qed.

Lemma initialize_level_stats_shape_example :
  let s' := final (_initialize_level_stats 48 (Examples.index Examples.five_grids None)) in
  length (Index.level_stats s') = 48%nat ∧
  Index.level_stats s' !! 2%nat = Some (LevelStat.mk 0 0 2).
Proof.
  destruct (initialize_level_stats_shape 48 (Examples.index Examples.five_grids None))
    as (_ & Hlen & _ & Hrows).
  - vm_compute. split; (reflexivity || discriminate).
  - reflexivity.
  - split; [exact Hlen|]. apply (Hrows 2). vm_compute. split; reflexivity.
Defined.

(** [_initialize_level_stats] starts from a blank array: what
    [level_stats] held before has no effect on what it holds after. *)
Theorem initialize_level_stats_overwrites (MAXLEVEL : Z) (s : Index.t)
    (old : list LevelStat.t) :
  -1 ≤ Index.max_level s < MAXLEVEL →
  length (Index.grid_dimensions s) = length (Index.grid_levels s) →
  _initialize_level_stats MAXLEVEL (Index.set_level_stats old s)
  = _initialize_level_stats MAXLEVEL s.
Proof.
  intros Hmax Hlen. by rewrite !initialize_level_stats_run.
Qed.

Lemma initialize_level_stats_overwrites_example :
  _initialize_level_stats 48
    (Index.set_level_stats [LevelStat.mk 7 7 7] (Examples.index Examples.five_grids None))
  = _initialize_level_stats 48 (Examples.index Examples.five_grids None).
Proof.
  apply initialize_level_stats_overwrites; [vm_compute; split; (reflexivity || discriminate) | reflexivity].
Defined.

(** The record array has [MAXLEVEL] rows only: with [max_level] at or
    above [MAXLEVEL], [_initialize_level_stats] counts the levels below
    [MAXLEVEL] and then fails with an [IndexError]. *)
Theorem initialize_level_stats_too_deep (MAXLEVEL : Z) (s : Index.t) :
  0 ≤ MAXLEVEL ≤ Index.max_level s →
  length (Index.grid_dimensions s) = length (Index.grid_levels s) →
  _initialize_level_stats MAXLEVEL s
  = Run [] (inl IndexError) (counted_upto MAXLEVEL MAXLEVEL s).
Proof.
  intros Hmax Hlen. rewrite initialize_level_stats_loop by lia.
  replace (Index.max_level s + 1)
    with (MAXLEVEL + (Index.max_level s + 1 - MAXLEVEL)) by lia.
  rewrite seqZ_app by lia. rewrite for_each_app.
  pose proof (level_stats_loop MAXLEVEL s (Z.to_nat MAXLEVEL) 0) as Hloop.
  rewrite Nat.add_0_l, Z2Nat.id in Hloop by lia. change (Z.of_nat 0) with 0 in Hloop.
  rewrite (bind_returned _ _ _ _ _ _ (Hloop ltac:(lia) Hlen)).
  rewrite seqZ_cons by lia. cbn [for_each]. rewrite Z.add_0_l.
  by rewrite (bind_failed _ _ _ _ _ _ (level_stats_pass_no_row MAXLEVEL s ltac:(lia))).
Qed.

Lemma initialize_level_stats_too_deep_example :
  outcome (_initialize_level_stats 1 (Examples.index Examples.five_grids None))
  = inl IndexError.
Proof.
  rewrite (initialize_level_stats_too_deep 1 (Examples.index Examples.five_grids None));
    [reflexivity | vm_compute; split; (reflexivity || discriminate) | reflexivity].
Defined.

(* ===================================================================== *)
(** ** Building the grid tree *)
(* ===================================================================== *)

(** A loop whose passes return and leave the state alone, followed through
    the values of its local variable. *)
Lemma for_fold_steps {St Y A B} (l : list A) (body : B → A → M St Y B)
    (acc : nat → B) (k : nat) (s : St) :
  (∀ i x, l !! i = Some x → body (acc (k + i)%nat) x s = Run [] (inr (acc (S (k + i)))) s) →
  for_fold l (acc k) body s = Run [] (inr (acc (k + length l)%nat)) s.
Proof.
  revert k. induction l as [|x l IH]; intros k Hstep.
  - simpl. by rewrite Nat.add_0_r.
  - cbn [for_fold length].
    pose proof (Hstep 0%nat x eq_refl) as H0. rewrite Nat.add_0_r in H0.
    rewrite (bind_returned _ _ _ _ _ _ H0).
    rewrite (IH (S k)).
    + cbn [yields outcome final app]. do 3 f_equal. lia.
    + intros i y Hy. replace (S k + i)%nat with (k + S i)%nat by lia. by apply Hstep.
Qed.

Lemma for_fold_run {St Y A B} (l : list A) (body : B → A → M St Y B)
    (acc : nat → B) (s : St) :
  (∀ i x, l !! i = Some x → body (acc i) x s = Run [] (inr (acc (S i))) s) →
  for_fold l (acc 0%nat) body s = Run [] (inr (acc (length l))) s.
Proof. intros Hstep. by apply (for_fold_steps l body acc 0). Qed.

Lemma for_fold_app {St Y A B} (l1 l2 : list A) (b : B) (body : B → A → M St Y B) (s : St) :
  for_fold (l1 ++ l2) b body s
  = bind (for_fold l1 b body) (λ b', for_fold l2 b' body) s.
Proof.
  revert b s. induction l1 as [|y l1 IH]; intros b s.
  - simpl. by rewrite bind_ret.
  - simpl. rewrite bind_assoc. apply bind_ext. intros b' s'. apply IH.
Qed.

(** The same loop with a pass that fails. *)
Lemma for_fold_fails {St Y A B} (l : list A) (body : B → A → M St Y B)
    (acc : nat → B) (k : nat) (x : A) (e : exn) (s : St) :
  (∀ i y, (i < k)%nat → l !! i = Some y → body (acc i) y s = Run [] (inr (acc (S i))) s) →
  l !! k = Some x →
  body (acc k) x s = Run [] (inl e) s →
  for_fold l (acc 0%nat) body s = Run [] (inl e) s.
Proof.
  intros Hstep Hx Hfail.
  rewrite <- (take_drop_middle l k x Hx).
  rewrite for_fold_app.
  rewrite (bind_returned _ _ s s [] (acc k)); cycle 1.
  { pose proof (for_fold_run (take k l) body acc s) as Hrun.
    rewrite length_take_le in Hrun by (apply lookup_lt_Some in Hx; lia).
    apply Hrun. intros i y Hy.
    apply lookup_take_Some in Hy as [Hy Hi]. by apply Hstep. }
  cbn [for_fold]. by rewrite (bind_failed _ _ _ _ _ _ Hfail).
Qed.

Lemma written_length {A} (n : Z) (blank : A) (k : nat) (new : list A) :
  (k ≤ length new)%nat → (k ≤ Z.to_nat n)%nat →
  length (written n blank k new) = Z.to_nat n.
Proof.
  intros Hk Hn. unfold written.
  rewrite length_app, length_take, length_drop, length_replicate. lia.
Qed.

Lemma np_set_written {A} (n : Z) (blank : A) (k : nat) (new : list A) (y : A) :
  (k < Z.to_nat n)%nat → new !! k = Some y →
  np_set (written n blank k new) (Z.of_nat k) y = inr (written n blank (S k) new).
Proof.
  intros Hk Hy. rewrite np_set_nat.
  - f_equal. apply insert_take_drop_step; [by rewrite length_replicate | done].
  - rewrite written_length; [done | apply lookup_lt_Some in Hy; lia | lia].
Qed.

Lemma written_all {A} (n : Z) (blank : A) (new : list A) :
  written n blank (length new) new = padded n blank new.
Proof.
  unfold written, padded. by rewrite take_ge, drop_replicate by lia.
Qed.

Lemma tree_upto_all (s : Index.t) : tree_upto s (length (Index.grids s)) = built_tree s.
Proof.
  unfold tree_upto, built_tree. cbv zeta.
  f_equal; rewrite <- written_all; by rewrite length_fmap.
Qed.

(** [_get_grid_tree] with no tree memoized: the loop over the grids, then
    the memoization. *)
Lemma get_grid_tree_loop (s : Index.t) :
  Index._grid_tree s = None →
  0 ≤ Index.num_grids s →
  _get_grid_tree s
  = (arrays <- for_fold (seqZ 0 (Z.of_nat (length (Index.grids s))))
                 (tree_upto s 0) (tree_pass s) ;;
     modify (Index.set_grid_tree (Some arrays)) ;;
     ret arrays) s.
Proof.
  intros Htree Hn. unfold _get_grid_tree. rewrite bind_get, Htree.
  unfold np_full. destruct (decide (Index.num_grids s < 0)); [lia|].
  by rewrite !bind_lift_inr.
Qed.

Lemma tree_pass_step (s : Index.t) (i : nat) :
  parents_ok (Index.grids s) →
  (i < length (Index.grids s))%nat →
  Z.of_nat i < Index.num_grids s →
  tree_pass s (tree_upto s i) (Z.of_nat i) s = Run [] (inr (tree_upto s (S i))) s.
Proof.
  intros Hparents Hi Hn.
  destruct (lookup_lt_is_Some_2 (Index.grids s) i Hi) as [g Hg].
  assert (i < Z.to_nat (Index.num_grids s))%nat as Hrow by lia.
  unfold tree_pass. rewrite (np_get_nat _ _ _ Hg), bind_lift_inr.
  cbn [tree_upto GridTree.left_edge GridTree.right_edge GridTree.level
         GridTree.parent_ind GridTree.num_children GridTree.dimensions].
  rewrite (np_set_written _ _ _ _ (Grid.LeftEdge g)), bind_lift_inr;
    [|lia|by rewrite list_lookup_fmap, Hg].
  rewrite (np_set_written _ _ _ _ (Grid.RightEdge g)), bind_lift_inr;
    [|lia|by rewrite list_lookup_fmap, Hg].
  rewrite (np_set_written _ _ _ _ (Grid.Level g)), bind_lift_inr;
    [|lia|by rewrite list_lookup_fmap, Hg].
  assert ((parent_index (Index.grids s) <$> Index.grids s) !! i
          = Some (parent_index (Index.grids s) g)) as Hpi.
  { by rewrite list_lookup_fmap, Hg. }
  unfold parent_index at 2 in Hpi.
  assert (∀ p, (parent_index (Index.grids s) <$> Index.grids s) !! i = Some p →
    ((parent_ind <- lift (np_set (written (Index.num_grids s) 0 i
                                   (parent_index (Index.grids s) <$> Index.grids s))
                           (Z.of_nat i) p) ;;
     num_children <- lift (np_set (written (Index.num_grids s) 0 i
                                     ((λ g, Z.of_nat (length (Grid.Children g)))
                                        <$> Index.grids s))
                             (Z.of_nat i) (Z.of_nat (length (Grid.Children g)))) ;;
     dimensions <- lift (np_set (written (Index.num_grids s) ((0, 0, 0) : Z3) i
                                   (Grid.ActiveDimensions <$> Index.grids s))
                           (Z.of_nat i) (Grid.ActiveDimensions g)) ;;
     ret (GridTree.mk (Index.num_grids s)
            (written (Index.num_grids s) ((0, 0, 0)%float : F3) (S i)
               (Grid.LeftEdge <$> Index.grids s))
            (written (Index.num_grids s) ((0, 0, 0)%float : F3) (S i)
               (Grid.RightEdge <$> Index.grids s))
            dimensions parent_ind
            (written (Index.num_grids s) 0 (S i) (Grid.Level <$> Index.grids s))
            num_children)) : Meth GridTree.t) s
    = Run [] (inr (tree_upto s (S i))) s) as Hrest.
  { intros p Hp.
    rewrite (np_set_written _ _ _ _ _ Hrow Hp), bind_lift_inr.
    rewrite (np_set_written _ _ _ _ (Z.of_nat (length (Grid.Children g)))), bind_lift_inr;
      [|lia|by rewrite list_lookup_fmap, Hg].
    rewrite (np_set_written _ _ _ _ (Grid.ActiveDimensions g)), bind_lift_inr;
      [|lia|by rewrite list_lookup_fmap, Hg].
    done. }
  destruct (Grid.Parent g) as [j|] eqn:Hp.
  - destruct (lookup_lt_is_Some_2 (Index.grids s) j) as [p Hj].
    { by eapply Hparents. }
    rewrite Hj in Hpi |- *. rewrite bind_ret. by apply Hrest.
  - rewrite bind_ret. by apply Hrest.
Qed.

(** A grid beyond the [num_grids] rows of the arrays cannot be copied. *)
Lemma tree_pass_no_row (s : Index.t) (i : nat) :
  (i < length (Index.grids s))%nat →
  Z.of_nat i = Index.num_grids s →
  tree_pass s (tree_upto s i) (Z.of_nat i) s = Run [] (inl IndexError) s.
Proof.
  intros Hi Hn.
  destruct (lookup_lt_is_Some_2 (Index.grids s) i Hi) as [g Hg].
  unfold tree_pass. rewrite (np_get_nat _ _ _ Hg), bind_lift_inr.
  cbn [tree_upto GridTree.left_edge].
  unfold np_set, Py.np_index. rewrite written_length; [|rewrite length_fmap; lia|lia].
  rewrite decide_False by lia. rewrite decide_False by lia.
  by rewrite bind_lift_inl.
Qed.

(** With no tree memoized, room for every grid in [num_grids] rows and
    every parent in the grid array, the tree is built from the grid
    objects and memoized. *)
Lemma get_grid_tree_run (s : Index.t) :
  Index._grid_tree s = None →
  Z.of_nat (length (Index.grids s)) ≤ Index.num_grids s →
  parents_ok (Index.grids s) →
  _get_grid_tree s
  = Run [] (inr (built_tree s)) (Index.set_grid_tree (Some (built_tree s)) s).
Proof.
  intros Htree Hn Hparents. rewrite get_grid_tree_loop by (done || lia).
  assert (for_fold (seqZ 0 (Z.of_nat (length (Index.grids s))))
            (tree_upto s 0) (tree_pass s) s
          = Run [] (inr (tree_upto s (length (Index.grids s)))) s) as Hloop.
  { etransitivity; [apply (for_fold_run _ _ (tree_upto s)) |
                     by rewrite length_seqZ, Nat2Z.id].
    intros i x Hx. apply lookup_seqZ in Hx as [-> Hi]. rewrite Z.add_0_l.
    apply tree_pass_step; [done | lia | lia]. }
  rewrite (bind_returned _ _ _ _ _ _ Hloop), bind_modify.
  by rewrite tree_upto_all.
Qed.

Lemma padded_exact {A} (n : Z) (blank : A) (rows : list A) :
  n = Z.of_nat (length rows) → padded n blank rows = rows.
Proof.
  intros ->. unfold padded. rewrite Nat2Z.id, Nat.sub_diag. apply app_nil_r.
Qed.

Lemma nested_parents_ok : parents_ok nested_grids.
Proof.
  intros i g j Hg Hp. destruct i as [|[|i]]; simpl in Hg; [| |done].
  - injection Hg as <-. discriminate Hp.
  - injection Hg as <-. injection Hp as <-. simpl. lia.
Qed.



Lemma memo_step_refl s : memo_step s s.
Proof. by left. Qed.

Lemma memo_step_trans s1 s2 s3 : memo_step s1 s2 → memo_step s2 s3 → memo_step s1 s3.
Proof.
  intros [->|[Hnone [t ->]]] [->|[Hnone' [t' ->]]].
  - by left.
  - right. eauto.
  - right. eauto.
  - done.
Qed.

Lemma memo_step_tree s s' t :
  memo_step s s' → Index._grid_tree s = Some t → s' = s.
Proof. intros [->|[Hnone _]] Ht; [done|congruence]. Qed.

Lemma memo_step_frame s s' : memo_step s s' → tree_frame s s'.
Proof. intros [->|[_ [t ->]]]; [apply tree_frame_refl | by eexists]. Qed.

(** The two ways a tree access ends. *)
Lemma get_grid_tree_cases (s : Index.t) :
  (∃ e, _get_grid_tree s = Run [] (inl e) s ∧ Index._grid_tree s = None) ∨
  (∃ tree, _get_grid_tree s = Run [] (inr tree) (Index.set_grid_tree (Some tree) s) ∧
           memo_step s (Index.set_grid_tree (Some tree) s)).
Proof.
  destruct (Index._grid_tree s) as [t|] eqn:Htree.
  { right. exists t. rewrite (get_grid_tree_memoized s t Htree).
    assert (Index.set_grid_tree (Some t) s = s) as ->.
    { destruct s. simpl in Htree. by subst. }
    split; [done | by left]. }
  unfold _get_grid_tree. rewrite bind_get, Htree.
  unfold np_full. destruct (decide (Index.num_grids s < 0)).
  { left. eexists. by rewrite bind_lift_inl. }
  rewrite !bind_lift_inr.
  match goal with
  | |- context [bind (for_fold ?l ?a ?body) ?k s] =>
      assert (quiet (for_fold l a body) s) as [Hy Hf]
  end.
  { apply quiet_for_fold. intros a i.
    repeat (apply quiet_bind; [first [apply quiet_lift | by repeat case_match] | intros ?]).
    apply quiet_ret. }
  rewrite bind_silent by done. rewrite Hf.
  match goal with |- context [outcome ?r] => destruct (outcome r) as [e|arrays] end.
  { left. by eexists. }
  right. exists arrays. rewrite bind_modify. split; [done|]. right. eauto.
Qed.

(** [_get_grid_tree] never yields and either fails, leaving the index as it
    was with no tree memoized, or returns a tree that is memoized from
    then on: the index changes in [_grid_tree] only, and the next call
    returns the same tree without touching the index. *)
Theorem get_grid_tree_memoizes (s : Index.t) :
  let r := _get_grid_tree s in
  yields r = [] ∧
  match outcome r with
  | inl e => final r = s ∧ Index._grid_tree s = None
  | inr tree =>
      final r = Index.set_grid_tree (Some tree) s ∧
      _get_grid_tree (final r) = Run [] (inr tree) (final r)
  end.
Proof.
  cbv zeta.
  destruct (get_grid_tree_cases s) as [(e & Hrun & Hnone)|(tree & Hrun & _)].
  { rewrite Hrun. cbn [yields outcome final]. done. }
  rewrite Hrun. cbn [yields outcome final].
  split; [done|]. split; [done|]. by apply get_grid_tree_memoized.
Qed.

(** [_get_grid_tree] allocates [num_grids] rows: with more grids in the
    array than that, the copy of the first grid without a row fails with
    an [IndexError], and no tree is memoized. *)
Theorem get_grid_tree_too_few_rows (s : Index.t) :
  Index._grid_tree s = None →
  0 ≤ Index.num_grids s < Z.of_nat (length (Index.grids s)) →
  parents_ok (Index.grids s) →
  _get_grid_tree s = Run [] (inl IndexError) s.
Proof.
  intros Htree Hn Hparents. rewrite get_grid_tree_loop by (done || lia).
  apply bind_failed.
  apply (for_fold_fails _ _ (tree_upto s) (Z.to_nat (Index.num_grids s))
           (Index.num_grids s)).
  - intros i y Hi Hy. apply lookup_seqZ in Hy as [-> Hlen]. rewrite Z.add_0_l.
    apply tree_pass_step; [done | lia | lia].
  - apply lookup_seqZ. lia.
  - pose proof (tree_pass_no_row s (Z.to_nat (Index.num_grids s))) as Hrow.
    rewrite Z2Nat.id in Hrow by lia. apply Hrow; lia.
Qed.

Lemma get_grid_tree_too_few_rows_example :
  _get_grid_tree (Index.mk nested_grids 1 [] [] [] [] 1 [] None [] false None None
                    Examples.zero3)
  = Run [] (inl IndexError)
      (Index.mk nested_grids 1 [] [] [] [] 1 [] None [] false None None Examples.zero3).
Proof.
  apply get_grid_tree_too_few_rows.
  - reflexivity.
  - vm_compute. split; (reflexivity || discriminate).
  - apply nested_parents_ok.
Defined.

Lemma relock_parent gsi dle g : Grid.Parent (relock gsi dle g) = Grid.Parent g.
Proof. done. Qed.

Lemma parents_ok_fmap (f : Grid.t → Grid.t) (gs : list Grid.t) :
  (∀ g, Grid.Parent (f g) = Grid.Parent g) → parents_ok gs → parents_ok (f <$> gs).
Proof.
  intros Hf Hok i g' j Hg' Hp. rewrite length_fmap.
  rewrite list_lookup_fmap in Hg'.
  destruct (gs !! i) as [g|] eqn:Hg; [|done]. injection Hg' as <-.
  rewrite Hf in Hp. by eapply Hok.
Qed.

Lemma locked_edge_rows gsi (s : Index.t) :
  let new := relock gsi (Index.ds_domain_left_edge s) <$> Index.grids s in
  take (length (Index.grids s)) (Index.grid_left_edge (locked gsi s))
  = Grid.LeftEdge <$> new ∧
  take (length (Index.grids s)) (Index.grid_right_edge (locked gsi s))
  = Grid.RightEdge <$> new.
Proof.
  cbv zeta. unfold locked, locked_upto.
  cbn [Index.grid_left_edge Index.grid_right_edge].
  split.
  - rewrite take_app_length'; [|by rewrite length_take, !length_fmap, Nat.min_id].
    by rewrite take_ge by (by rewrite !length_fmap).
  - rewrite take_app_length'; [|by rewrite length_take, !length_fmap, Nat.min_id].
    by rewrite take_ge by (by rewrite !length_fmap).
Qed.

(** Lock first, build after: with no tree memoized when
    [lock_grids_to_parents] runs, the tree [_get_grid_tree] then builds
    carries the relocked edges, row for row those of the index's edge
    arrays. *)
Theorem tree_built_after_lock (get_global_startindex : Grid.t → Z3) (s : Index.t) :
  Index._grid_tree s = None →
  edge_rows_ok s →
  Index.num_grids s = Z.of_nat (length (Index.grids s)) →
  parents_ok (Index.grids s) →
  let s1 := final (lock_grids_to_parents get_global_startindex s) in
  ∃ tree,
    outcome (_get_grid_tree s1) = inr tree ∧
    GridTree.left_edge tree = take (length (Index.grids s)) (Index.grid_left_edge s1) ∧
    GridTree.right_edge tree = take (length (Index.grids s)) (Index.grid_right_edge s1) ∧
    GridTree.left_edge tree
    = (λ g, Grid.LeftEdge (relock get_global_startindex (Index.ds_domain_left_edge s) g))
        <$> Index.grids s.
Proof.
  intros Htree Hrows Hn Hparents. cbv zeta.
  rewrite lock_grids_to_parents_run by done. cbn [final].
  set (s1 := locked get_global_startindex s).
  assert (Index.grids s1
          = relock get_global_startindex (Index.ds_domain_left_edge s) <$> Index.grids s)
    as Hgrids by apply locked_grids.
  assert (length (Index.grids s1) = length (Index.grids s)) as Hlen.
  { by rewrite Hgrids, length_fmap. }
  exists (built_tree s1). split; [|split; [|split]].
  - rewrite get_grid_tree_run; [done | done | |].
    + rewrite Hlen. change (Index.num_grids s1) with (Index.num_grids s). lia.
    + rewrite Hgrids. by apply parents_ok_fmap.
  - unfold built_tree. cbn [GridTree.left_edge].
    rewrite padded_exact by (rewrite length_fmap, Hlen; exact Hn).
    rewrite Hgrids. symmetry. apply locked_edge_rows.
  - unfold built_tree. cbn [GridTree.right_edge].
    rewrite padded_exact by (rewrite length_fmap, Hlen; exact Hn).
    rewrite Hgrids. symmetry. apply locked_edge_rows.
  - unfold built_tree. cbn [GridTree.left_edge].
    rewrite padded_exact by (rewrite length_fmap, Hlen; exact Hn).
    by rewrite Hgrids, <- list_fmap_compose.
Qed.

Lemma tree_built_after_lock_example :
  let s1 := final (lock_grids_to_parents Examples.start_index Examples.drifted_index) in
  ∃ tree,
    outcome (_get_grid_tree s1) = inr tree ∧
    GridTree.left_edge tree = [(0, 0, 0); (1, 0, 0)]%float.
Proof.
  destruct (tree_built_after_lock Examples.start_index Examples.drifted_index)
    as (tree & Hout & Hleft & _ & _).
  - reflexivity.
  - split; vm_compute; lia.
  - reflexivity.
  - intros i g j Hg Hp. destruct i as [|[|i]]; simpl in Hg; [| |done];
      injection Hg as <-; discriminate Hp.
  - exists tree. split; [exact Hout|]. rewrite Hleft. reflexivity.
Defined.

(* ===================================================================== *)
(** ** Backing files: every grid once, in filename order *)
(* ===================================================================== *)

Lemma concat_perm {A} (l k : list (list A)) : l ≡ₚ k → concat l ≡ₚ concat k.
Proof.
  induction 1 as [|x l k _ IH|x y l|l k m _ IH1 _ IH2]; simpl.
  - done.
  - by rewrite IH.
  - rewrite !app_assoc. f_equiv. apply Permutation_app_comm.
  - by rewrite IH1.
Qed.

(** Everything the buckets of a dictionary hold. *)
Lemma buckets_add (m : gmap string (list Z)) (fn : string) (x : Z) :
  concat (map_to_list (<[fn := default [] (m !! fn) ++ [x]]> m)).*2
  ≡ₚ x :: concat (map_to_list m).*2.
Proof.
  destruct (m !! fn) as [v|] eqn:Hfn; cbn [default].
  - rewrite <- (insert_delete_eq m).
    rewrite map_to_list_insert by apply lookup_delete_eq.
    rewrite <- (map_to_list_delete m fn v Hfn).
    rewrite !fmap_cons. cbn [snd concat].
    rewrite <- app_assoc. cbn [app]. by rewrite <- Permutation_middle.
  - rewrite map_to_list_insert by done. by rewrite fmap_cons.
Qed.

Lemma buckets_hold_every_grid (grids : list Grid.t) :
  concat (map_to_list (foldl add_grid ∅ grids)).*2 ≡ₚ file_local_id <$> grids.
Proof.
  induction grids as [|g grids IH] using rev_ind.
  - cbn [foldl]. by rewrite map_to_list_empty.
  - rewrite foldl_snoc, add_grid_insert, buckets_add, IH, fmap_app.
    cbn [fmap list_fmap]. by rewrite <- Permutation_cons_append.
Qed.

Lemma sorted_buckets_perm (l : list (string * list Z)) :
  concat (prod_map id Py.sorted_Z <$> l).*2 ≡ₚ concat l.*2.
Proof.
  induction l as [|[fn ids] l IH]; [done|].
  rewrite !fmap_cons. cbn [concat snd prod_map].
  unfold Py.sorted_Z at 1. by rewrite merge_sort_Permutation, IH.
Qed.

Lemma sorted_items_hold_every_grid (grids : list Grid.t) :
  concat (sorted_items grids).*2 ≡ₚ file_local_id <$> grids.
Proof.
  unfold sorted_items.
  rewrite (concat_perm _ _ (fmap_Permutation snd _ _ (merge_sort_Permutation _ _))).
  by rewrite map_to_list_fmap, sorted_buckets_perm, buckets_hold_every_grid.
Qed.

Lemma file_runs_concat (G : Z) (item : string * list Z) :
  0 < G → concat (file_runs G item).*2 = item.2.
Proof.
  intros HG. unfold file_runs.
  destruct (runs_defined item.2 G ltac:(lia)) as [rs Hrs]. rewrite Hrs.
  rewrite <- list_fmap_compose.
  destruct (runs_spec _ _ _ HG Hrs) as [Hcat _].
  rewrite <- Hcat. f_equal.
  etransitivity; [|apply list_fmap_id]. by apply list_fmap_ext.
Qed.

Lemma records_concat (G : Z) (items : list (string * list Z)) :
  0 < G → concat (items ≫= file_runs G).*2 = concat items.*2.
Proof.
  intros HG. induction items as [|item items IH]; [done|].
  rewrite bind_cons, fmap_app, concat_app, fmap_cons, IH.
  cbn [concat]. by rewrite file_runs_concat.
Qed.

Lemma number_files_values fi (l : list (string * list Z)) :
  DataFile.grid_id_values <$> number_files fi l = l.*2.
Proof.
  revert fi. induction l as [|[fn r] l IH]; intros fi; [done|].
  cbn [number_files]. by rewrite !fmap_cons, IH.
Qed.

Lemma number_files_id_bound fi l df :
  df ∈ number_files fi l → fi ≤ DataFile.file_id df.
Proof.
  intros Hdf.
  assert (DataFile.file_id df ∈ DataFile.file_id <$> number_files fi l) as Hid.
  { apply list_elem_of_fmap. by exists df. }
  rewrite number_files_ids in Hid. apply elem_of_seqZ in Hid. lia.
Qed.

Lemma leb_refl (a : string) : String.leb a a = true.
Proof. by destruct (String.leb_total a a). Qed.

Lemma leb_trans (a b c : string) :
  String.leb a b = true → String.leb b c = true → String.leb a c = true.
Proof.
  unfold String.leb. intros Hab Hbc.
  destruct (String.compare a b) eqn:Eab; [| |done].
  - apply String.compare_eq_iff in Eab as ->. done.
  - destruct (String.compare b c) eqn:Ebc; [| |done].
    + apply String.compare_eq_iff in Ebc as <-. by rewrite Eab.
    + apply OrderedTypeEx.String_as_OT.cmp_lt in Eab, Ebc.
      pose proof (OrderedTypeEx.String_as_OT.lt_trans _ _ _ Eab Ebc) as Hac.
      apply OrderedTypeEx.String_as_OT.cmp_lt in Hac.
      unfold OrderedTypeEx.String_as_OT.cmp in Hac. by rewrite Hac.
Qed.

Lemma sorted_items_sorted (grids : list Grid.t) :
  StronglySorted item_le (sorted_items grids).
Proof.
  apply StronglySorted_merge_sort.
  - intros a b c. apply leb_trans.
  - intros a b. apply String.leb_total.
Qed.

Lemma file_runs_name (G : Z) (item p : string * list Z) :
  p ∈ file_runs G item → p.1 = item.1.
Proof.
  unfold file_runs. destruct (runs item.2 G) as [e|rs]; [by intros ?%not_elem_of_nil|].
  intros (r & -> & _)%list_elem_of_fmap. done.
Qed.

Lemma records_sorted (G : Z) (items : list (string * list Z)) :
  StronglySorted item_le items → StronglySorted item_le (items ≫= file_runs G).
Proof.
  induction 1 as [|item items Hsorted IH Hall]; [constructor|].
  rewrite bind_cons. apply StronglySorted_app_2; [| |done].
  - intros p q Hp Hq. apply list_elem_of_bind in Hq as (item' & Hq & Hitem').
    unfold item_le. rewrite (file_runs_name _ _ _ Hp), (file_runs_name _ _ _ Hq).
    rewrite Forall_forall in Hall. by apply Hall.
  - assert (∀ l : list (string * list Z), Forall (λ p, p.1 = item.1) l →
              StronglySorted item_le l) as Hsame.
    { induction 1 as [|p l Hp Hl IHl]; constructor; [done|].
      eapply Forall_impl; [exact Hl|]. intros q Hq. unfold item_le.
      rewrite Hp, Hq. apply leb_refl. }
    apply Hsame, Forall_forall. intros p Hp. by eapply file_runs_name.
Qed.

Lemma number_files_order fi (l : list (string * list Z)) (a b : DataFile.t) :
  StronglySorted item_le l →
  a ∈ number_files fi l → b ∈ number_files fi l →
  DataFile.file_id a ≤ DataFile.file_id b →
  String.leb (DataFile.filename a) (DataFile.filename b) = true.
Proof.
  intros Hsorted. revert fi.
  induction Hsorted as [|[fn r] l Hsorted IH Hall]; intros fi Ha Hb Hid.
  { by apply not_elem_of_nil in Ha. }
  cbn [number_files] in Ha, Hb.
  apply elem_of_cons in Ha as [->|Ha]; apply elem_of_cons in Hb as [->|Hb].
  - apply leb_refl.
  - apply number_files_elem in Hb. rewrite Forall_forall in Hall.
    apply (Hall _ Hb).
  - apply number_files_id_bound in Ha. simpl in Hid. lia.
  - by apply (IH (fi + 1)).
Qed.

(** [_setup_filenames] starts from an empty list of data files: what
    [data_files] held before has no effect, and a second call rebuilds
    the same records instead of appending to them. *)
Theorem setup_filenames_rebuilds (s : Index.t) (old : list DataFile.t) :
  _setup_filenames (Index.set_data_files old s) = _setup_filenames s ∧
  let r := _setup_filenames s in
  _setup_filenames (final r) = Run [] (inr tt) (final r).
Proof.
  cbv zeta. rewrite !setup_filenames_run. by destruct s.
Qed.

(** [_setup_filenames] stores every grid in exactly one data file: for a
    positive maximum of grids per record, the grid ids of all the records
    together are a permutation of the file-local ids of all the grids. *)
Theorem setup_filenames_every_grid_once (s : Index.t) :
  0 < GRID_CHUNKSIZE s →
  concat (DataFile.grid_id_values <$> Index.data_files (final (_setup_filenames s)))
  ≡ₚ file_local_id <$> Index.grids s.
Proof.
  intros HG. rewrite setup_filenames_run.
  cbn [final Index.set_data_files Index.data_files].
  rewrite number_files_values, records_concat by done.
  apply sorted_items_hold_every_grid.
Qed.

Lemma setup_filenames_every_grid_once_example :
  concat (DataFile.grid_id_values
            <$> Index.data_files
                  (final (_setup_filenames (Examples.index Examples.five_grids (Some 2)))))
  ≡ₚ [4; 0; 2; 1; 3].
Proof.
  apply (setup_filenames_every_grid_once (Examples.index Examples.five_grids (Some 2))).
  reflexivity.
Defined.

(** [_setup_filenames] numbers the data files in filename order: of two
    records, the one with the smaller [file_id] never has the greater
    filename, so the records of one file are numbered consecutively. *)
Theorem setup_filenames_file_order (s : Index.t) (a b : DataFile.t) :
  let files := Index.data_files (final (_setup_filenames s)) in
  a ∈ files → b ∈ files →
  DataFile.file_id a ≤ DataFile.file_id b →
  String.leb (DataFile.filename a) (DataFile.filename b) = true.
Proof.
  cbv zeta. rewrite setup_filenames_run.
  cbn [final Index.set_data_files Index.data_files].
  apply number_files_order, records_sorted, sorted_items_sorted.
Qed.

Lemma setup_filenames_file_order_example :
  String.leb "a.h5" "b.h5" = true.
Proof.
  apply (setup_filenames_file_order (Examples.index Examples.five_grids (Some 2))
           (DataFile.mk "a.h5" 0 [2; 3]) (DataFile.mk "b.h5" 2 [4])).
  - vm_compute. set_solver.
  - vm_compute. set_solver.
  - vm_compute. discriminate.
Defined.

(* ===================================================================== *)
(** ** The "io" strategy: what the chunks carry, and the index *)
(* ===================================================================== *)

(** A loop whose passes keep a relation [I] to the state they start in,
    and yield values good for the state they leave. *)
Lemma for_each_inv {St Y A} (I : St → St → Prop) (P : St → Y → Prop)
    (body : A → M St Y unit) (l : list A) :
  (∀ s, I s s) →
  (∀ s1 s2 s3, I s1 s2 → I s2 s3 → I s1 s3) →
  (∀ s s' y, I s s' → P s y → P s' y) →
  (∀ x s, x ∈ l → I s (final (body x s)) ∧ Forall (P (final (body x s))) (yields (body x s))) →
  ∀ s, I s (final (for_each l body s)) ∧
       Forall (P (final (for_each l body s))) (yields (for_each l body s)).
Proof.
  intros Hrefl Htrans Hmono. induction l as [|x l IH]; intros Hbody s.
  { simpl. split; [apply Hrefl | constructor]. }
  destruct (Hbody x s ltac:(left)) as [HI HP].
  cbn [for_each]. unfold bind.
  destruct (outcome (body x s)) as [e|[]]; cbn [final yields]; [done|].
  destruct (IH (λ y s' Hy, Hbody y s' ltac:(by right)) (final (body x s))) as [HI2 HP2].
  split; [by eapply Htrans|].
  apply Forall_app. split; [|done].
  eapply Forall_impl; [exact HP|]. intros y. by apply Hmono.
Qed.

Section IoCounts.
Variable indexer_count : Indexer.t → Predicate → Z * (gmap Z Z * list Z).
Variable _split_fields : list string → list string * list string.
Variable ytcfg : Config.t.

Lemma io_chunk_counted_mono dobj cache s s' dc :
  memo_step s s' →
  io_chunk_counted indexer_count dobj cache s dc →
  io_chunk_counted indexer_count dobj cache s' dc.
Proof.
  intros Hstep (Hty & Hcache & tree & m & Htree & Hrest).
  rewrite (memo_step_tree _ _ _ Hstep Htree).
  split; [done|]. split; [done|]. by exists tree, m.
Qed.

Lemma io_batch_counted dobj cache f g_indices s :
  let r := io_batch indexer_count dobj cache f g_indices s in
  memo_step s (final r) ∧
  Forall (io_chunk_counted indexer_count dobj cache (final r)) (yields r).
Proof.
  cbv zeta. unfold io_batch. rewrite bind_get.
  destruct (batch_mask _ g_indices) as [e|m] eqn:Hm.
  { rewrite bind_lift_inl. split; [apply memo_step_refl | constructor]. }
  rewrite bind_lift_inr.
  destruct (get_grid_tree_cases s) as [(e & Hrun & _)|(tree & Hrun & Hstep)].
  { rewrite (bind_failed _ _ _ _ _ _ Hrun). split; [apply memo_step_refl | constructor]. }
  rewrite (bind_returned _ _ _ _ _ _ Hrun). cbn [app].
  unfold _count_selection. rewrite bind_ret, bind_get.
  cbn [Index.set_grid_tree Index.grids].
  match goal with |- context [lift ?r] => destruct r as [e|grids] end.
  { rewrite bind_lift_inl. cbn [final yields]. split; [done | constructor]. }
  rewrite bind_lift_inr. unfold yield. cbn [final yields outcome].
  split; [done|]. constructor; [|constructor].
  split; [done|]. split; [done|]. exists tree, m.
  split; [done|]. split; [|done].
  by apply batch_mask_count in Hm as [-> _].
Qed.

Lemma io_file_counted dobj cache size f s :
  let r := io_file indexer_count dobj cache size f s in
  memo_step s (final r) ∧
  Forall (io_chunk_counted indexer_count dobj cache (final r)) (yields r).
Proof.
  cbv zeta. unfold io_file.
  destruct (obj_grid_id_values f) as [e|gs].
  { rewrite bind_lift_inl. split; [apply memo_step_refl | constructor]. }
  rewrite bind_lift_inr.
  destruct (runs gs size) as [e|batches].
  { rewrite bind_lift_inl. split; [apply memo_step_refl | constructor]. }
  rewrite bind_lift_inr.
  apply (for_each_inv memo_step (io_chunk_counted indexer_count dobj cache)).
  - apply memo_step_refl.
  - apply memo_step_trans.
  - intros ? ? ?. apply io_chunk_counted_mono.
  - intros b s' _. apply io_batch_counted.
Qed.

Lemma chunk_io_counted dobj cache local_only preload_fields chunk_sizing s :
  let r := _chunk_io indexer_count _split_fields ytcfg dobj cache local_only
             preload_fields chunk_sizing s in
  memo_step s (final r) ∧
  Forall (io_chunk_counted indexer_count dobj cache (final r)) (yields r).
Proof.
  cbv zeta. unfold _chunk_io. cbn zeta.
  destruct (DataObj._current_chunk dobj) as [c|]; cycle 1.
  { rewrite bind_raise. split; [apply memo_step_refl | constructor]. }
  destruct (DataChunk._indexer c) as [ix|]; cycle 1.
  { rewrite bind_raise. split; [apply memo_step_refl | constructor]. }
  rewrite bind_ret, bind_get.
  match goal with |- context [lift ?r] => destruct r as [e|gobjs] end.
  { rewrite bind_lift_inl. split; [apply memo_step_refl | constructor]. }
  rewrite bind_lift_inr.
  match goal with |- context [lift ?r] => destruct r as [e|sz] end.
  { rewrite bind_lift_inl. split; [apply memo_step_refl | constructor]. }
  rewrite bind_lift_inr.
  apply (for_each_inv memo_step (io_chunk_counted indexer_count dobj cache)).
  - apply memo_step_refl.
  - apply memo_step_trans.
  - intros ? ? ?. apply io_chunk_counted_mono.
  - intros f s' _. apply io_file_counted.
Qed.

(** [_chunk_io] and the index: whatever the arguments and however the run
    ends, the call changes nothing in the index except that it may
    memoize the grid tree; if a tree was memoized before, the index is
    left exactly as it was. *)
Theorem chunk_io_frame dobj cache local_only preload_fields chunk_sizing s :
  let r := _chunk_io indexer_count _split_fields ytcfg dobj cache local_only
             preload_fields chunk_sizing s in
  tree_frame s (final r) ∧
  (final r = s ∨ Index._grid_tree s = None) ∧
  (∀ t, Index._grid_tree s = Some t → final r = s).
Proof.
  cbv zeta.
  destruct (chunk_io_counted dobj cache local_only preload_fields chunk_sizing s)
    as [Hstep _].
  split; [by apply memo_step_frame|]. split.
  - destruct Hstep as [->|[Hnone _]]; [by left | by right].
  - intros t. by apply memo_step_tree.
Qed.

(** The cell count of an io chunk: every chunk [_chunk_io] yields has type
    ["io"], the [cache] flag the call was given, and as its size the count
    of the data object's selector by the chunk's own indexer, one made
    afresh for the batch (nothing memoized, a mask of one entry per grid)
    over the tree the index holds memoized when the call ends; no count is
    taken over from the base chunk. *)
Theorem chunk_io_counts dobj cache local_only preload_fields chunk_sizing s :
  let r := _chunk_io indexer_count _split_fields ytcfg dobj cache local_only
             preload_fields chunk_sizing s in
  Forall (io_chunk_counted indexer_count dobj cache (final r)) (yields r).
Proof.
  cbv zeta.
  by destruct (chunk_io_counted dobj cache local_only preload_fields chunk_sizing s).
Qed.
End IoCounts.

Lemma np_index_defined (n : nat) (i : Z) :
  - Z.of_nat n ≤ i < Z.of_nat n → ∃ k, Py.np_index n i = inr k ∧ (k < n)%nat.
Proof.
  intros Hi. unfold Py.np_index.
  destruct (decide (0 ≤ i < Z.of_nat n)); [exists (Z.to_nat i); split; [done|lia]|].
  rewrite decide_True by lia. exists (Z.to_nat (i + Z.of_nat n)). split; [done|lia].
Qed.

Lemma np_take_defined {A} (l : list A) (ind : list Z) :
  Forall (λ i, - Z.of_nat (length l) ≤ i < Z.of_nat (length l)) ind →
  ∃ r, np_take l ind = inr r.
Proof.
  induction 1 as [|i ind Hi _ [r IH]]; [by exists []|].
  destruct (np_index_defined _ _ Hi) as (k & Hk & Hlt).
  destruct (lookup_lt_is_Some_2 l k Hlt) as [a Ha].
  exists (a :: r). cbn [np_take]. unfold np_get. by rewrite Hk, Ha, IH.
Qed.

Lemma np_take_list_defined {A} (l : list A) (ind : list Z) :
  ind ≠ [] →
  Forall (λ i, - Z.of_nat (length l) ≤ i < Z.of_nat (length l)) ind →
  ∃ r, np_take_list l ind = inr r.
Proof.
  intros Hne Hall. destruct ind as [|i ind]; [done|].
  by apply np_take_defined.
Qed.

Lemma set_ones_defined (m : list Z) (g_indices : list Z) :
  Forall (λ g, - Z.of_nat (length m) ≤ g < Z.of_nat (length m)) g_indices →
  ∃ m', set_ones m g_indices = inr m'.
Proof.
  intros Hall. revert m Hall.
  induction g_indices as [|g rest IH]; intros m Hall; [by exists m|].
  apply Forall_cons in Hall as [Hg Hrest].
  destruct (np_index_defined _ _ Hg) as (k & Hk & _).
  cbn [set_ones]. unfold np_set. rewrite Hk.
  apply IH. by rewrite length_insert.
Qed.

(** A loop whose passes all return, from states that keep [I]. *)
Lemma for_each_returns {St Y A} (I : St → Prop) (body : A → M St Y unit)
    (l : list A) (s : St) :
  I s →
  (∀ x s', x ∈ l → I s' → outcome (body x s') = inr tt ∧ I (final (body x s'))) →
  outcome (for_each l body s) = inr tt ∧ I (final (for_each l body s)).
Proof.
  revert s. induction l as [|x l IH]; intros s Hs Hbody; [done|].
  destruct (Hbody x s ltac:(left) Hs) as [Hout Hfin].
  cbn [for_each]. unfold bind. rewrite Hout. cbn [outcome final].
  apply IH; [done|]. intros y s' Hy. apply Hbody. by right.
Qed.

Lemma runs_elem {A} (l : list A) (size : Z) (bs : list (list A)) (b : list A) (x : A) :
  0 < size → runs l size = inr bs → b ∈ bs → x ∈ b → x ∈ l.
Proof.
  intros Hsize Hruns Hb Hx.
  destruct (runs_spec _ _ _ Hsize Hruns) as [<- _]. by eapply elem_of_concat_run.
Qed.

Lemma planned_intro (fobjs : list ChunkObj) (sz : Z) (f : ChunkObj) gs batches b :
  f ∈ fobjs → obj_grid_id_values f = inr gs → runs gs sz = inr batches → b ∈ batches →
  (f, b) ∈ planned fobjs sz.
Proof.
  intros Hf Hgs Hruns Hb. unfold planned. apply list_elem_of_bind.
  exists f. split; [|done]. unfold planned_file. rewrite Hgs, Hruns.
  apply list_elem_of_fmap. by exists b.
Qed.

Section IoRuns.
Variable indexer_count : Indexer.t → Predicate → Z * (gmap Z Z * list Z).
Variable _split_fields : list string → list string * list string.
Variable ytcfg : Config.t.

(** The tree access of a batch, before and after the tree is memoized. *)
Lemma get_grid_tree_from (s s' : Index.t) (tree : GridTree.t) :
  outcome (_get_grid_tree s) = inr tree →
  s' = s ∨ s' = Index.set_grid_tree (Some tree) s →
  _get_grid_tree s' = Run [] (inr tree) (Index.set_grid_tree (Some tree) s).
Proof.
  intros Htree Hs'.
  destruct (get_grid_tree_cases s) as [(e & Hrun & _)|(tree' & Hrun & _)].
  { rewrite Hrun in Htree. discriminate Htree. }
  rewrite Hrun in Htree. cbn [outcome] in Htree. injection Htree as ->.
  destruct Hs' as [->| ->]; [exact Hrun|].
  rewrite (get_grid_tree_memoized (Index.set_grid_tree (Some tree) s) tree)
    by (by destruct s).
  done.
Qed.

Lemma io_batch_returns dobj cache f g_indices s s' tree :
  outcome (_get_grid_tree s) = inr tree →
  s' = s ∨ s' = Index.set_grid_tree (Some tree) s →
  Forall (λ g, - Z.of_nat (length (Index.grids s)) ≤ g < Z.of_nat (length (Index.grids s)))
    g_indices →
  (∀ m, batch_mask (length (Index.grids s)) g_indices = inr m →
        let order := (indexer_count (Indexer.mk tree (Some m) ∅ [])
                        (DataObj.selector dobj)).2.2 in
        order ≠ [] ∧
        Forall (λ i, - Z.of_nat (length (Index.grids s)) ≤ i
                     < Z.of_nat (length (Index.grids s))) order) →
  let r := io_batch indexer_count dobj cache f g_indices s' in
  outcome r = inr tt ∧ final r = Index.set_grid_tree (Some tree) s.
Proof.
  intros Htree Hs' Hids Horder. cbv zeta.
  assert (Index.grids s' = Index.grids s) as Hgrids by (by destruct Hs' as [->| ->]).
  unfold io_batch. rewrite bind_get, Hgrids.
  destruct (set_ones_defined (replicate (length (Index.grids s)) 0) g_indices) as [m Hm].
  { by rewrite length_replicate. }
  unfold batch_mask in Horder |- *. rewrite Hm, bind_lift_inr.
  rewrite (bind_returned _ _ _ _ _ _ (get_grid_tree_from s s' tree Htree Hs')).
  unfold _count_selection. rewrite bind_ret, bind_get.
  cbn [snd Indexer.grid_order Index.set_grid_tree Index.grids].
  destruct (Horder m Hm) as [Hne Hin].
  destruct (np_take_list_defined (Index.grids s) _ Hne Hin) as [grids Htake].
  rewrite Htake, bind_lift_inr. done.
Qed.

Lemma io_file_returns dobj cache size f s s' tree (fobjs : list ChunkObj) :
  0 < size →
  outcome (_get_grid_tree s) = inr tree →
  s' = s ∨ s' = Index.set_grid_tree (Some tree) s →
  f ∈ fobjs →
  file_in_range (length (Index.grids s)) f →
  orders_ok indexer_count dobj (length (Index.grids s)) tree (planned fobjs size) →
  let r := io_file indexer_count dobj cache size f s' in
  outcome r = inr tt ∧
  (final r = s ∨ final r = Index.set_grid_tree (Some tree) s).
Proof.
  intros Hsize Htree Hs' Hf (df & -> & Hids) Horder. cbv zeta. unfold io_file.
  cbn [obj_grid_id_values]. rewrite bind_lift_inr.
  destruct (runs_defined (DataFile.grid_id_values df) size ltac:(lia)) as [bs Hbs].
  rewrite Hbs, bind_lift_inr.
  apply (for_each_returns (λ s', s' = s ∨ s' = Index.set_grid_tree (Some tree) s));
    [done|].
  intros b s'' Hb Hs''.
  destruct (io_batch_returns dobj cache (FileObj df) b s s'' tree Htree Hs'')
    as [Hout Hfin].
  - apply Forall_forall. intros g Hg. rewrite Forall_forall in Hids.
    apply Hids. by eapply runs_elem.
  - intros m Hm. apply (Horder (FileObj df, b) m); [|done].
    by eapply planned_intro.
  - split; [done | by right].
Qed.

(** Once its setup gave a positive batch size, [_chunk_io] runs to its
    end when the tree can be had, the files' grid ids index the grid
    array and every batch's indexer orders grids of the array, at least
    one. *)
Lemma chunk_io_setup_completes dobj cache local_only preload_fields chunk_sizing s sz tree :
  io_setup ytcfg dobj chunk_sizing s sz →
  0 < sz →
  outcome (_get_grid_tree s) = inr tree →
  Forall (file_in_range (length (Index.grids s))) (chunk_objs dobj) →
  orders_ok indexer_count dobj (length (Index.grids s)) tree (planned (chunk_objs dobj) sz) →
  let r := _chunk_io indexer_count _split_fields ytcfg dobj cache local_only
             preload_fields chunk_sizing s in
  outcome r = inr tt ∧
  Forall2 (io_chunk (length (Index.grids s))) (planned (chunk_objs dobj) sz) (yields r).
Proof.
  intros Hsetup Hsz Htree Hfiles Horder. cbv zeta.
  pose proof (chunk_io_setup_follows indexer_count _split_fields ytcfg dobj cache
                local_only preload_fields chunk_sizing s sz Hsetup)
    as (done_ & _ & Hrel & Hall).
  destruct Hsetup as (c & ix & gobjs & Hc & Hix & Hg & Hsize).
  assert (outcome (_chunk_io indexer_count _split_fields ytcfg dobj cache local_only
                     preload_fields chunk_sizing s) = inr tt) as Hout.
  { unfold _chunk_io. cbn zeta. rewrite Hc, Hix.
    rewrite bind_ret, bind_get, Hg, bind_lift_inr.
    rewrite sorted_by_key_length, (np_take_length _ _ _ Hg), length_fmap.
    rewrite length_map_to_list, Hsize, bind_lift_inr.
    replace (DataChunk.objs c) with (chunk_objs dobj)
      by (unfold chunk_objs; by rewrite Hc).
    apply (for_each_returns (λ s', s' = s ∨ s' = Index.set_grid_tree (Some tree) s));
      [by left|].
    intros f s' Hf Hs'.
    apply (io_file_returns dobj cache sz f s s' tree (chunk_objs dobj)); try done.
    rewrite Forall_forall in Hfiles. by apply Hfiles. }
  split; [exact Hout|].
  by rewrite <- (Hall ltac:(by eexists)).
Qed.

(** [_chunk_io] runs to its end: with a positive batch size, a tree that
    can be had, every object a data file whose grid ids index the grid
    array, and for each planned batch an indexer that orders at least one
    grid, all of them in the array, the generator returns, changes
    nothing in the index except that it may memoize the tree, and yields
    exactly one io chunk for each planned batch, in the order of the
    files and of their batches. *)
Theorem chunk_io_completes dobj cache local_only preload_fields chunk_sizing s sz tree :
  io_setup ytcfg dobj chunk_sizing s sz →
  sizing_defined ytcfg dobj chunk_sizing s →
  0 < sz →
  outcome (_get_grid_tree s) = inr tree →
  Forall (file_in_range (length (Index.grids s))) (chunk_objs dobj) →
  orders_ok indexer_count dobj (length (Index.grids s)) tree (planned (chunk_objs dobj) sz) →
  let r := _chunk_io indexer_count _split_fields ytcfg dobj cache local_only
             preload_fields chunk_sizing s in
  outcome r = inr tt ∧
  tree_frame s (final r) ∧ (Index._grid_tree s = Some tree → final r = s) ∧
  Forall2 (io_chunk (length (Index.grids s))) (planned (chunk_objs dobj) sz) (yields r).
Proof.
  intros Hsetup _ Hsz Htree Hfiles Horder. cbv zeta.
  destruct (chunk_io_setup_completes dobj cache local_only preload_fields chunk_sizing
              s sz tree Hsetup Hsz Htree Hfiles Horder) as [Hout Hrel].
  destruct (chunk_io_counted indexer_count _split_fields ytcfg dobj cache local_only
              preload_fields chunk_sizing s) as [Hstep _].
  split; [exact Hout|]. split; [by apply memo_step_frame|].
  split; [|exact Hrel]. by apply memo_step_tree.
Qed.

(** A batch size that is not positive: a size of zero makes the first
    file's [range] fail with a [ValueError], a negative size makes every
    [range] empty, so that the generator returns without a chunk; either
    way nothing is yielded and the index is left as it was. *)
Theorem chunk_io_degenerate_size dobj cache local_only preload_fields chunk_sizing s sz :
  io_setup ytcfg dobj chunk_sizing s sz →
  sz ≤ 0 →
  Forall (λ f, ∃ df, f = FileObj df) (chunk_objs dobj) →
  let r := _chunk_io indexer_count _split_fields ytcfg dobj cache local_only
             preload_fields chunk_sizing s in
  yields r = [] ∧ final r = s ∧
  (sz < 0 → outcome r = inr tt) ∧
  (sz = 0 → chunk_objs dobj ≠ [] → outcome r = inl ValueError).
Proof.
  intros (c & ix & gobjs & Hc & Hix & Hg & Hsize) Hsz Hfiles. cbv zeta.
  unfold _chunk_io. cbn zeta. rewrite Hc, Hix.
  rewrite bind_ret, bind_get, Hg, bind_lift_inr.
  rewrite sorted_by_key_length, (np_take_length _ _ _ Hg), length_fmap.
  rewrite length_map_to_list, Hsize, bind_lift_inr.
  replace (match DataObj._current_chunk dobj with
           | Some c0 => DataChunk.objs c0
           | None => DataObj._chunk_info dobj
           end) with (chunk_objs dobj) by (unfold chunk_objs; by rewrite Hc).
  destruct (decide (sz = 0)) as [->|Hne].
  - destruct (chunk_objs dobj) as [|f rest]; [done|].
    apply Forall_cons in Hfiles as [[df ->] _].
    cbn [for_each].
    rewrite (bind_failed _ _ s s [] ValueError); [by repeat split; try lia|].
    unfold io_file. cbn [obj_grid_id_values].
    rewrite bind_lift_inr. unfold runs, Py.range. by rewrite decide_True by done.
  - assert (for_each (chunk_objs dobj) (io_file indexer_count dobj cache sz) s
            = Run [] (inr tt) s) as ->.
    { induction Hfiles as [|f rest [df ->] _ IH]; [done|].
      cbn [for_each].
      rewrite (bind_returned _ _ s s [] tt); [by rewrite IH|].
      unfold io_file. cbn [obj_grid_id_values].
      by rewrite bind_lift_inr, runs_neg by lia. }
    split; [done|]. split; [done|]. split; [done | lia].
Qed.

(** C1, as the code has it: in mode ["auto"], with at least one grid in the
    selection's indexer, the batch size is
    [max(G // ceil(G * nproc / n), 1)] where [n] is the number of grids in
    the selection (not in a file) and the product, the quotient and the
    ceiling are those the code takes in [float64]; the chunks yielded
    are, in order, the chunks of each file's grid ids cut into runs of
    that size, and those runs lose no grid id, keep the order, and have
    that size except possibly the last of a file; and where the tree can
    be had, the files' grid ids index the grid array and every batch's
    indexer orders grids of the array, the generator runs to its end and
    yields one chunk for every such run. *)
Theorem chunk_io_auto_batches dobj cache local_only preload_fields s c ix gobjs :
  DataObj._current_chunk dobj = Some c →
  DataChunk._indexer c = Some ix →
  np_take (Index.grids s) (map_to_list (Indexer.cell_count_by_grid ix)).*1 = inr gobjs →
  (0 < size (Indexer.cell_count_by_grid ix))%nat →
  let G := GRID_CHUNKSIZE s in
  let nproc := Config.__global_parallel_size ytcfg in
  let n := Z.of_nat (size (Indexer.cell_count_by_grid ix)) in
  auto_size_defined G nproc n →
  let chunking_factor := astype_int (np_ceil (of_int G * of_int nproc / of_int n)%float) in
  let sz := Z.max (G `div` chunking_factor) 1 in
  let r := _chunk_io indexer_count _split_fields ytcfg dobj cache local_only
             preload_fields "auto" s in
  follows (io_chunk (length (Index.grids s))) (planned (chunk_objs dobj) sz) r ∧
  (∀ f gs, f ∈ chunk_objs dobj → obj_grid_id_values f = inr gs →
    ∃ batches,
      planned_file sz f = (λ b, (f, b)) <$> batches ∧
      concat batches = gs ∧
      Forall (λ b, 0 < Z.of_nat (length b) ≤ sz) batches ∧
      ∀ i b, batches !! i = Some b → (S i < length batches)%nat →
             Z.of_nat (length b) = sz) ∧
  (∀ tree,
     outcome (_get_grid_tree s) = inr tree →
     Forall (file_in_range (length (Index.grids s))) (chunk_objs dobj) →
     orders_ok indexer_count dobj (length (Index.grids s)) tree
       (planned (chunk_objs dobj) sz) →
     outcome r = inr tt ∧
     Forall2 (io_chunk (length (Index.grids s))) (planned (chunk_objs dobj) sz)
       (yields r)).
Proof.
  intros Hc Hix Hg Hn. cbv zeta. intros _.
  set (sz := Z.max _ 1).
  assert (0 < sz) as Hpos by (unfold sz; lia).
  assert (io_setup ytcfg dobj "auto" s sz) as Hsetup.
  { exists c, ix, gobjs. split_and!; try done.
    unfold io_chunk_size. rewrite bool_decide_eq_true_2 by done.
    by rewrite bool_decide_eq_true_2 by lia. }
  split; [by apply chunk_io_setup_follows|]. split.
  - intros f gs Hf Hgs. unfold planned_file. rewrite Hgs.
    destruct (runs_defined gs sz ltac:(lia)) as [batches Hruns].
    rewrite Hruns.
    exists batches. split; [done|]. by apply (runs_spec gs).
  - intros tree Htree Hfiles Horder.
    by apply (chunk_io_setup_completes dobj cache local_only preload_fields "auto"
                s sz tree).
Qed.
End IoRuns.

Lemma count_all_order (tree : GridTree.t) (m : list Z) (sel : Predicate) :
  Forall (λ i, 0 ≤ i < Z.of_nat (length (GridTree.dimensions tree)))
    (Examples.count_all (Indexer.mk tree (Some m) ∅ []) sel).2.2.
Proof.
  unfold Examples.count_all. cbn [snd Indexer.mask Indexer.tree].
  apply Forall_forall. intros i Hi.
  apply list_elem_of_fmap in Hi as (k & -> & Hk).
  apply list_elem_of_filter in Hk as [_ Hk]. apply elem_of_seq in Hk. lia.
Qed.

Lemma example_files_in_range :
  Forall (file_in_range 5) (chunk_objs Examples.dobj).
Proof.
  apply Forall_forall. intros f Hf. vm_compute in Hf.
  repeat (apply elem_of_cons in Hf as [->|Hf]);
    [| | | by apply not_elem_of_nil in Hf];
    (eexists; split; [reflexivity|]); cbn [DataFile.grid_id_values];
    repeat constructor; lia.
Qed.

(** One batch of an example: its mask and the order it gives, computed. *)
Ltac batch_order Hfb Hm :=
  match type of Hfb with ?fb = _ => subst fb end;
  vm_compute in Hm; injection Hm as Hm;
  match type of Hm with _ = ?m => subst m end;
  let Hnil := fresh "Hnil" in
  intros Hnil; vm_compute in Hnil; discriminate Hnil.

Lemma example_orders_ok :
  orders_ok Examples.count_all Examples.dobj 5 treed_tree
    (planned (chunk_objs Examples.dobj) 1).
Proof.
  assert (length (GridTree.dimensions treed_tree) = 5%nat) as Hd
    by (vm_compute; reflexivity).
  intros fb m Hfb Hm. cbv zeta. split.
  - vm_compute in Hfb.
    do 5 (apply elem_of_cons in Hfb as [Hfb|Hfb]; [batch_order Hfb Hm|]).
    destruct (not_elem_of_nil _ Hfb).
  - eapply Forall_impl; [apply count_all_order|].
    intros i Hi. cbv beta in Hi. rewrite Hd in Hi. lia.
Qed.

Lemma chunk_io_completes_example :
  let r := _chunk_io Examples.count_all Examples.split Examples.cfg Examples.dobj
             true false None "just_one" treed_index in
  outcome r = inr tt ∧ final r = treed_index ∧ length (yields r) = 5%nat.
Proof.
  assert (length (Index.grids treed_index) = 5%nat) as Hn
    by (vm_compute; reflexivity).
  destruct (chunk_io_completes Examples.count_all Examples.split Examples.cfg
              Examples.dobj true false None "just_one" treed_index 1 treed_tree)
    as (Hout & _ & Hfinal & Hrel).
  - exists (Examples.base_chunk Examples.selection), Examples.selection.
    eexists. split; [reflexivity|]. split; [reflexivity|].
    split; [vm_compute; reflexivity | reflexivity].
  - intros Hmode. discriminate Hmode.
  - lia.
  - vm_compute. reflexivity.
  - rewrite Hn. apply example_files_in_range.
  - rewrite Hn. apply example_orders_ok.
  - split; [exact Hout|]. split; [apply Hfinal; vm_compute; reflexivity|].
    rewrite <- (Forall2_length _ _ _ Hrel). vm_compute. reflexivity.
Defined.

Lemma chunk_io_degenerate_size_example :
  let r := _chunk_io Examples.count_all Examples.split zero_cfg Examples.dobj
             true false None "config_file" Examples.files_index in
  yields r = [] ∧ final r = Examples.files_index ∧ outcome r = inl ValueError.
Proof.
  destruct (chunk_io_degenerate_size Examples.count_all Examples.split zero_cfg
              Examples.dobj true false None "config_file" Examples.files_index 0)
    as (Hy & Hf & _ & Hzero).
  - exists (Examples.base_chunk Examples.selection), Examples.selection.
    eexists. split; [reflexivity|]. split; [reflexivity|].
    split; [vm_compute; reflexivity | reflexivity].
  - lia.
  - eapply Forall_impl; [apply example_files_in_range|].
    intros f (df & -> & _). by exists df.
  - split; [exact Hy|]. split; [exact Hf|].
    apply Hzero; [reflexivity | intros Hobjs; vm_compute in Hobjs; discriminate Hobjs].
Defined.

Lemma wide_files_in_range :
  Forall (file_in_range 8) (chunk_objs Examples.wide_dobj).
Proof.
  apply Forall_forall. intros f Hf. vm_compute in Hf.
  repeat (apply elem_of_cons in Hf as [->|Hf]);
    [| | by apply not_elem_of_nil in Hf];
    (eexists; split; [reflexivity|]); cbn [DataFile.grid_id_values];
    repeat constructor; lia.
Qed.

Lemma wide_orders_ok :
  orders_ok Examples.count_all Examples.wide_dobj 8 wide_tree
    (planned (chunk_objs Examples.wide_dobj) 4).
Proof.
  assert (length (GridTree.dimensions wide_tree) = 8%nat) as Hd
    by (vm_compute; reflexivity).
  intros fb m Hfb Hm. cbv zeta. split.
  - vm_compute in Hfb.
    do 2 (apply elem_of_cons in Hfb as [Hfb|Hfb]; [batch_order Hfb Hm|]).
    destruct (not_elem_of_nil _ Hfb).
  - eapply Forall_impl; [apply count_all_order|].
    intros i Hi. cbv beta in Hi. rewrite Hd in Hi. lia.
Qed.

(** C1, as the code has it, on the eight grids in two files, four to a
    file, with a chunk size of 4 and two workers: the batch size is 4, and
    the generator runs to its end with one chunk of four grids for each
    file.  (Where [float64] rounds, the size is the code's: 1 for a chunk
    size of [2 ^ 54 + 6], one worker and two grids.) *)
Lemma chunk_io_auto_batches_example :
  let s := Examples.wide_index in
  let r := _chunk_io Examples.count_all Examples.split Examples.cfg
             Examples.wide_dobj true false None "auto" s in
  auto_size 4 2 8 = 4 ∧
  auto_size (2 ^ 54 + 6) 1 2 = 1 ∧
  outcome r = inr tt ∧
  Forall2 (io_chunk 8) (planned (chunk_objs Examples.wide_dobj) 4) (yields r) ∧
  length (yields r) = 2%nat.
Proof.
  assert (length (Index.grids Examples.wide_index) = 8%nat) as Hn
    by (vm_compute; reflexivity).
  assert (auto_size 4 2 8 = 4) as Hsize by (vm_compute; reflexivity).
  edestruct (chunk_io_auto_batches Examples.count_all Examples.split Examples.cfg
               Examples.wide_dobj true false None Examples.wide_index
               (DataChunk.mk "all" (FileObj <$> Index.data_files Examples.wide_index) 4096
                  false (Some Examples.wide_selection))
               Examples.wide_selection)
    as (_ & _ & Hcomplete).
  - reflexivity.
  - reflexivity.
  - vm_compute. reflexivity.
  - vm_compute. lia.
  - split; [vm_compute; reflexivity|]. split; [vm_compute; reflexivity|].
    split; [vm_compute; split; reflexivity|].
    exists 1. split; [vm_compute; reflexivity | vm_compute; split; [discriminate | reflexivity]].
  - assert (Z.max (GRID_CHUNKSIZE Examples.wide_index
                     `div` astype_int
                             (np_ceil (of_int (GRID_CHUNKSIZE Examples.wide_index)
                                       * of_int (Config.__global_parallel_size Examples.cfg)
                                       / of_int (Z.of_nat (size (Indexer.cell_count_by_grid
                                                                   Examples.wide_selection))))%float))
                  1 = 4) as Hsz by (vm_compute; reflexivity).
    rewrite Hsz, Hn in Hcomplete.
    destruct (Hcomplete wide_tree) as [Hout Hrel].
    + vm_compute. reflexivity.
    + apply wide_files_in_range.
    + apply wide_orders_ok.
    + split; [exact Hsize|]. split; [vm_compute; reflexivity|].
      split; [exact Hout|]. split; [exact Hrel|].
      rewrite <- (Forall2_length _ _ _ Hrel). vm_compute. reflexivity.
Defined.

(* ===================================================================== *)
(** ** The "spatial" strategy never yields *)
(* ===================================================================== *)

Lemma sorted_by_level_length (sign : Z) (l r : list ChunkObj) :
  sorted_by_level sign l = inr r → length r = length l.
Proof.
  unfold sorted_by_level. destruct (levels_of l); [done|].
  intros [= <-]. apply sorted_by_key_length.
Qed.

Section SpatialRuns.
Variable indexer_count : Indexer.t → Predicate → Z * (gmap Z Z * list Z).
Variable _split_fields : list string → list string * list string.
Variable retrieve_ghost_zones : Grid.t → Z → Grid.t.

(** The loop of [_chunk_spatial]: its first pass asks for a count without
    an indexer. *)
Lemma spatial_loop dobj ngz (giter : list ChunkObj) s :
  let r := for_each giter (λ og,
             g <- (if bool_decide (0 < ngz)
                   then match og with
                        | GridObj og' => ret (GridObj (retrieve_ghost_zones og' ngz))
                        | FileObj _ => raise (AttributeError "retrieve_ghost_zones")
                        end
                   else ret og) ;;
             r <- _count_selection indexer_count dobj (Some [og]) None ;;
             let size := r.1 in
             if bool_decide (size = 0) then ret tt
             else yield (DataChunk.mk "spatial" [g] size false None)) s in
  yields r = [] ∧ final r = s ∧ (outcome r = inr tt → giter = []).
Proof.
  cbv zeta. destruct giter as [|og rest]; [done|].
  cbn [for_each].
  match goal with
  | |- context [bind ?m ?k s] =>
      assert (∃ e, m s = Run [] (inl e) s) as [e Hfail]
  end.
  { destruct (bool_decide (0 < ngz)); [destruct og as [g|f]|].
    - rewrite bind_ret. unfold _count_selection. rewrite bind_raise. by eexists.
    - rewrite bind_raise. by eexists.
    - rewrite bind_ret. unfold _count_selection. rewrite bind_raise. by eexists. }
  rewrite (bind_failed _ _ _ _ _ _ Hfail). by repeat split.
Qed.

(** [_chunk_spatial] for every argument: the generator yields no chunk and
    leaves the index as it was; it returns normally only when there is no
    object to iterate over, and a [sort] that is none of ["+level"],
    ["level"], ["-level"] (nor [None]) ends in the [UnboundLocalError] of
    the unassigned [giter], not in a message about the bad value. *)
Theorem chunk_spatial_never_yields dobj ngz sort preload_fields s :
  let r := _chunk_spatial indexer_count _split_fields retrieve_ghost_zones
             dobj ngz sort preload_fields s in
  yields r = [] ∧ final r = s ∧
  (outcome r = inr tt → chunk_objs dobj = []) ∧
  (∀ srt, sort = Some srt → srt ∉ level_sorts →
          outcome r = inl (UnboundLocalError "giter")).
Proof.
  cbv zeta. unfold _chunk_spatial. cbv zeta.
  assert (∀ (giter : option (list ChunkObj)),
            (∀ l, giter = Some l → length l = length (chunk_objs dobj)) →
            let r := (self <- get ;;
              giter <- (if Index._preload_implemented self
                           && bool_decide (0 < Z.of_nat (length
                                (_split_fields (default [] preload_fields)).1))
                           && bool_decide (ngz = 0)
                        then match giter with
                             | Some l => ret (Some l)
                             | None => raise (UnboundLocalError "giter")
                             end
                        else ret giter) ;;
              match giter with
              | None => raise (UnboundLocalError "giter")
              | Some giter =>
                  for_each giter (λ og,
                    g <- (if bool_decide (0 < ngz)
                          then match og with
                               | GridObj og' => ret (GridObj (retrieve_ghost_zones og' ngz))
                               | FileObj _ => raise (AttributeError "retrieve_ghost_zones")
                               end
                          else ret og) ;;
                    r <- _count_selection indexer_count dobj (Some [og]) None ;;
                    let size := r.1 in
                    if bool_decide (size = 0) then ret tt
                    else yield (DataChunk.mk "spatial" [g] size false None))
              end : Meth unit) s in
            yields r = [] ∧ final r = s ∧
            (outcome r = inr tt → chunk_objs dobj = []) ∧
            (giter = None → outcome r = inl (UnboundLocalError "giter"))) as Hrest.
  { intros giter Hlen. cbv zeta. rewrite bind_get.
    destruct giter as [l|].
    - assert (∀ k : option (list ChunkObj) → Meth unit,
                bind (if Index._preload_implemented s
                         && bool_decide (0 < Z.of_nat (length
                              (_split_fields (default [] preload_fields)).1))
                         && bool_decide (ngz = 0)
                      then ret (Some l) else ret (Some l)) k s = k (Some l) s) as ->.
      { intros k. destruct (_ && _); apply bind_ret. }
      destruct (spatial_loop dobj ngz l s) as (Hy & Hf & Hout).
      split; [exact Hy|]. split; [exact Hf|]. split; [|done].
      intros Hret. specialize (Hout Hret). subst l.
      specialize (Hlen [] eq_refl). by destruct (chunk_objs dobj).
    - destruct (_ && _); rewrite ?bind_raise, ?bind_ret; by repeat split. }
  destruct sort as [srt|].
  - destruct (bool_decide (srt = "+level") || bool_decide (srt = "level")) eqn:Hup.
    { rewrite bind_assoc.
      destruct (sorted_by_level 1 (chunk_objs dobj)) as [e|l] eqn:Hsorted.
      { rewrite bind_lift_inl. repeat split; try done.
        intros srt' [= <-] Hnot. exfalso. apply Hnot. unfold level_sorts.
        apply orb_true_iff in Hup as [->%bool_decide_eq_true| ->%bool_decide_eq_true];
          rewrite !elem_of_cons; auto. }
      rewrite bind_lift_inr, bind_ret.
      destruct (Hrest (Some l)) as (Hy & Hf & Hout & _).
      { intros l' [= <-]. by eapply sorted_by_level_length. }
      split; [exact Hy|]. split; [exact Hf|]. split; [exact Hout|].
      intros srt' [= <-] Hnot. exfalso. apply Hnot. unfold level_sorts.
      apply orb_true_iff in Hup as [->%bool_decide_eq_true| ->%bool_decide_eq_true];
        rewrite !elem_of_cons; auto. }
    destruct (bool_decide (srt = "-level")) eqn:Hdown.
    { rewrite bind_assoc.
      destruct (sorted_by_level (-1) (chunk_objs dobj)) as [e|l] eqn:Hsorted.
      { rewrite bind_lift_inl. repeat split; try done.
        intros srt' [= <-] Hnot. exfalso. apply Hnot. unfold level_sorts.
        apply bool_decide_eq_true in Hdown as ->.
        rewrite !elem_of_cons; auto. }
      rewrite bind_lift_inr, bind_ret.
      destruct (Hrest (Some l)) as (Hy & Hf & Hout & _).
      { intros l' [= <-]. by eapply sorted_by_level_length. }
      split; [exact Hy|]. split; [exact Hf|]. split; [exact Hout|].
      intros srt' [= <-] Hnot. exfalso. apply Hnot. unfold level_sorts.
      apply bool_decide_eq_true in Hdown as ->.
        rewrite !elem_of_cons; auto. }
    rewrite bind_ret.
    destruct (Hrest None) as (Hy & Hf & Hout & Hnone); [done|].
    split; [exact Hy|]. split; [exact Hf|]. split; [exact Hout|].
    intros _ _ _. by apply Hnone.
  - rewrite bind_ret.
    destruct (Hrest (Some (chunk_objs dobj))) as (Hy & Hf & Hout & _).
    { by intros l [= <-]. }
    split; [exact Hy|]. split; [exact Hf|]. split; [exact Hout|]. done.
Qed.
End SpatialRuns.

Lemma chunk_spatial_never_yields_example :
  let r := _chunk_spatial Examples.count_all Examples.split (λ g _, g)
             Examples.grid_dobj 0 (Some "by_level") None Examples.files_index in
  yields r = [] ∧ final r = Examples.files_index ∧
  outcome r = inl (UnboundLocalError "giter").
Proof.
  assert ("by_level" ∉ level_sorts) as Hnot.
  { unfold level_sorts. rewrite !not_elem_of_cons.
    split; [discriminate|]. split; [discriminate|]. split; [discriminate|].
    apply not_elem_of_nil. }
  destruct (chunk_spatial_never_yields Examples.count_all Examples.split (λ g _, g)
              Examples.grid_dobj 0 (Some "by_level") None Examples.files_index)
    as (Hy & Hf & _ & Hsort).
  split; [exact Hy|]. split; [exact Hf|].
  exact (Hsort "by_level" eq_refl Hnot).
Defined.

(* ===================================================================== *)
(** ** Point location: the grids handed back *)
(* ===================================================================== *)

Lemma np_get_in_range {A} (l : list A) (i : Z) :
  - Z.of_nat (length l) ≤ i < Z.of_nat (length l) →
  ∃ a, np_get l i = inr a ∧ l !! Z.to_nat (i `mod` Z.of_nat (length l)) = Some a.
Proof.
  intros Hi. unfold np_get, Py.np_index.
  destruct (decide (0 ≤ i < Z.of_nat (length l))) as [Hpos|Hneg].
  - rewrite Z.mod_small by done.
    destruct (lookup_lt_is_Some_2 l (Z.to_nat i) ltac:(lia)) as [a Ha].
    exists a. by rewrite Ha.
  - rewrite decide_True by lia.
    replace (i `mod` Z.of_nat (length l)) with (i + Z.of_nat (length l)); cycle 1.
    { symmetry. rewrite <- (Z.mod_add _ 1) by lia. rewrite Z.mod_small; lia. }
    destruct (lookup_lt_is_Some_2 l (Z.to_nat (i + Z.of_nat (length l))) ltac:(lia))
      as [a Ha].
    exists a. by rewrite Ha.
Qed.

Lemma np_get_out_of_range {A} (l : list A) (i : Z) :
  ¬ (- Z.of_nat (length l) ≤ i < Z.of_nat (length l)) → np_get l i = inl IndexError.
Proof.
  intros Hi. unfold np_get, Py.np_index.
  rewrite decide_False by lia. by rewrite decide_False by lia.
Qed.

Lemma np_take_in_range {A} (l : list A) (ind : list Z) :
  Forall (λ i, - Z.of_nat (length l) ≤ i < Z.of_nat (length l)) ind →
  ∃ r, np_take l ind = inr r ∧ length r = length ind ∧
       ∀ k i, ind !! k = Some i → r !! k = l !! Z.to_nat (i `mod` Z.of_nat (length l)).
Proof.
  induction 1 as [|i ind Hi _ (r & Hr & Hlen & Hrows)].
  { exists []. by repeat split. }
  destruct (np_get_in_range l i Hi) as (a & Ha & Hla).
  exists (a :: r). cbn [np_take]. rewrite Ha, Hr. split; [done|].
  split; [by rewrite !length_cons, Hlen|].
  intros [|k] j Hj; cbn in Hj |- *.
  - injection Hj as <-. by rewrite Hla.
  - by apply Hrows.
Qed.

Lemma np_take_out_of_range {A} (l : list A) (ind : list Z) :
  ¬ Forall (λ i, - Z.of_nat (length l) ≤ i < Z.of_nat (length l)) ind →
  np_take l ind = inl IndexError.
Proof.
  induction ind as [|i ind IH]; intros Hnot.
  { destruct Hnot. constructor. }
  cbn [np_take].
  destruct (decide (- Z.of_nat (length l) ≤ i < Z.of_nat (length l))) as [Hi|Hi].
  - destruct (np_get_in_range l i Hi) as (a & -> & _).
    rewrite IH; [done|]. intros Hall. apply Hnot. by constructor.
  - by rewrite np_get_out_of_range.
Qed.

Section PointGrids.
Variable find_points_in_tree :
  GridTree.t → Z → list float → list float → list float → list Z.

(** [_find_points] on three coordinate sequences of one length, where the
    tree can be had: the index changes as the tree access changes it and
    no more; the call hands back the search's indices as they are and,
    with them, one grid per index, read from the grid array with NumPy's
    indexing: an index from [-n] to [-1] counts from the end of the array
    (so -1 is the last grid), and an index outside [-n, n) fails the whole
    call with an [IndexError]. *)
Theorem find_points_picks_grids (x y z : list float) (s : Index.t) (tree : GridTree.t) :
  length x = length y → length y = length z →
  outcome (_get_grid_tree s) = inr tree →
  let n := Z.of_nat (length (Index.grids s)) in
  let ind := find_points_in_tree tree (Z.of_nat (length x)) x y z in
  let r := _find_points find_points_in_tree x y z s in
  yields r = [] ∧ final r = final (_get_grid_tree s) ∧
  (Forall (λ i, - n ≤ i < n) ind →
   ∃ found, outcome r = inr (found, ind) ∧ length found = length ind ∧
            ∀ k i, ind !! k = Some i →
                   found !! k = Index.grids s !! Z.to_nat (i `mod` n)) ∧
  (¬ Forall (λ i, - n ≤ i < n) ind → outcome r = inl IndexError).
Proof.
  intros Hxy Hyz Htree. cbv zeta. unfold _find_points.
  rewrite !bool_decide_eq_true_2 by done. cbn [andb negb].
  destruct (get_grid_tree_cases s) as [(e & Hrun & _)|(tree' & Hrun & _)].
  { rewrite Hrun in Htree. discriminate Htree. }
  rewrite Hrun in Htree |- *. cbn [outcome final] in Htree |- *.
  injection Htree as ->.
  rewrite (bind_returned _ _ _ _ _ _ Hrun). rewrite bind_get.
  cbn [Index.set_grid_tree Index.grids app].
  split; [|split; [|split]].
  - by destruct (np_take _ _).
  - by destruct (np_take _ _).
  - intros Hall. destruct (np_take_in_range _ _ Hall) as (found & Hfound & Hlen & Hrows).
    exists found. by rewrite Hfound.
  - intros Hnot. by rewrite (np_take_out_of_range _ _ Hnot).
Qed.
End PointGrids.

Lemma find_points_picks_grids_example :
  outcome (_find_points (λ _ _ _ _ _, [-1; 1]) [0.5; 2]%float [0.5; 2]%float [0.5; 2]%float
             treed_index)
  = inr ([Examples.grid 4 1 "a.h5" 1 (4, 4, 4); Examples.grid 1 1 "b.h5" 0 (8, 8, 8)],
         [-1; 1]).
Proof.
  destruct (find_points_picks_grids (λ _ _ _ _ _, [-1; 1])
              [0.5; 2]%float [0.5; 2]%float [0.5; 2]%float treed_index treed_tree)
    as (_ & _ & Hpick & _); [reflexivity | reflexivity | vm_compute; reflexivity |].
  destruct Hpick as (found & Hout & Hlen & Hrows).
  { assert (length (Index.grids treed_index) = 5%nat) as -> by (vm_compute; reflexivity).
    repeat constructor; lia. }
  rewrite Hout. f_equal. f_equal.
  pose proof (Hrows 0%nat (-1) eq_refl) as H0.
  pose proof (Hrows 1%nat 1 eq_refl) as H1.
  destruct found as [|a [|b [|c found]]]; try discriminate Hlen.
  vm_compute in H0, H1. injection H0 as ->. injection H1 as ->. reflexivity.
Defined.
